(** * Adaptive Code Intelligence Engine: the [CodeAnalyzer] class

    A shallow embedding of [CodeAnalyzer] from
    [adaptive_code_intelligence_engine.py] and the properties of its
    per-file analysis.

    Conventions of the embedding.
    - A Python [str] is the list of its Unicode code points ([pystr]).
    - A Python [int] that counts something is a [nat]; a Python [float]
      is an exact rational ([Q]): rounding of binary64 arithmetic is not
      modelled.  Every value the score computation handles before the
      docstring bonus is an integer.  Where a property depends on the
      rounding, the score is computed a second time in binary64
      ([quality_score_binary64]).
    - The interpreter and its libraries ([open], [ast.parse], [time.time],
      [str] of an object, [inspect.cleandoc], the Unicode tables behind
      [\s], [\w], [\d] and [str.strip]) are parameters of the analysis.
    - A dictionary with a fixed set of literal keys built in one place is
      a record; the dictionary [analyze_file] returns and the
      [defaultdict] of [_calculate_complexity] are finite maps. *)

From Stdlib Require Import List String Ascii NArith ZArith QArith Qminmax Lia Lqa.
From Stdlib Require Import Permutation Sorted HexadecimalString DecimalString.
From Stdlib Require Import SpecFloat.
From stdpp Require Import gmap strings list fin_maps.
Import ListNotations.

Open Scope nat_scope.

(** ** Python strings *)

Abbreviation pystr := (list N).

Definition py (s : string) : pystr :=
  map N_of_ascii (list_ascii_of_string s).

(** The line boundaries of [str.splitlines]: LF, VT, FF, CR, FS, GS, RS,
    NEL, LS and PS. *)
Definition LF : N := 10%N.
Definition CR : N := 13%N.

Definition is_linebreak (c : N) : bool :=
  existsb (N.eqb c) [10; 11; 12; 13; 28; 29; 30; 133; 8232; 8233]%N.

(** [str.splitlines()]: cut at every line boundary, CR LF counting as
    one, and no empty last line. [cur] is the line being read, reversed. *)
Fixpoint splitlines_from (cur : pystr) (s : pystr) : list pystr :=
  match s with
  | [] => match cur with [] => [] | _ => [rev cur] end
  | c :: rest =>
      if is_linebreak c then
        match rest with
        | c' :: rest' =>
            if (N.eqb c CR && N.eqb c' LF)%bool
            then rev cur :: splitlines_from [] rest'
            else rev cur :: splitlines_from [] rest
        | [] => rev cur :: splitlines_from [] rest
        end
      else splitlines_from (c :: cur) rest
  end.

Definition splitlines (s : pystr) : list pystr := splitlines_from [] s.

(** ** Syntax trees

    What [CodeAnalyzer] observes of a node of Python's [ast] module: its
    class ([isinstance]), the attributes the analysis reads, its line
    number when it has one ([hasattr(n, 'lineno')]), its identity (the
    address of the object: [n != node] compares identities, and the
    default [str] of an object prints it), and its child fields in
    [_fields] order, from which [ast.iter_child_nodes] enumerates the
    children. *)

Inductive constant : Type :=
| CStr (text : pystr)
| CNotStr.

Inductive node_class : Type :=
| Module
| FunctionDef (name : pystr)
| AsyncFunctionDef (name : pystr)
| ClassDef (name : pystr)
| If | While | For | Try | ExceptHandler
| ListComp | DictComp | SetComp
| Import
| ImportFrom (module : option pystr) (level : nat)
| alias (name : pystr)
| Return | Raise | Break | Continue
| Name (id : pystr)
| arguments
| arg (arg : pystr)
| Expr
| Constant (value : constant)
| OtherClass (class_name : string).

#[local] Unset Elimination Schemes.
Inductive node : Type :=
| Node (cls : node_class) (lineno : option nat) (addr : N)
       (fields : list (string * list node)).
#[local] Set Elimination Schemes.

Definition cls (n : node) : node_class := let 'Node c _ _ _ := n in c.
Definition lineno (n : node) : option nat := let 'Node _ l _ _ := n in l.
Definition addr (n : node) : N := let 'Node _ _ a _ := n in a.
Definition fields (n : node) : list (string * list node) :=
  let 'Node _ _ _ fs := n in fs.

(** [node.<name>] for a field holding a list of nodes (or one node, held
    as a one-element list); a field the node lacks reads as empty. *)
Fixpoint field_of (name : string) (fs : list (string * list node)) : list node :=
  match fs with
  | [] => []
  | (k, ns) :: fs' => if String.eqb k name then ns else field_of name fs'
  end.

Definition field (name : string) (n : node) : list node :=
  field_of name (fields n).

(** [ast.iter_child_nodes] *)
Definition iter_child_nodes (n : node) : list node :=
  flat_map snd (fields n).

(** The number of nodes of a tree and of a list of trees. *)
Fixpoint tree_size (n : node) : nat :=
  let 'Node _ _ _ fs := n in
  S (list_sum (map (fun f => list_sum (map tree_size (snd f))) fs)).

Definition forest_size (ns : list node) : nat := list_sum (map tree_size ns).

(** [ast.walk]: breadth first, through a queue.
<<
    todo = deque([node])
    while todo:
        node = todo.popleft()
        todo.extend(iter_child_nodes(node))
        yield node
>>
    One unit of fuel is spent per node taken from the queue. *)
Fixpoint walk_queue (fuel : nat) (todo : list node) : list node :=
  match fuel, todo with
  | S fuel', n :: rest => n :: walk_queue fuel' (rest ++ iter_child_nodes n)
  | _, _ => []
  end.

Definition walk (n : node) : list node := walk_queue (tree_size n) [n].

(** ** The interpreter

    Library behaviour the analysis relies on and this repository does not
    define: the Unicode classes behind [\s] (also [str.strip]), [\w] and
    [\d], [inspect.cleandoc] (called by [ast.get_docstring]) and [str] of
    a syntax-tree node. *)
Class Interpreter : Type := {
  is_space : N -> bool;
  is_word : N -> bool;
  is_digit : N -> bool;
  cleandoc : pystr -> pystr;
  ast_str : node -> pystr
}.

(** ** Regular expressions

    The abstract syntax of the patterns of [bug_patterns] and
    [optimization_patterns] and a backtracking matcher for it, as
    [re.search] runs them: no flags, so [.] excludes only LF, [^] is the
    start of the subject and [$] its end or the position before a final
    LF. *)

Inductive set_item : Type :=
| SChar (c : N)
| SSpace
| SWord
| SDigit.

Inductive regex : Type :=
| Empty
| Lit (c : N)
| Dot
| CharSet (negated : bool) (items : list set_item)
| Cat (r1 r2 : regex)
| Repeat (lo : nat) (hi : option nat) (greedy : bool) (r : regex)
| Group (n : nat) (r : regex)
| Backref (n : nat)
| Bol
| Eol
| WordBoundary
| NegLookahead (r : regex)
| NegLookbehind (width : nat) (r : regex).

(** Group number to the span it captured last, most recent first. *)
Abbreviation captures := (list (nat * (nat * nat))).

Fixpoint capture_of (n : nat) (caps : captures) : option (nat * nat) :=
  match caps with
  | [] => None
  | (g, span) :: caps' => if Nat.eqb g n then Some span else capture_of n caps'
  end.

Definition below (count : nat) (hi : option nat) : bool :=
  match hi with
  | None => true
  | Some h => Nat.ltb count h
  end.

Section Matcher.
Context `{Interpreter}.

Definition in_item (d : N) (it : set_item) : bool :=
  match it with
  | SChar c => N.eqb c d
  | SSpace => is_space d
  | SWord => is_word d
  | SDigit => is_digit d
  end.

Definition in_set (negated : bool) (items : list set_item) (d : N) : bool :=
  xorb negated (existsb (in_item d) items).

Variable s : pystr.

Definition word_at (i : nat) : bool :=
  match nth_error s i with
  | Some d => is_word d
  | None => false
  end.

Definition at_boundary (i : nat) : bool :=
  xorb (match i with 0 => false | S j => word_at j end) (word_at i).

Definition at_end (i : nat) : bool :=
  (Nat.eqb i (length s)
   || (Nat.eqb (S i) (length s)
       && match nth_error s i with Some d => N.eqb d LF | None => false end))%bool.

(** The text of a captured span occurs again at [i]. *)
Definition same_text (a b i : nat) : bool :=
  (Nat.leb (i + (b - a)) (length s)
   && forallb (fun j => match nth_error s (a + j), nth_error s (i + j) with
                        | Some c, Some d => N.eqb c d
                        | _, _ => false
                        end) (seq 0 (b - a)))%bool.

(** The rounds of a repetition of [step] from position [i], [count]
    rounds done: one more round is tried before or after stopping as the
    repetition is greedy or lazy, and a round beyond the required ones
    that consumes nothing is cut, so that [lo + length s + 1] rounds of
    fuel are never used up. *)
Fixpoint rounds (step : nat -> captures -> (nat -> captures -> bool) -> bool)
         (k : nat -> captures -> bool) (lo : nat) (hi : option nat)
         (greedy : bool) (fuel count i : nat) (caps : captures)
         {struct fuel} : bool :=
  match fuel with
  | 0 => false
  | S fuel' =>
      let more :=
        if below count hi then
          step i caps
            (fun j c =>
               if (Nat.leb lo count && Nat.eqb j i)%bool then false
               else rounds step k lo hi greedy fuel' (S count) j c)
        else false in
      let stop := if Nat.leb lo count then k i caps else false in
      if greedy then (more || stop)%bool else (stop || more)%bool
  end.

(** [matches r i caps k]: [r] matches from position [i] under the
    captures [caps] and the rest of the pattern, [k], accepts where it
    ends. *)
Fixpoint matches (r : regex) (i : nat) (caps : captures)
         (k : nat -> captures -> bool) {struct r} : bool :=
  match r with
  | Empty => k i caps
  | Lit c =>
      match nth_error s i with
      | Some d => if N.eqb c d then k (S i) caps else false
      | None => false
      end
  | Dot =>
      match nth_error s i with
      | Some d => if N.eqb d LF then false else k (S i) caps
      | None => false
      end
  | CharSet negated items =>
      match nth_error s i with
      | Some d => if in_set negated items d then k (S i) caps else false
      | None => false
      end
  | Cat r1 r2 => matches r1 i caps (fun j c => matches r2 j c k)
  | Repeat lo hi greedy r1 =>
      rounds (matches r1) k lo hi greedy (lo + length s + 1) 0 i caps
  | Group n r1 => matches r1 i caps (fun j c => k j ((n, (i, j)) :: c))
  | Backref n =>
      match capture_of n caps with
      | Some (a, b) => if same_text a b i then k (i + (b - a)) caps else false
      | None => false
      end
  | Bol => if Nat.eqb i 0 then k i caps else false
  | Eol => if at_end i then k i caps else false
  | WordBoundary => if at_boundary i then k i caps else false
  | NegLookahead r1 =>
      if matches r1 i caps (fun _ _ => true) then false else k i caps
  | NegLookbehind width r1 =>
      if (Nat.leb width i
          && matches r1 (i - width) caps (fun j _ => Nat.eqb j i))%bool
      then false else k i caps
  end.

(** [bool(re.search(pattern, s))]: a match starts at some position. *)
Definition re_search (pattern : regex) : bool :=
  existsb (fun i => matches pattern i [] (fun _ _ => true))
          (seq 0 (S (length s))).
End Matcher.

(** ** The records of an analysis *)

Inductive severity : Type := Low | Medium | High | Critical.
Inductive impact : Type := LowImpact | MediumImpact | HighImpact.

(** An entry of [potential_bugs]. *)
Record bug : Type := {
  bug_type : string;
  bug_line : nat;
  bug_content : pystr;
  bug_severity : severity;
  bug_pattern : string
}.

(** An entry of [optimization_opportunities]. *)
Record optimization : Type := {
  opt_type : string;
  opt_line : nat;
  opt_original : pystr;
  opt_suggestion : string;
  opt_impact : impact
}.

(** An entry of [patterns]; the constructor is the ['type'] key. *)
Inductive pattern : Type :=
| FunctionPattern (name signature : pystr) (line_start length args_count : nat)
                  (returns docstring : bool) (complexity : nat)
| ClassPattern (name : pystr) (line_start methods_count : nat)
               (bases : list pystr) (docstring has_init : bool)
| LoopPattern (loop_type : string) (line_start nested_loops : nat)
              (has_break has_continue : bool).

(** An entry of [functions]. *)
Record func_info : Type := {
  fi_name : pystr;
  fi_line_number : nat;
  fi_args : list pystr;
  fi_defaults : nat;
  fi_returns_count : nat;
  fi_raises_count : nat;
  fi_docstring : option pystr;
  fi_is_async : bool;
  fi_decorators : list pystr
}.

(** An entry of [classes]. *)
Record class_info : Type := {
  ci_name : pystr;
  ci_line_number : nat;
  ci_methods : list pystr;
  ci_base_classes : list pystr;
  ci_docstring : option pystr;
  ci_decorators : list pystr
}.

(** The value of [imports]. *)
Record import_lists : Type := {
  standard : list pystr;
  third_party : list pystr;
  relative : list pystr
}.

(** The values [analyze_file] stores under its keys. *)
Inductive pyval : Type :=
| VStr (s : pystr)
| VInt (n : nat)
| VFloat (q : Q)
| VComplexity (m : gmap string nat)
| VPatterns (l : list pattern)
| VFunctions (l : list func_info)
| VClasses (l : list class_info)
| VImports (i : import_lists)
| VBugs (l : list bug)
| VOptimizations (l : list optimization).

(** What a call into the outside world does: return, or raise an
    exception [e] of which only [str(e)] is kept. *)
Inductive outcome (A : Type) : Type :=
| Returns (a : A)
| Raises (message : pystr).
Arguments Returns {A} a.
Arguments Raises {A} message.

(** One run's surroundings: the file system as [open(...).read()] sees
    it, the parser (which allocates the nodes it returns) and the clock. *)
Record World : Type := {
  read_file : pystr -> outcome pystr;
  ast_parse : pystr -> outcome node;
  time_time : Q
}.

(** ** Node classes and attributes as the analysis tests them *)

Definition is_branch (n : node) : bool :=
  match cls n with If | While | For => true | _ => false end.
Definition is_loop (n : node) : bool :=
  match cls n with For | While => true | _ => false end.
Definition is_FunctionDef (n : node) : bool :=
  match cls n with FunctionDef _ => true | _ => false end.
Definition is_AsyncFunctionDef (n : node) : bool :=
  match cls n with AsyncFunctionDef _ => true | _ => false end.
Definition is_ClassDef (n : node) : bool :=
  match cls n with ClassDef _ => true | _ => false end.
Definition is_Try (n : node) : bool :=
  match cls n with Try => true | _ => false end.
Definition is_ExceptHandler (n : node) : bool :=
  match cls n with ExceptHandler => true | _ => false end.
Definition is_comprehension (n : node) : bool :=
  match cls n with ListComp | DictComp | SetComp => true | _ => false end.
Definition is_Return (n : node) : bool :=
  match cls n with Return => true | _ => false end.
Definition is_Raise (n : node) : bool :=
  match cls n with Raise => true | _ => false end.
Definition is_Break (n : node) : bool :=
  match cls n with Break => true | _ => false end.
Definition is_Continue (n : node) : bool :=
  match cls n with Continue => true | _ => false end.
Definition is_For (n : node) : bool :=
  match cls n with For => true | _ => false end.

(** [node.name], [alias.name], [arg.arg]; the parser gives every node of
    these classes the attribute, other nodes read as the empty string. *)
Definition name_of (n : node) : pystr :=
  match cls n with
  | FunctionDef nm | AsyncFunctionDef nm | ClassDef nm | alias nm | arg nm => nm
  | _ => []
  end.

(** [node.lineno] of a statement; every statement has one. *)
Definition line_of (n : node) : nat :=
  match lineno n with Some l => l | None => 0 end.

(** [node.args.args] and [node.args.defaults] of a function definition. *)
Definition args_args (n : node) : list node :=
  flat_map (field "args") (field "args" n).
Definition args_defaults (n : node) : list node :=
  flat_map (field "defaults") (field "args" n).

Definition count_if {A} (p : A -> bool) (l : list A) : nat :=
  length (List.filter p l).

(** [sep.join(parts)] *)
Fixpoint join (sep : pystr) (parts : list pystr) : pystr :=
  match parts with
  | [] => []
  | [p] => p
  | p :: rest => p ++ sep ++ join sep rest
  end.

(** [s.split('.')[0]] *)
Fixpoint first_segment (s : pystr) : pystr :=
  match s with
  | [] => []
  | c :: rest => if N.eqb c 46 then [] else c :: first_segment rest
  end.

(** ** [CodeAnalyzer] *)

(** [\s], [\w], [\d], a run of literals and a sequence of items. *)
Definition space : regex := CharSet false [SSpace].
Definition word : regex := CharSet false [SWord].
Definition digit : regex := CharSet false [SDigit].
Definition star (r : regex) : regex := Repeat 0 None true r.
Definition plus (r : regex) : regex := Repeat 1 None true r.
Definition lits (text : string) : regex :=
  fold_right (fun c r => Cat (Lit c) r) Empty (py text).
Definition cats (rs : list regex) : regex := fold_right Cat Empty rs.

(** [self.bug_patterns], in insertion order: rule, pattern text, pattern. *)
Definition bug_patterns : list (string * (string * regex)) :=
  [ ("unused_variable", ("^\s*(\w+)\s*=.*$(?!\n.*\1)",
      cats [Bol; star space; Group 1 (plus word); star space; Lit 61;
            star Dot; Eol;
            NegLookahead (cats [Lit LF; star Dot; Backref 1])]));
    ("duplicate_code", ("(.{20,})\n(?:.*\n)*?\1",
      cats [Group 1 (Repeat 20 None true Dot); Lit LF;
            Repeat 0 None false (cats [star Dot; Lit LF]); Backref 1]));
    ("long_line", ("^.{120,}$",
      cats [Bol; Repeat 120 None true Dot; Eol]));
    ("deep_nesting", ("^(\s{12,})",
      cats [Bol; Group 1 (Repeat 12 None true space)]));
    ("magic_number", ("\b(?<![\w.])\d{2,}\b(?![\w.])",
      cats [WordBoundary; NegLookbehind 1 (CharSet false [SWord; SChar 46]);
            Repeat 2 None true digit; WordBoundary;
            NegLookahead (CharSet false [SWord; SChar 46])]));
    ("bare_except", ("except\s*:",
      cats [lits "except"; star space; Lit 58]));
    ("mutable_default", ("def\s+\w+\([^)]*=\s*[\[\{]",
      cats [lits "def"; plus space; plus word; Lit 40;
            star (CharSet true [SChar 41]); Lit 61; star space;
            CharSet false [SChar 91; SChar 123]]));
    ("global_variable", ("^\s*global\s+\w+",
      cats [Bol; star space; lits "global"; plus space; plus word])) ].

(** [self.optimization_patterns], in insertion order.  The texts are
<<
    list_comprehension      for\s+\w+\s+in\s+.*:\s*\n\s*.*\.append\(
    string_concatenation    \w+\s*\+=\s*["\'].*["\']
    inefficient_membership  \w+\s+in\s+\[.*\]
    repeated_calculation    (\w+\([^)]*\)).*\n.*\1
>> *)
Definition optimization_patterns : list (string * regex) :=
  [ ("list_comprehension",
      cats [lits "for"; plus space; plus word; plus space; lits "in";
            plus space; star Dot; Lit 58; star space; Lit LF; star space;
            star Dot; Lit 46; lits "append"; Lit 40]);
    ("string_concatenation",
      cats [plus word; star space; Lit 43; Lit 61; star space;
            CharSet false [SChar 34; SChar 39]; star Dot;
            CharSet false [SChar 34; SChar 39]]);
    ("inefficient_membership",
      cats [plus word; plus space; lits "in"; plus space; Lit 91;
            star Dot; Lit 93]);
    ("repeated_calculation",
      cats [Group 1 (cats [plus word; Lit 40; star (CharSet true [SChar 41]);
                           Lit 41]);
            star Dot; Lit LF; star Dot; Backref 1]) ].

(** [d.get(key, default)] on a dictionary written as a list of items. *)
Fixpoint get_or {A} (key : string) (default : A) (d : list (string * A)) : A :=
  match d with
  | [] => default
  | (k, v) :: d' => if String.eqb k key then v else get_or key default d'
  end.

Definition _assess_bug_severity (bug_type : string) : severity :=
  get_or bug_type Low
    [ ("unused_variable", Low); ("duplicate_code", Medium);
      ("long_line", Low); ("deep_nesting", Medium); ("magic_number", Low);
      ("bare_except", High); ("mutable_default", High);
      ("global_variable", Medium) ].

Definition _generate_optimization_suggestion (opt_type : string)
           (original_line : pystr) : string :=
  get_or opt_type "Consider optimization"
    [ ("list_comprehension",
       "Consider using list comprehension for better performance");
      ("string_concatenation",
       "Use f-strings or join() for string concatenation");
      ("inefficient_membership",
       "Use set for membership testing instead of list");
      ("repeated_calculation",
       "Cache the result to avoid repeated calculations") ].

Definition _assess_optimization_impact (opt_type : string) : impact :=
  get_or opt_type LowImpact
    [ ("list_comprehension", MediumImpact);
      ("string_concatenation", HighImpact);
      ("inefficient_membership", HighImpact);
      ("repeated_calculation", MediumImpact) ].

Fixpoint drop_while {A} (p : A -> bool) (l : list A) : list A :=
  match l with
  | [] => []
  | x :: l' => if p x then drop_while p l' else l
  end.

(** [a == b] on strings. *)
Fixpoint str_eqb (a b : pystr) : bool :=
  match a, b with
  | [], [] => true
  | x :: a', y :: b' => (N.eqb x y && str_eqb a' b')%bool
  | _, _ => false
  end.

(** The [float] of an [int]. *)
Definition float_of (n : nat) : Q := inject_Z (Z.of_nat n).

Definition qltb (x y : Q) : bool := negb (Qle_bool y x).

(** [min(a, b)] and [max(a, b)] of Python: the first argument unless the
    second is strictly smaller (larger). *)
Definition py_min (a b : Q) : Q := if qltb b a then b else a.
Definition py_max (a b : Q) : Q := if qltb a b then b else a.

(** [bool(x)] of an optional string: not [None] and not empty. *)
Definition truthy (x : option pystr) : bool :=
  match x with
  | Some (_ :: _) => true
  | _ => false
  end.

(** [complexity[key] += 1] on a [defaultdict(int)]. *)
Definition incr (key : string) (m : gmap string nat) : gmap string nat :=
  <[key := S (m !!! key)]> m.

Definition severity_points (s : severity) : Q :=
  match s with
  | Critical => 20
  | High => 10
  | Medium => 5
  | Low => 2
  end.

Section Analyzer.
Context `{Interpreter}.

(** [s.strip()] *)
Definition lstrip (s : pystr) : pystr := drop_while is_space s.
Definition strip (s : pystr) : pystr := rev (lstrip (rev (lstrip s))).

(** [ast.get_docstring(node)] for a function, class or module node. *)
Definition get_docstring (n : node) : option pystr :=
  match field "body" n with
  | first :: _ =>
      match cls first, field "value" first with
      | Expr, [v] =>
          match cls v with
          | Constant (CStr text) => Some (cleandoc text)
          | _ => None
          end
      | _, _ => None
      end
  | [] => None
  end.

(** [d.id if isinstance(d, ast.Name) else str(d)] *)
Definition id_or_str (d : node) : pystr :=
  match cls d with
  | Name id => id
  | _ => ast_str d
  end.

Definition complexity_step (complexity : gmap string nat) (n : node)
  : gmap string nat :=
  if is_branch n then incr "cyclomatic" complexity
  else if is_Try n then incr "try_blocks" complexity
  else if is_ExceptHandler n then incr "except_blocks" complexity
  else if (is_FunctionDef n || is_AsyncFunctionDef n)%bool then
    let complexity := incr "functions" complexity in
    let func_complexity := count_if is_branch (walk n) in
    <["max_function_complexity" :=
        Nat.max (complexity !!! "max_function_complexity") func_complexity]>
      complexity
  else if is_ClassDef n then incr "classes" complexity
  else if is_comprehension n then incr "comprehensions" complexity
  else complexity.

Definition _calculate_complexity (tree : node) : gmap string nat :=
  fold_left complexity_step (walk tree) ∅.

Definition _analyze_function_pattern (n : node) (content : pystr) : pattern :=
  let args := map name_of (args_args n) in
  let signature := name_of n ++ py "(" ++ join (py ", ") args ++ py ")" in
  let func_lines := omap lineno (walk n) in
  let func_length :=
    match func_lines with
    | [] => 1
    | l :: ls => fold_right Nat.max l ls - fold_right Nat.min l ls + 1
    end in
  FunctionPattern (name_of n) signature (line_of n) func_length
    (length args)
    (negb (Nat.eqb (count_if is_Return (walk n)) 0))
    (match get_docstring n with Some _ => true | None => false end)
    (count_if is_branch (walk n)).

Definition methods_of (n : node) : list node :=
  List.filter is_FunctionDef (field "body" n).

Definition _analyze_class_pattern (n : node) (content : pystr) : pattern :=
  let methods := methods_of n in
  ClassPattern (name_of n) (line_of n) (length methods)
    (map id_or_str (field "bases" n))
    (match get_docstring n with Some _ => true | None => false end)
    (existsb (fun method => str_eqb (name_of method) (py "__init__"))
             methods).

Definition _analyze_loop_pattern (n : node) (content : pystr) : pattern :=
  LoopPattern (if is_For n then "for" else "while") (line_of n)
    (count_if (fun d => (is_loop d && negb (N.eqb (addr d) (addr n)))%bool)
              (walk n))
    (negb (Nat.eqb (count_if is_Break (walk n)) 0))
    (negb (Nat.eqb (count_if is_Continue (walk n)) 0)).

Definition pattern_step (content : pystr) (n : node) : list pattern :=
  if is_FunctionDef n then [_analyze_function_pattern n content]
  else if is_ClassDef n then [_analyze_class_pattern n content]
  else if is_loop n then [_analyze_loop_pattern n content]
  else [].

Definition _extract_patterns (tree : node) (content : pystr) : list pattern :=
  flat_map (pattern_step content) (walk tree).

Definition function_step (n : node) : list func_info :=
  if is_FunctionDef n then
    [ {| fi_name := name_of n;
         fi_line_number := line_of n;
         fi_args := map name_of (args_args n);
         fi_defaults := length (args_defaults n);
         fi_returns_count := count_if is_Return (walk n);
         fi_raises_count := count_if is_Raise (walk n);
         fi_docstring := get_docstring n;
         fi_is_async := is_AsyncFunctionDef n;
         fi_decorators := map id_or_str (field "decorator_list" n) |} ]
  else [].

Definition _analyze_functions (tree : node) : list func_info :=
  flat_map function_step (walk tree).

Definition class_step (n : node) : list class_info :=
  if is_ClassDef n then
    let methods := methods_of n in
    [ {| ci_name := name_of n;
         ci_line_number := line_of n;
         ci_methods := map name_of methods;
         ci_base_classes := map id_or_str (field "bases" n);
         ci_docstring := get_docstring n;
         ci_decorators := map id_or_str (field "decorator_list" n) |} ]
  else [].

Definition _analyze_classes (tree : node) : list class_info :=
  flat_map class_step (walk tree).
End Analyzer.

(** [stdlib_modules] of [_analyze_imports]. *)
Definition stdlib_modules : list string :=
  [ "os"; "sys"; "json"; "time"; "datetime"; "collections"; "itertools";
    "functools"; "operator"; "pathlib"; "typing"; "dataclasses"; "enum";
    "logging"; "unittest"; "sqlite3"; "pickle"; "csv"; "xml"; "html";
    "urllib"; "http"; "email"; "calendar"; "locale"; "platform" ].

Definition in_stdlib (module : pystr) : bool :=
  existsb (fun m => str_eqb module (py m)) stdlib_modules.

Definition add_standard (x : pystr) (i : import_lists) : import_lists :=
  {| standard := standard i ++ [x]; third_party := third_party i;
     relative := relative i |}.
Definition add_third_party (x : pystr) (i : import_lists) : import_lists :=
  {| standard := standard i; third_party := third_party i ++ [x];
     relative := relative i |}.
Definition add_relative (x : pystr) (i : import_lists) : import_lists :=
  {| standard := standard i; third_party := third_party i;
     relative := relative i ++ [x] |}.

(** [x or ''] and the truth value of an optional string. *)
Definition or_empty (x : option pystr) : pystr :=
  match x with Some s => s | None => [] end.

(** The body of the loop over [node.names] of an [ast.Import]. *)
Definition import_alias (imports : import_lists) (a : node) : import_lists :=
  let module := first_segment (name_of a) in
  if in_stdlib module then add_standard (name_of a) imports
  else add_third_party (name_of a) imports.

Definition import_step (imports : import_lists) (n : node) : import_lists :=
  match cls n with
  | Import => fold_left import_alias (field "names" n) imports
  | ImportFrom module level =>
      if Nat.ltb 0 level then
        add_relative (if truthy module then py "." ++ or_empty module
                      else py ".") imports
      else
        let module' :=
          if truthy module then first_segment (or_empty module) else [] in
        if in_stdlib module' then add_standard (or_empty module) imports
        else add_third_party (or_empty module) imports
  | _ => imports
  end.

Definition _analyze_imports (tree : node) : import_lists :=
  fold_left import_step (walk tree)
    {| standard := []; third_party := []; relative := [] |}.

(** [enumerate(lines, 1)] *)
Definition enumerate1 {A} (l : list A) : list (nat * A) :=
  combine (seq 1 (length l)) l.

Section Scanner.
Context `{Interpreter}.

Definition bugs_of_line (entry : nat * pystr) : list bug :=
  let '(line_num, line) := entry in
  flat_map
    (fun rule : string * (string * regex) =>
       let '(bug_type, (text, pattern)) := rule in
       if re_search line pattern then
         [ {| bug_type := bug_type;
              bug_line := line_num;
              bug_content := strip line;
              bug_severity := _assess_bug_severity bug_type;
              bug_pattern := text |} ]
       else [])
    bug_patterns.

Definition _detect_potential_bugs (content : pystr) : list bug :=
  flat_map bugs_of_line (enumerate1 (splitlines content)).

Definition optimizations_of_line (entry : nat * pystr) : list optimization :=
  let '(line_num, line) := entry in
  flat_map
    (fun rule : string * regex =>
       let '(opt_type, pattern) := rule in
       if re_search line pattern then
         let suggestion := _generate_optimization_suggestion opt_type line in
         [ {| opt_type := opt_type;
              opt_line := line_num;
              opt_original := strip line;
              opt_suggestion := suggestion;
              opt_impact := _assess_optimization_impact opt_type |} ]
       else [])
    optimization_patterns.

Definition _find_optimizations (content : pystr) : list optimization :=
  flat_map optimizations_of_line (enumerate1 (splitlines content)).
End Scanner.

(** [analysis.get(key, default)] for the keys the score reads. *)
Definition get_bugs (analysis : gmap string pyval) : list bug :=
  match analysis !! "potential_bugs" with
  | Some (VBugs l) => l
  | _ => []
  end.
Definition get_complexity (analysis : gmap string pyval) : gmap string nat :=
  match analysis !! "complexity" with
  | Some (VComplexity m) => m
  | _ => ∅
  end.
Definition get_functions (analysis : gmap string pyval) : list func_info :=
  match analysis !! "functions" with
  | Some (VFunctions l) => l
  | _ => []
  end.

(** The body of the loop over [bugs]. *)
Definition penalize (score : Q) (b : bug) : Q :=
  match bug_severity b with
  | Critical => score - 20
  | High => score - 10
  | Medium => score - 5
  | Low => score - 2
  end.

(** [_calculate_quality_score] up to its last line. *)
Definition score_before_clamp (analysis : gmap string pyval) : Q :=
  let score := 100%Q in
  let bugs := get_bugs analysis in
  let score := fold_left penalize bugs score in
  let complexity := get_complexity analysis in
  let max_func_complexity :=
    match complexity !! "max_function_complexity" with
    | Some c => c
    | None => 0
    end in
  let score :=
    if Nat.ltb 10 max_func_complexity
    then (score - float_of ((max_func_complexity - 10) * 3))%Q
    else score in
  let functions := get_functions analysis in
  let score :=
    match functions with
    | [] => score
    | _ :: _ =>
        let docstring_ratio :=
          (float_of (count_if (fun f => truthy (fi_docstring f)) functions)
           / float_of (length functions))%Q in
        (score + docstring_ratio * 10)%Q
    end in
  score.

Definition _calculate_quality_score (analysis : gmap string pyval) : Q :=
  let score := score_before_clamp analysis in
  py_max 0 (py_min 100 score).

Section Assembler.
Context `{Interpreter}.

(** The dictionary of the [except] branch. *)
Definition failure (file_path : pystr) (message : pystr) (t : Q)
  : gmap string pyval :=
  <["analyzed_at" := VFloat t]>
    (<["error" := VStr message]>
       (<["file_path" := VStr file_path]> ∅)).

(** The dictionary of the [try] branch, before its score is set. *)
Definition analysis_of (file_path content : pystr) (tree : node) (t : Q)
  : gmap string pyval :=
  <["analyzed_at" := VFloat t]>
  (<["code_quality_score" := VFloat 0]>
  (<["optimization_opportunities" :=
       VOptimizations (_find_optimizations content)]>
  (<["potential_bugs" := VBugs (_detect_potential_bugs content)]>
  (<["imports" := VImports (_analyze_imports tree)]>
  (<["classes" := VClasses (_analyze_classes tree)]>
  (<["functions" := VFunctions (_analyze_functions tree)]>
  (<["patterns" := VPatterns (_extract_patterns tree content)]>
  (<["complexity" := VComplexity (_calculate_complexity tree)]>
  (<["lines_of_code" := VInt (length (splitlines content))]>
  (<["file_path" := VStr file_path]> ∅)))))))))).

Definition analyze_file (w : World) (file_path : pystr)
  : gmap string pyval :=
  match read_file w file_path with
  | Raises e => failure file_path e (time_time w)
  | Returns content =>
      match ast_parse w content with
      | Raises e => failure file_path e (time_time w)
      | Returns tree =>
          let analysis := analysis_of file_path content tree (time_time w) in
          <["code_quality_score" :=
              VFloat (_calculate_quality_score analysis)]> analysis
      end
  end.
End Assembler.

(** ** The notions the properties are stated with *)

(** Clamping to the interval from 0 to 100. *)
Definition clamp (x : Q) : Q := Qmax 0 (Qmin 100 x).

Definition severity_eqb (a b : severity) : bool :=
  match a, b with
  | Low, Low | Medium, Medium | High, High | Critical, Critical => true
  | _, _ => false
  end.

(** The number of diagnostics of one severity. *)
Definition count_severity (s : severity) (bugs : list bug) : nat :=
  count_if (fun b => severity_eqb (bug_severity b) s) bugs.

(** A listed function passes the truth test of the code on its
    docstring: one is recorded and it is not the empty text. *)
Definition has_docstring (f : func_info) : bool := truthy (fi_docstring f).

(** A listed function has a docstring as the specification has it: its
    first statement is a string literal, which is when a docstring is
    recorded, be it the empty text. *)
Definition docstringed (f : func_info) : bool :=
  match fi_docstring f with
  | Some _ => true
  | None => false
  end.

(** The formula of the score: 100, less the points of every
    diagnostic, less three points per unit of complexity above ten,
    plus ten times the share of the functions that [documented]
    selects, clamped. *)
Definition formula_over (documented : func_info -> bool) (bugs : list bug)
           (max_function_complexity : nat) (functions : list func_info) : Q :=
  let penalties :=
    (20 * float_of (count_severity Critical bugs)
     + 10 * float_of (count_severity High bugs)
     + 5 * float_of (count_severity Medium bugs)
     + 2 * float_of (count_severity Low bugs))%Q in
  let excess :=
    if Nat.ltb 10 max_function_complexity
    then (float_of (max_function_complexity - 10) * 3)%Q else 0%Q in
  let bonus :=
    match functions with
    | [] => 0%Q
    | _ => (10 * (float_of (count_if documented functions)
                  / float_of (length functions)))%Q
    end in
  clamp (100 - penalties - excess + bonus).

(** The score as the specification words it, the bonus counting the
    functions that have a docstring. *)
Definition score_formula (bugs : list bug) (max_function_complexity : nat)
           (functions : list func_info) : Q :=
  formula_over docstringed bugs max_function_complexity functions.

(** The keys of the two variants of the result. *)
Definition failure_keys : gset string :=
  {[ "file_path"; "error"; "analyzed_at" ]}.

Definition success_keys : gset string :=
  {[ "file_path"; "lines_of_code"; "complexity"; "patterns"; "functions";
     "classes"; "imports"; "potential_bugs"; "optimization_opportunities";
     "code_quality_score"; "analyzed_at" ]}.

(** The failure variant: the path, the message and the time, nothing else. *)
Definition is_failure (file_path message : pystr) (t : Q)
           (d : gmap string pyval) : Prop :=
  dom d = failure_keys
  /\ d !! "file_path" = Some (VStr file_path)
  /\ d !! "error" = Some (VStr message)
  /\ d !! "analyzed_at" = Some (VFloat t).

(** All the nodes of a tree, the root first, and of a list of trees. *)
Fixpoint subnodes (n : node) : list node :=
  let 'Node _ _ _ fs := n in
  n :: flat_map (fun f => flat_map subnodes (snd f)) fs.

Definition is_function (n : node) : bool :=
  (is_FunctionDef n || is_AsyncFunctionDef n)%bool.

(** The local complexity of a function: the conditionals and loops
    anywhere below it, nested functions included. *)
Definition local_complexity (f : node) : nat :=
  count_if is_branch (subnodes f).

(** The largest local complexity of the functions of a list of nodes. *)
Definition max_local_complexity (ns : list node) : nat :=
  fold_right Nat.max 0 (map local_complexity (List.filter is_function ns)).

(** [analysis] with the list of diagnostics replaced. *)
Definition with_bugs (analysis : gmap string pyval) (bugs : list bug)
  : gmap string pyval :=
  <["potential_bugs" := VBugs bugs]> analysis.

Definition is_FunctionPattern (p : pattern) : bool :=
  match p with FunctionPattern _ _ _ _ _ _ _ _ => true | _ => false end.

(** What one node contributes to each list of [imports]. *)
Definition relative_of (n : node) : list pystr :=
  match cls n with
  | ImportFrom module (S _) => [py "." ++ or_empty module]
  | _ => []
  end.

Definition is_standard (name : pystr) : bool := in_stdlib (first_segment name).

Definition absolute_names (n : node) : list pystr :=
  match cls n with
  | Import => map name_of (field "names" n)
  | ImportFrom module 0 => [or_empty module]
  | _ => []
  end.

Definition standard_of (n : node) : list pystr :=
  List.filter is_standard (absolute_names n).

Definition third_party_of (n : node) : list pystr :=
  List.filter (fun name => negb (is_standard name)) (absolute_names n).

(** A relative import written with one dot per level, as [from ..pkg
    import x] is for level 2. *)
Definition dotted (module : option pystr) (level : nat) : pystr :=
  repeat 46%N level ++ or_empty module.

(** A pattern that cannot match without consuming the character [c]: a
    literal [c], a sequence with such an item, a group around one, or a
    repetition of one that asks for at least one round. *)
Fixpoint requires (c : N) (r : regex) : bool :=
  match r with
  | Lit d => N.eqb c d
  | Cat r1 r2 => (requires c r1 || requires c r2)%bool
  | Group _ r1 => requires c r1
  | Repeat lo _ _ r1 => (Nat.ltb 0 lo && requires c r1)%bool
  | _ => false
  end.

(** A tree with the identities of its nodes forgotten: what two parses
    of the same text have in common. *)
Fixpoint erase (n : node) : node :=
  let 'Node c l _ fs := n in
  Node c l 0 (map (fun f => (fst f, map erase (snd f))) fs).

Definition is_Name (n : node) : bool :=
  match cls n with Name _ => true | _ => false end.

(** The base classes and decorators of a class and the decorators of a
    sync function are plain names. *)
Definition names_only (n : node) : bool :=
  match cls n with
  | ClassDef _ =>
      (forallb is_Name (field "bases" n)
       && forallb is_Name (field "decorator_list" n))%bool
  | FunctionDef _ => forallb is_Name (field "decorator_list" n)
  | _ => true
  end.

(** The loops of a tree are distinct objects.  (The parser shares one
    object between all [Load] contexts, for instance, but allocates
    every statement.) *)
Definition distinct_loops (tree : node) : Prop :=
  List.NoDup (map addr (List.filter is_loop (subnodes tree))).

(** A function of a node that does not look at identities. *)
Definition blind {A} (f : node -> A) : Prop := forall n, f (erase n) = f n.

(** ** A concrete interpreter and sample files

    Used to run the analysis on explicit inputs. *)

Definition ascii_space (c : N) : bool :=
  ((9 <=? c) && (c <=? 13) || (28 <=? c) && (c <=? 32))%N.
Definition ascii_digit (c : N) : bool := ((48 <=? c) && (c <=? 57))%N.
Definition ascii_word (c : N) : bool :=
  (ascii_digit c || (65 <=? c) && (c <=? 90) || (97 <=? c) && (c <=? 122)
   || (c =? 95))%N.

Definition class_name (c : node_class) : string :=
  match c with
  | Module => "Module"
  | FunctionDef _ => "FunctionDef"
  | AsyncFunctionDef _ => "AsyncFunctionDef"
  | ClassDef _ => "ClassDef"
  | If => "If" | While => "While" | For => "For" | Try => "Try"
  | ExceptHandler => "ExceptHandler"
  | ListComp => "ListComp" | DictComp => "DictComp" | SetComp => "SetComp"
  | Import => "Import"
  | ImportFrom _ _ => "ImportFrom"
  | alias _ => "alias"
  | Return => "Return" | Raise => "Raise" | Break => "Break"
  | Continue => "Continue"
  | Name _ => "Name"
  | arguments => "arguments"
  | arg _ => "arg"
  | Expr => "Expr"
  | Constant _ => "Constant"
  | OtherClass nm => nm
  end.

(** [object.__repr__], which [str] of a node falls back to where the
    classes of [ast] define no [__repr__] of their own (CPython up to
    3.13): the class and the address of the object. *)
Definition object_repr (n : node) : pystr :=
  py "<ast." ++ py (class_name (cls n)) ++ py " object at 0x"
  ++ py (HexadecimalString.NilZero.string_of_uint (N.to_hex_uint (addr n)))
  ++ py ">".

(** The character classes on ASCII text; [cleandoc] as it acts on a
    docstring of one line without tabs. *)
Definition ascii_interpreter : Interpreter :=
  {| is_space := ascii_space;
     is_word := ascii_word;
     is_digit := ascii_digit;
     cleandoc := drop_while ascii_space;
     ast_str := object_repr |}.

(** A run in which every file holds [content], parsed as [tree]. *)
Definition world_of (content : pystr) (tree : node) (t : Q) : World :=
  {| read_file := fun _ => Returns content;
     ast_parse := fun _ => Returns tree;
     time_time := t |}.

(** A run in which no file can be opened. *)
Definition world_without_files (t : Q) : World :=
  {| read_file := fun path =>
       Raises (py "[Errno 2] No such file or directory: '" ++ path ++ py "'");
     ast_parse := fun _ => Raises (py "invalid syntax (<unknown>, line 1)");
     time_time := t |}.

(** A run in which every file holds [content], which does not parse. *)
Definition world_of_invalid (content : pystr) (t : Q) : World :=
  {| read_file := fun _ => Returns content;
     ast_parse := fun _ => Raises (py "'(' was never closed (<unknown>, line 1)");
     time_time := t |}.

Definition module_of (a : N) (body : list node) : node :=
  Node Module None a [("body", body); ("type_ignores", [])].

Definition no_arguments (a : N) : node :=
  Node arguments None a
    [("posonlyargs", []); ("args", []); ("vararg", []); ("kwonlyargs", []);
     ("kw_defaults", []); ("kwarg", []); ("defaults", [])].

(** The empty file. *)
Definition empty_tree : node := module_of 139887445556624 [].

(** A function with a docstring:
<<
def f():
    'doc'
>> *)
Definition documented_content : pystr :=
  py "def f():" ++ [LF] ++ py "    'doc'" ++ [LF].

Definition documented_tree : node :=
  module_of 139887445556624
    [ Node (FunctionDef (py "f")) (Some 1) 139887445557008
        [ ("args", [no_arguments 139887445557200]);
          ("body",
           [ Node Expr (Some 2) 139887445557392
               [("value",
                 [Node (Constant (CStr (py "doc"))) (Some 2) 139887445557584 []])] ]);
          ("decorator_list", []); ("returns", []); ("type_params", []) ] ].

(** The same file with a comment added; comments are not in the tree.
<<
def f():
    'doc'
# except:
>> *)
Definition commented_content : pystr :=
  documented_content ++ py "# except:" ++ [LF].

Definition sample_path : pystr := py "sample.py".
Definition sample_time : Q := 1762214400.

Definition documented_world : World :=
  world_of documented_content documented_tree sample_time.
Definition commented_world : World :=
  world_of commented_content documented_tree sample_time.
Definition empty_world : World := world_of [] empty_tree sample_time.

(** The diagnostic of [# except:], on line 3 of the commented file. *)
Definition bare_except_bug : bug :=
  {| bug_type := "bare_except"; bug_line := 3;
     bug_content := py "# except:"; bug_severity := High;
     bug_pattern := "except\s*:" |}.

(** An import two packages up:
<<
from ..pkg import x
>> *)
Definition relative_content : pystr := py "from ..pkg import x" ++ [LF].

Definition relative_tree : node :=
  module_of 139887445556624
    [ Node (ImportFrom (Some (py "pkg")) 2) (Some 1) 139887445557008
        [("names", [Node (alias (py "x")) (Some 1) 139887445557200 []])] ].

(** The one object that stands for every [Load] context, and a [Store]
    context. *)
Definition load : node := Node (OtherClass "Load") None 9476320 [].
Definition store : node := Node (OtherClass "Store") None 9476384 [].

Definition name_node (a : N) (line : nat) (id : string) (ctx : node) : node :=
  Node (Name (py id)) (Some line) a [("ctx", [ctx])].

Definition pass_node (a : N) (line : nat) : node :=
  Node (OtherClass "Pass") (Some line) a [].

(** A class whose base is an attribute reference, with its nodes
    allocated from [base] on:
<<
class A(m.B):
    pass
>> *)
Definition attribute_base_content : pystr :=
  py "class A(m.B):" ++ [LF] ++ py "    pass" ++ [LF].

Definition attribute_base_tree (base : N) : node :=
  module_of base
    [ Node (ClassDef (py "A")) (Some 1) (base + 384)
        [ ("bases",
           [ Node (OtherClass "Attribute") (Some 1) (base + 576)
               [ ("value", [name_node (base + 768) 1 "m" load]);
                 ("ctx", [load]) ] ]);
          ("keywords", []);
          ("body", [pass_node (base + 960) 2]);
          ("decorator_list", []);
          ("type_params", []) ] ].

(** A class with a plain base and two nested loops:
<<
class A(B):
    pass
for x in xs:
    while x:
        pass
>> *)
Definition plain_content : pystr :=
  py "class A(B):" ++ [LF] ++ py "    pass" ++ [LF]
  ++ py "for x in xs:" ++ [LF] ++ py "    while x:" ++ [LF]
  ++ py "        pass" ++ [LF].

Definition plain_tree (base : N) : node :=
  module_of base
    [ Node (ClassDef (py "A")) (Some 1) (base + 384)
        [ ("bases", [name_node (base + 576) 1 "B" load]);
          ("keywords", []);
          ("body", [pass_node (base + 768) 2]);
          ("decorator_list", []);
          ("type_params", []) ];
      Node For (Some 3) (base + 960)
        [ ("target", [name_node (base + 1152) 3 "x" store]);
          ("iter", [name_node (base + 1344) 3 "xs" load]);
          ("body",
           [ Node While (Some 4) (base + 1536)
               [ ("test", [name_node (base + 1728) 4 "x" load]);
                 ("body", [pass_node (base + 1920) 5]);
                 ("orelse", []) ] ]);
          ("orelse", []) ] ].

(** An async function with one conditional:
<<
async def g():
    if x:
        pass
>> *)
Definition async_function : node :=
  Node (AsyncFunctionDef (py "g")) (Some 1) 139887445557008
    [ ("args", [no_arguments 139887445557200]);
      ("body",
       [ Node If (Some 2) 139887445557392
           [ ("test", [name_node 139887445557584 2 "x" load]);
             ("body", [pass_node 139887445557776 3]);
             ("orelse", []) ] ]);
      ("decorator_list", []); ("returns", []); ("type_params", []) ].

Definition async_tree : node := module_of 139887445556624 [async_function].

(** The function definition of [documented_tree]. *)
Definition documented_function : node :=
  match iter_child_nodes documented_tree with
  | f :: _ => f
  | [] => documented_tree
  end.

(** The import of [relative_tree]. *)
Definition relative_import : node :=
  match iter_child_nodes relative_tree with
  | i :: _ => i
  | [] => relative_tree
  end.

(** Two plain imports:
<<
import os.path, numpy
>> *)
Definition plain_import : node :=
  Node Import (Some 1) 139887445557008
    [("names", [ Node (alias (py "os.path")) (Some 1) 139887445557200 [];
                 Node (alias (py "numpy")) (Some 1) 139887445557392 [] ])].

Definition plain_import_tree : node := module_of 139887445556624 [plain_import].

(** ** Further notions for the properties of the scan *)

Section ScanNotions.
Context `{Interpreter}.

(** The diagnostic of rule [rule], of pattern text [text], on line
    number [line_num] holding [line]. *)
Definition bug_of (rule text : string) (line_num : nat) (line : pystr) : bug :=
  {| bug_type := rule; bug_line := line_num; bug_content := strip line;
     bug_severity := _assess_bug_severity rule; bug_pattern := text |}.

(** The hint of rule [rule] on line number [line_num] holding [line]. *)
Definition hint_of (rule : string) (line_num : nat) (line : pystr)
  : optimization :=
  {| opt_type := rule; opt_line := line_num; opt_original := strip line;
     opt_suggestion := _generate_optimization_suggestion rule line;
     opt_impact := _assess_optimization_impact rule |}.
End ScanNotions.

(** In the text [s], the [n] characters from position [i] on exist and
    satisfy [p]. *)
Definition run_of (s : pystr) (p : N -> bool) (i n : nat) : Prop :=
  forall m, m < n -> exists d, nth_error s (i + m) = Some d /\ p d = true.

(** Every pair of a line number from 1 to [n] and a rule name, by line
    and then in the order of the table. *)
Definition rule_slots (names : list string) (n : nat) : list (nat * string) :=
  flat_map (fun i => map (fun r => (i, r)) names) (seq 1 n).

Definition bug_slot (b : bug) : nat * string := (bug_line b, bug_type b).
Definition hint_slot (o : optimization) : nat * string :=
  (opt_line o, opt_type o).

(** The patterns of the rules [long_line] and [deep_nesting]. *)
Definition long_line_pattern : regex :=
  cats [Bol; Repeat 120 None true Dot; Eol].
Definition deep_nesting_pattern : regex :=
  cats [Bol; Group 1 (Repeat 12 None true space)].

(** ** Further notions for the properties of the tree analysis *)

Definition is_ClassPattern (p : pattern) : bool :=
  match p with ClassPattern _ _ _ _ _ _ => true | _ => false end.
Definition is_LoopPattern (p : pattern) : bool :=
  match p with LoopPattern _ _ _ _ _ => true | _ => false end.

Definition is_some {A} (x : option A) : bool :=
  match x with Some _ => true | None => false end.

(** The class pattern that goes with an entry of the class listing. *)
Definition class_pattern_of (c : class_info) : pattern :=
  ClassPattern (ci_name c) (ci_line_number c) (length (ci_methods c))
    (ci_base_classes c) (is_some (ci_docstring c))
    (existsb (fun m => str_eqb m (py "__init__")) (ci_methods c)).

(** A function pattern and an entry of the function listing describe
    the same function. *)
Definition function_agrees (p : pattern) (f : func_info) : Prop :=
  match p with
  | FunctionPattern name signature line_start length args_count returns
      docstring complexity =>
      name = fi_name f
      /\ signature = fi_name f ++ py "(" ++ join (py ", ") (fi_args f) ++ py ")"
      /\ line_start = fi_line_number f
      /\ args_count = List.length (fi_args f)
      /\ returns = negb (Nat.eqb (fi_returns_count f) 0)
      /\ docstring = is_some (fi_docstring f)
      /\ 1 <= length
  | _ => False
  end.

(** The complexity a function pattern records. *)
Definition pattern_complexity (p : pattern) : nat :=
  match p with
  | FunctionPattern _ _ _ _ _ _ _ complexity => complexity
  | _ => 0
  end.

(** The number of names a node imports. *)
Definition imported_names (n : node) : nat :=
  match cls n with
  | Import => length (field "names" n)
  | ImportFrom _ _ => 1
  | _ => 0
  end.

(** [analysis.get(key, default)] for further keys. *)
Definition get_patterns (analysis : gmap string pyval) : list pattern :=
  match analysis !! "patterns" with
  | Some (VPatterns l) => l
  | _ => []
  end.
Definition get_classes (analysis : gmap string pyval) : list class_info :=
  match analysis !! "classes" with
  | Some (VClasses l) => l
  | _ => []
  end.
Definition get_optimizations (analysis : gmap string pyval)
  : list optimization :=
  match analysis !! "optimization_opportunities" with
  | Some (VOptimizations l) => l
  | _ => []
  end.
Definition get_lines_of_code (analysis : gmap string pyval) : nat :=
  match analysis !! "lines_of_code" with
  | Some (VInt n) => n
  | _ => 0
  end.

(** ** Further notions for the properties of the score *)

(** The points the diagnostics and the excess complexity cost. *)
Definition penalty_points (bugs : list bug) (max_function_complexity : nat)
  : Q :=
  (20 * float_of (count_severity Critical bugs)
   + 10 * float_of (count_severity High bugs)
   + 5 * float_of (count_severity Medium bugs)
   + 2 * float_of (count_severity Low bugs)
   + (if Nat.ltb 10 max_function_complexity
      then float_of (max_function_complexity - 10) * 3 else 0))%Q.

(** ** [AdaptiveCodeIntelligence]

    The object keeps a storage path, a developer id and the history of
    the successful analyses; its analyzer has no state of its own.  A
    method is a function of the state that returns its result, the new
    state and the texts it printed, one per call of [print]. *)

Record aci : Type := {
  storage_path : pystr;
  developer_id : pystr;
  analysis_history : list (gmap string pyval)
}.

(** [AdaptiveCodeIntelligence(storage_path)] *)
Definition aci_init (storage_path : pystr) : aci :=
  {| storage_path := storage_path;
     developer_id := py "default";
     analysis_history := [] |}.

Definition method (A : Type) : Type := aci -> A * aci * list pystr.

Definition ret {A} (a : A) : method A := fun s => (a, s, []).

Definition bind {A B} (m : method A) (k : A -> method B) : method B :=
  fun s =>
    let '(a, s1, out1) := m s in
    let '(b, s2, out2) := k a s1 in
    (b, s2, out1 ++ out2).

Notation "x <- m ;; k" := (bind m (fun x => k))
  (at level 100, m at next level, right associativity).
Notation "m ;;; k" := (bind m (fun _ => k))
  (at level 100, right associativity).

Definition print (text : pystr) : method unit := fun s => (tt, s, [text]).

Definition set_developer_id (id : pystr) : method unit :=
  fun s => (tt, {| storage_path := storage_path s; developer_id := id;
                   analysis_history := analysis_history s |}, []).

Definition append_history (analysis : gmap string pyval) : method unit :=
  fun s => (tt, {| storage_path := storage_path s;
                   developer_id := developer_id s;
                   analysis_history := analysis_history s ++ [analysis] |},
            []).

(** The formatting the printed texts rely on and this repository does
    not define: a float with one decimal ([{x:.1f}]) and the last
    component of a path ([Path(p).name]). *)
Class Formatting : Type := {
  format_1f : Q -> pystr;
  path_name : pystr -> pystr
}.

(** [str(n)] of a count. *)
Definition str_of_nat (n : nat) : pystr :=
  py (DecimalString.NilZero.string_of_uint (Nat.to_uint n)).

(** The text of a severity. *)
Definition severity_name (s : severity) : string :=
  match s with
  | Low => "low"
  | Medium => "medium"
  | High => "high"
  | Critical => "critical"
  end.

(** [analysis[key]] for the keys the reports read; the key is there
    whenever the code reads it. *)
Definition get_file_path (analysis : gmap string pyval) : pystr :=
  match analysis !! "file_path" with
  | Some (VStr s) => s
  | _ => []
  end.
Definition get_score (analysis : gmap string pyval) : Q :=
  match analysis !! "code_quality_score" with
  | Some (VFloat q) => q
  | _ => 0%Q
  end.
Definition get_error (analysis : gmap string pyval) : pystr :=
  match analysis !! "error" with
  | Some (VStr s) => s
  | _ => []
  end.

(** ['error' in analysis] *)
Definition has_error (analysis : gmap string pyval) : bool :=
  is_some (analysis !! "error").

(** [complexity.get(key, 0)] *)
Definition metric (complexity : gmap string nat) (key : string) : nat :=
  match complexity !! key with
  | Some n => n
  | None => 0
  end.

(** [for x in items: print(text(x))] *)
Fixpoint print_each {A} (text : A -> pystr) (items : list A) : method unit :=
  match items with
  | [] => ret tt
  | x :: rest => print (text x) ;;; print_each text rest
  end.

Section Reports.
Context `{Interpreter} `{Formatting}.

Definition _generate_analysis_report (analysis : gmap string pyval)
  : method unit :=
  print ([LF] ++ py "=== Code Analysis Report ===") ;;;
  print (py "File: " ++ get_file_path analysis) ;;;
  print (py "Lines of Code: " ++ str_of_nat (get_lines_of_code analysis)) ;;;
  print (py "Quality Score: " ++ format_1f (get_score analysis) ++ py "/100") ;;;
  let complexity := get_complexity analysis in
  print ([LF] ++ py "Complexity Metrics:") ;;;
  print (py "  Functions: " ++ str_of_nat (metric complexity "functions")) ;;;
  print (py "  Classes: " ++ str_of_nat (metric complexity "classes")) ;;;
  print (py "  Max Function Complexity: "
         ++ str_of_nat (metric complexity "max_function_complexity")) ;;;
  let bugs := get_bugs analysis in
  (match bugs with
   | [] => ret tt
   | _ :: _ =>
       print ([LF] ++ py "Potential Issues Found: "
              ++ str_of_nat (length bugs)) ;;;
       print_each
         (fun b => py "  " ++ [8226%N] ++ py " Line "
                   ++ str_of_nat (bug_line b) ++ py ": " ++ py (bug_type b)
                   ++ py " (" ++ py (severity_name (bug_severity b)) ++ py ")")
         (firstn 3 bugs)
   end) ;;;
  let optimizations := get_optimizations analysis in
  (match optimizations with
   | [] => ret tt
   | _ :: _ =>
       print ([LF] ++ py "Optimization Opportunities: "
              ++ str_of_nat (length optimizations)) ;;;
       print_each
         (fun o => py "  " ++ [8226%N] ++ py " Line "
                   ++ str_of_nat (opt_line o) ++ py ": " ++ py (opt_type o))
         (firstn 3 optimizations)
   end) ;;;
  print [].

(** [AdaptiveCodeIntelligence.analyze_file], run in the world [w]. *)
Definition aci_analyze_file (w : World) (file_path : pystr)
           (developer : option pystr) : method (gmap string pyval) :=
  (if truthy developer then set_developer_id (or_empty developer)
   else ret tt) ;;;
  print (py "Analyzing file: " ++ file_path) ;;;
  let analysis := analyze_file w file_path in
  (if negb (has_error analysis) then
     append_history analysis ;;;
     print ([10003%N] ++ py " Analysis complete. Quality score: "
            ++ format_1f (get_score analysis) ++ py "/100") ;;;
     _generate_analysis_report analysis
   else
     print ([10007%N] ++ py " Analysis failed: " ++ get_error analysis)) ;;;
  ret analysis.

(** [sum(f(r) for r in results)] over counts and over floats. *)
Definition sum_nat {A} (f : A -> nat) (l : list A) : nat :=
  fold_left (fun acc r => acc + f r) l 0.
Definition sum_float {A} (f : A -> Q) (l : list A) : Q :=
  fold_left (fun acc r => (acc + f r)%Q) l 0%Q.

(** [max(items, key=key)] of a list that starts with [first]: an item
    replaces the best so far only when its key is strictly greater. *)
Definition max_by {A} (key : A -> Q) (first : A) (rest : list A) : A :=
  fold_left (fun best r => if qltb (key best) (key r) then r else best)
            rest first.

Definition _generate_directory_summary (results : list (gmap string pyval))
  : method unit :=
  match results with
  | [] => ret tt
  | _ :: _ =>
      let valid_results := List.filter (fun r => negb (has_error r)) results in
      match valid_results with
      | [] => print (py "No valid analyses to summarize")
      | first :: rest =>
          print ([LF] ++ py "=== Directory Analysis Summary ===") ;;;
          print (py "Files Analyzed: " ++ str_of_nat (length valid_results)) ;;;
          print (py "Total Lines of Code: "
                 ++ str_of_nat (sum_nat get_lines_of_code valid_results)) ;;;
          let avg_quality :=
            (sum_float get_score valid_results
             / float_of (length valid_results))%Q in
          print (py "Average Quality Score: " ++ format_1f avg_quality
                 ++ py "/100") ;;;
          let total_bugs :=
            sum_nat (fun r => length (get_bugs r)) valid_results in
          let total_optimizations :=
            sum_nat (fun r => length (get_optimizations r)) valid_results in
          print (py "Total Potential Issues: " ++ str_of_nat total_bugs) ;;;
          print (py "Total Optimization Opportunities: "
                 ++ str_of_nat total_optimizations) ;;;
          let best_file := max_by get_score first rest in
          print (py "Highest Quality File: "
                 ++ path_name (get_file_path best_file) ++ py " ("
                 ++ format_1f (get_score best_file) ++ py "/100)") ;;;
          print []
      end
  end.

(** [name.startswith('.')] *)
Definition starts_with_dot (name : pystr) : bool :=
  match name with
  | c :: _ => N.eqb c 46
  | [] => false
  end.

(** The loop of [analyze_directory] over the files found, the file at
    position [i] of the listing being analyzed in the world
    [world_at i]. *)
Fixpoint analyze_each (world_at : nat -> World) (developer : option pystr)
         (i : nat) (python_files : list pystr)
  : method (list (gmap string pyval)) :=
  match python_files with
  | [] => ret []
  | file_path :: rest =>
      if starts_with_dot (path_name file_path) then
        analyze_each world_at developer (S i) rest
      else
        analysis <- aci_analyze_file (world_at i) file_path developer ;;
        results <- analyze_each world_at developer (S i) rest ;;
        ret (analysis :: results)
  end.

(** [AdaptiveCodeIntelligence.analyze_directory]; [rglob_py] is what
    [Path(directory_path).rglob("*.py")] lists, as path strings. *)
Definition analyze_directory (rglob_py : pystr -> list pystr)
           (world_at : nat -> World) (directory_path : pystr)
           (developer : option pystr) : method (list (gmap string pyval)) :=
  (if truthy developer then set_developer_id (or_empty developer)
   else ret tt) ;;;
  let python_files := rglob_py directory_path in
  print (py "Found " ++ str_of_nat (length python_files)
         ++ py " Python files to analyze") ;;;
  results <- analyze_each world_at developer 0 python_files ;;
  _generate_directory_summary results ;;;
  ret results.
End Reports.

(** [get_system_stats]: the values under [files_analyzed] and
    [storage_path]. *)
Definition get_system_stats (s : aci) : nat * pystr :=
  (length (analysis_history s), storage_path s).

(** The result of a method run from a state, the state it leaves and
    the texts it printed. *)
Definition result_of {A} (m : method A) (s : aci) : A := fst (fst (m s)).
Definition state_after {A} (m : method A) (s : aci) : aci := snd (fst (m s)).
Definition printed_by {A} (m : method A) (s : aci) : list pystr := snd (m s).

(** A result of the success variant: its keys, no error, a score in
    range. *)
Definition is_success (d : gmap string pyval) : Prop :=
  dom d = success_keys /\ has_error d = false
  /\ (0 <= get_score d <= 100)%Q.

(** A result the analyzer returned in some run. *)
Definition analyzed `{Interpreter} (d : gmap string pyval) : Prop :=
  exists w file_path, d = analyze_file w file_path.

Section Reachable.
Context `{Interpreter} `{Formatting}.

(** The states an object can be in: as constructed, or after a call of
    [analyze_file] or [analyze_directory] from such a state. *)
Inductive reachable : aci -> Prop :=
| reachable_init storage : reachable (aci_init storage)
| reachable_file s w file_path developer :
    reachable s ->
    reachable (state_after (aci_analyze_file w file_path developer) s)
| reachable_directory s rglob_py world_at directory_path developer :
    reachable s ->
    reachable (state_after
                 (analyze_directory rglob_py world_at directory_path developer)
                 s).
End Reachable.

(** The files of a listing that are analyzed, with their positions. *)
Definition visible_files `{Formatting} (python_files : list pystr)
  : list (nat * pystr) :=
  List.filter (fun e => negb (starts_with_dot (path_name (snd e))))
              (combine (seq 0 (length python_files)) python_files).

(** The number of texts a report spends on [n] diagnostics or hints:
    none for none, else a heading and at most three entries. *)
Definition shown (n : nat) : nat :=
  match n with
  | 0 => 0
  | S _ => 1 + Nat.min n 3
  end.

(** ** A concrete formatting and a sample directory *)

(** The tenths of a rational, rounded half to even. *)
Definition tenths (q : Q) : Z :=
  let n := (Qnum q * 10)%Z in
  let d := Zpos (Qden q) in
  let low := (n / d)%Z in
  let r := (n mod d)%Z in
  if (2 * r <? d)%Z then low
  else if (d <? 2 * r)%Z then (low + 1)%Z
  else if Z.even low then low else (low + 1)%Z.

Definition decimal_1f (q : Q) : pystr :=
  let t := Z.abs (tenths q) in
  (if (Qnum q <? 0)%Z then py "-" else [])
  ++ str_of_nat (Z.to_nat (t / 10)) ++ py "."
  ++ str_of_nat (Z.to_nat (t mod 10)).

(** The text after the last [/] of a path that does not end in one. *)
Definition posix_name (path : pystr) : pystr :=
  fold_left (fun name c => if N.eqb c 47 then [] else name ++ [c]) path [].

Definition posix_formatting : Formatting :=
  {| format_1f := decimal_1f; path_name := posix_name |}.

(** A directory of three files, the second one hidden; the first holds
    the documented function and the others cannot be opened. *)
Definition sample_listing : list pystr :=
  [py "pkg/a.py"; py "pkg/.hidden.py"; py "pkg/b.py"].

Definition sample_rglob (directory_path : pystr) : list pystr :=
  sample_listing.

Definition sample_world_at (i : nat) : World :=
  match i with
  | 0 => documented_world
  | _ => world_without_files sample_time
  end.

(** A line of 120 letters and a line indented by twelve blanks. *)
Definition long_content : pystr := repeat 120%N 120.
Definition nested_content : pystr := repeat 32%N 12 ++ py "pass".

(** A line that tests membership in a list display. *)
Definition membership_content : pystr := py "if x in [1, 2]:" ++ [LF].

(** The [for] loop of [plain_tree]. *)
Definition plain_loop : node :=
  match iter_child_nodes (plain_tree 139887445556624) with
  | _ :: l :: _ => l
  | _ => empty_tree
  end.

(** ** The score in binary64

    A Python [float] is a binary64 number of IEEE 754.  The score is
    computed here a second time, operation by operation as
    [_calculate_quality_score] does, each result rounded to the nearest
    binary64 number, ties to even.  An [int] operand is converted
    first, without rounding as long as it is below 2^53. *)

Definition b64_of_Z (z : Z) : spec_float := binary_normalize 53 1024 z 0 false.
Definition b64_add : spec_float -> spec_float -> spec_float := SFadd 53 1024.
Definition b64_sub : spec_float -> spec_float -> spec_float := SFsub 53 1024.
Definition b64_mul : spec_float -> spec_float -> spec_float := SFmul 53 1024.
Definition b64_div : spec_float -> spec_float -> spec_float := SFdiv 53 1024.

(** [min(a, b)] and [max(a, b)] on floats. *)
Definition b64_min (a b : spec_float) : spec_float :=
  if SFltb b a then b else a.
Definition b64_max (a b : spec_float) : spec_float :=
  if SFltb a b then b else a.

(** The rational a finite binary64 number stands for. *)
Definition b64_to_Q (x : spec_float) : Q :=
  match x with
  | S754_finite s m e =>
      let v := (inject_Z (Zpos m) * Qpower 2 e)%Q in
      if s then (- v)%Q else v
  | _ => 0%Q
  end.

(** The body of the loop over [bugs]. *)
Definition penalize_binary64 (score : spec_float) (b : bug) : spec_float :=
  match bug_severity b with
  | Critical => b64_sub score (b64_of_Z 20)
  | High => b64_sub score (b64_of_Z 10)
  | Medium => b64_sub score (b64_of_Z 5)
  | Low => b64_sub score (b64_of_Z 2)
  end.

(** [_calculate_quality_score] in binary64. *)
Definition quality_score_binary64 (analysis : gmap string pyval) : spec_float :=
  let score := b64_of_Z 100 in
  let bugs := get_bugs analysis in
  let score := fold_left penalize_binary64 bugs score in
  let complexity := get_complexity analysis in
  let max_func_complexity :=
    match complexity !! "max_function_complexity" with
    | Some c => c
    | None => 0
    end in
  let score :=
    if Nat.ltb 10 max_func_complexity
    then b64_sub score (b64_of_Z (Z.of_nat ((max_func_complexity - 10) * 3)))
    else score in
  let functions := get_functions analysis in
  let score :=
    match functions with
    | [] => score
    | _ :: _ =>
        let docstring_ratio :=
          b64_div
            (b64_of_Z
               (Z.of_nat (count_if (fun f => truthy (fi_docstring f))
                            functions)))
            (b64_of_Z (Z.of_nat (length functions))) in
        b64_add score (b64_mul docstring_ratio (b64_of_Z 10))
    end in
  b64_max (b64_of_Z 0) (b64_min (b64_of_Z 100) score).

(** ** Sample files for the score *)

Definition function_def (a : N) (line : nat) (name : string)
           (body : list node) : node :=
  Node (FunctionDef (py name)) (Some line) a
    [ ("args", [no_arguments (a + 192)]);
      ("body", body);
      ("decorator_list", []); ("returns", []); ("type_params", []) ].

Definition string_statement (a : N) (line : nat) (text : string) : node :=
  Node Expr (Some line) a
    [("value", [Node (Constant (CStr (py text))) (Some line) (a + 192) []])].

(** A function whose docstring is the empty text, and a comment:
<<
def f():
    ''
# except:
>> *)
Definition empty_docstring_content : pystr :=
  py "def f():" ++ [LF] ++ py "    ''" ++ [LF] ++ py "# except:" ++ [LF].

Definition empty_docstring_tree : node :=
  module_of 139887445556624
    [ function_def 139887445557008 1 "f"
        [string_statement 139887445557392 2 EmptyString] ].

Definition empty_docstring_world : World :=
  world_of empty_docstring_content empty_docstring_tree sample_time.

(** Three functions, one of them with a docstring, and [comments]
    comment lines:
<<
def f():
    'doc'
def g():
    pass
def h():
    pass
# except:
# except:
...
>> *)
Definition three_functions_content (comments : nat) : pystr :=
  py "def f():" ++ [LF] ++ py "    'doc'" ++ [LF]
  ++ py "def g():" ++ [LF] ++ py "    pass" ++ [LF]
  ++ py "def h():" ++ [LF] ++ py "    pass" ++ [LF]
  ++ concat (repeat (py "# except:" ++ [LF]) comments).

Definition three_functions_tree : node :=
  module_of 139887445556624
    [ function_def 139887445557008 1 "f"
        [string_statement 139887445557392 2 "doc"];
      function_def 139887445557776 3 "g" [pass_node 139887445558160 4];
      function_def 139887445558352 5 "h" [pass_node 139887445558736 6] ].

Definition three_functions_world (comments : nat) : World :=
  world_of (three_functions_content comments) three_functions_tree sample_time.

(** * Properties *)

(** ** Arithmetic of the score *)

Lemma qltb_true x y : qltb x y = true <-> (x < y)%Q.
Proof.
  unfold qltb. rewrite negb_true_iff. split.
  - intros Hb. apply Qnot_le_lt. intros Hle.
    apply Qle_bool_iff in Hle. congruence.
  - intros Hlt. destruct (Qle_bool y x) eqn:E; [|reflexivity].
    apply Qle_bool_iff in E. lra.
Qed.

Lemma qltb_false x y : qltb x y = false <-> (y <= x)%Q.
Proof. unfold qltb. rewrite negb_false_iff. apply Qle_bool_iff. Qed.

Lemma py_min_spec a b : (py_min a b == Qmin a b)%Q.
Proof.
  unfold py_min. destruct (qltb b a) eqn:E.
  - apply qltb_true in E. rewrite Q.min_r; lra.
  - apply qltb_false in E. rewrite Q.min_l; lra.
Qed.

Lemma py_max_spec a b : (py_max a b == Qmax a b)%Q.
Proof.
  unfold py_max. destruct (qltb a b) eqn:E.
  - apply qltb_true in E. rewrite Q.max_r; lra.
  - apply qltb_false in E. rewrite Q.max_l; lra.
Qed.

Lemma calculate_quality_score_clamp analysis :
  (_calculate_quality_score analysis == clamp (score_before_clamp analysis))%Q.
Proof.
  unfold _calculate_quality_score, clamp.
  rewrite py_max_spec, py_min_spec. reflexivity.
Qed.

Lemma clamp_bounds x : (0 <= clamp x <= 100)%Q.
Proof.
  unfold clamp. split.
  - apply Q.le_max_l.
  - apply Q.max_lub; [lra | apply Q.le_min_l].
Qed.

Lemma clamp_cases x :
  (x <= 0 /\ clamp x == 0 \/ 0 <= x <= 100 /\ clamp x == x
   \/ 100 <= x /\ clamp x == 100)%Q.
Proof.
  unfold clamp.
  destruct (Q.min_spec 100 x) as [[H1 E1]|[H1 E1]];
    destruct (Q.max_spec 0 (Qmin 100 x)) as [[H2 E2]|[H2 E2]];
    rewrite E2; rewrite E1 in *; lra.
Qed.

Lemma float_of_S n : (float_of (S n) == float_of n + 1)%Q.
Proof.
  unfold float_of. rewrite Nat2Z.inj_succ. unfold Z.succ.
  rewrite inject_Z_plus. reflexivity.
Qed.

Lemma float_of_nonneg n : (0 <= float_of n)%Q.
Proof.
  unfold float_of. change 0%Q with (inject_Z 0). rewrite <- Zle_Qle. lia.
Qed.

Lemma float_of_mul a b : (float_of (a * b) == float_of a * float_of b)%Q.
Proof.
  unfold float_of. rewrite Nat2Z.inj_mul, inject_Z_mult. reflexivity.
Qed.

Lemma count_severity_cons s b bugs :
  count_severity s (b :: bugs) =
  (if severity_eqb (bug_severity b) s then 1 else 0) + count_severity s bugs.
Proof.
  unfold count_severity, count_if. simpl.
  destruct (severity_eqb (bug_severity b) s); reflexivity.
Qed.


(** The loop over the diagnostics subtracts, whatever their order, the
    points of each severity times the number of diagnostics that have it. *)
Lemma fold_penalize bugs : forall score,
  (fold_left penalize bugs score ==
   score - (20 * float_of (count_severity Critical bugs)
            + 10 * float_of (count_severity High bugs)
            + 5 * float_of (count_severity Medium bugs)
            + 2 * float_of (count_severity Low bugs)))%Q.
Proof.
  induction bugs as [|b bugs IH]; intros score.
  - simpl. unfold count_severity, count_if. simpl length.
    change (float_of 0) with 0%Q. lra.
  - simpl fold_left. rewrite IH. rewrite !count_severity_cons.
    unfold penalize. destruct (bug_severity b); simpl severity_eqb;
      cbn [Nat.add]; rewrite ?float_of_S; lra.
Qed.

Lemma score_before_clamp_eq analysis :
  (score_before_clamp analysis ==
   100 - (20 * float_of (count_severity Critical (get_bugs analysis))
          + 10 * float_of (count_severity High (get_bugs analysis))
          + 5 * float_of (count_severity Medium (get_bugs analysis))
          + 2 * float_of (count_severity Low (get_bugs analysis)))
   - (if Nat.ltb 10 (get_complexity analysis !!! "max_function_complexity")
      then float_of (get_complexity analysis !!! "max_function_complexity" - 10) * 3
      else 0)
   + match get_functions analysis with
     | [] => 0
     | _ => 10 * (float_of (count_if has_docstring (get_functions analysis))
                  / float_of (length (get_functions analysis)))
     end)%Q.
Proof.
  unfold score_before_clamp.
  rewrite lookup_total_alt.
  destruct (get_complexity analysis !! "max_function_complexity") as [c|] eqn:Ec;
    simpl default.
  - destruct (Nat.ltb 10 c); destruct (get_functions analysis) as [|f fs];
      rewrite ?fold_penalize, ?float_of_mul; unfold has_docstring;
      change (float_of 3) with 3%Q; lra.
  - change (10 <? 0) with false. cbv iota.
    destruct (get_functions analysis) as [|f fs];
      rewrite ?fold_penalize; unfold has_docstring; lra.
Qed.

(** [_calculate_quality_score] computes the formula, for any
    dictionary, the bonus counting the functions whose docstring passes
    the truth test. *)
Lemma calculate_quality_score_formula analysis :
  (_calculate_quality_score analysis ==
   formula_over has_docstring (get_bugs analysis)
     (get_complexity analysis !!! "max_function_complexity")
     (get_functions analysis))%Q.
Proof.
  rewrite calculate_quality_score_clamp. unfold formula_over, clamp.
  assert (E := score_before_clamp_eq analysis).
  apply Q.max_compat; [reflexivity|]. apply Q.min_compat; [reflexivity|].
  rewrite E. destruct (get_functions analysis); lra.
Qed.

(** ** The assembled dictionary *)

Lemma get_bugs_set_score v analysis :
  get_bugs (<["code_quality_score" := v]> analysis) = get_bugs analysis.
Proof. unfold get_bugs. rewrite lookup_insert_ne by done. reflexivity. Qed.

Lemma get_complexity_set_score v analysis :
  get_complexity (<["code_quality_score" := v]> analysis)
  = get_complexity analysis.
Proof. unfold get_complexity. rewrite lookup_insert_ne by done. reflexivity. Qed.

Lemma get_functions_set_score v analysis :
  get_functions (<["code_quality_score" := v]> analysis)
  = get_functions analysis.
Proof. unfold get_functions. rewrite lookup_insert_ne by done. reflexivity. Qed.

Section AssemblerFacts.
Context `{Interpreter}.

Lemma failure_is_failure file_path message t :
  is_failure file_path message t (failure file_path message t).
Proof.
  unfold is_failure, failure, failure_keys. split; [|repeat split].
  rewrite !dom_insert_L, dom_empty_L. set_solver.
Qed.

Lemma dom_analysis_of file_path content tree t :
  dom (analysis_of file_path content tree t) = success_keys.
Proof.
  unfold analysis_of, success_keys.
  rewrite !dom_insert_L, dom_empty_L. set_solver.
Qed.

Lemma analyze_file_success w file_path content tree :
  read_file w file_path = Returns content ->
  ast_parse w content = Returns tree ->
  analyze_file w file_path =
  <["code_quality_score" :=
      VFloat (_calculate_quality_score
                (analysis_of file_path content tree (time_time w)))]>
    (analysis_of file_path content tree (time_time w)).
Proof. intros Hr Hp. unfold analyze_file. rewrite Hr, Hp. reflexivity. Qed.

Lemma dom_analyze_file_success w file_path content tree :
  read_file w file_path = Returns content ->
  ast_parse w content = Returns tree ->
  dom (analyze_file w file_path) = success_keys.
Proof.
  intros Hr Hp. rewrite (analyze_file_success _ _ _ _ Hr Hp).
  rewrite dom_insert_L, dom_analysis_of. unfold success_keys. set_solver.
Qed.
End AssemblerFacts.

Lemma keys_differ : failure_keys <> success_keys.
Proof.
  intros E.
  assert (Hin : "error" ∈ failure_keys) by (unfold failure_keys; set_solver).
  rewrite E in Hin. unfold success_keys in Hin. set_solver.
Qed.

(** ** The quality score *)

Section ScoreClaims.
Context `{Interpreter}.

(** The two notions of a documented function differ on the empty
    docstring only. *)
Lemma count_docstringed functions :
  Forall (fun f => fi_docstring f <> Some []) functions ->
  count_if has_docstring functions = count_if docstringed functions.
Proof.
  unfold count_if. induction 1 as [|f fs Hf _ IH]; [reflexivity|].
  cbn [List.filter].
  replace (docstringed f) with (has_docstring f).
  - destruct (has_docstring f); cbn [length]; rewrite IH; reflexivity.
  - unfold has_docstring, docstringed, truthy.
    destruct (fi_docstring f) as [[|c text]|]; congruence.
Qed.

(** For every input that is read and parsed and in which no function
    has the empty text as its docstring, the score stored in the result
    is the formula of the specification applied to the diagnostics, the
    complexity metrics and the function list of that same result. *)
Lemma quality_score_formula_unless_empty w file_path content tree :
  read_file w file_path = Returns content ->
  ast_parse w content = Returns tree ->
  Forall (fun f => fi_docstring f <> Some []) (_analyze_functions tree) ->
  let d := analyze_file w file_path in
  exists q,
    d !! "code_quality_score" = Some (VFloat q)
    /\ (q == score_formula (get_bugs d)
              (get_complexity d !!! "max_function_complexity")
              (get_functions d))%Q
    /\ get_bugs d = _detect_potential_bugs content
    /\ get_complexity d = _calculate_complexity tree
    /\ get_functions d = _analyze_functions tree.
Proof.
  intros Hr Hp Hall d. subst d. rewrite (analyze_file_success _ _ _ _ Hr Hp).
  rewrite get_bugs_set_score, get_complexity_set_score,
    get_functions_set_score.
  eexists. split; [apply lookup_insert_eq|].
  split; [|repeat split].
  rewrite calculate_quality_score_formula.
  unfold score_formula, formula_over.
  change (get_functions (analysis_of file_path content tree (time_time w)))
    with (_analyze_functions tree).
  rewrite (count_docstringed _ Hall). reflexivity.
Qed.

(** C2. For every input that is read and parsed, the result is the
    success variant and its score lies between 0 and 100. *)
Theorem quality_score_in_range w file_path content tree :
  read_file w file_path = Returns content ->
  ast_parse w content = Returns tree ->
  let d := analyze_file w file_path in
  dom d = success_keys
  /\ d !! "error" = None
  /\ exists q, d !! "code_quality_score" = Some (VFloat q)
               /\ (0 <= q <= 100)%Q.
Proof.
  intros Hr Hp d. subst d. split; [|split].
  - eapply dom_analyze_file_success; eassumption.
  - rewrite (analyze_file_success _ _ _ _ Hr Hp). reflexivity.
  - rewrite (analyze_file_success _ _ _ _ Hr Hp).
    eexists. split; [apply lookup_insert_eq|].
    rewrite calculate_quality_score_clamp. apply clamp_bounds.
Qed.
End ScoreClaims.

Lemma get_bugs_with_bugs analysis bugs :
  get_bugs (with_bugs analysis bugs) = bugs.
Proof. unfold get_bugs, with_bugs. rewrite lookup_insert_eq. reflexivity. Qed.

Lemma get_complexity_with_bugs analysis bugs :
  get_complexity (with_bugs analysis bugs) = get_complexity analysis.
Proof.
  unfold get_complexity, with_bugs. rewrite lookup_insert_ne by done.
  reflexivity.
Qed.

Lemma get_functions_with_bugs analysis bugs :
  get_functions (with_bugs analysis bugs) = get_functions analysis.
Proof.
  unfold get_functions, with_bugs. rewrite lookup_insert_ne by done.
  reflexivity.
Qed.



(** C1. The claim fails on a function whose docstring is the empty
    text.  The one function of the sample file begins with a string
    literal, so it has a docstring, and its function pattern says so;
    the comment line gives one high-severity diagnostic.  The formula
    of the specification gives 100 - 10 + 10 * (1/1) = 100.  The code
    gives 90, in exact arithmetic and in binary64: its bonus counts a
    function only when the docstring passes the truth test, which the
    empty text does not. *)
Theorem empty_docstring_not_counted :
  let d := @analyze_file ascii_interpreter empty_docstring_world
             sample_path in
  (exists f, get_functions d = [f]
             /\ fi_docstring f = Some []
             /\ docstringed f = true /\ has_docstring f = false)
  /\ d !! "patterns"
     = Some (VPatterns [FunctionPattern (py "f") (py "f()") 1 2 0 false true 0])
  /\ (exists b, get_bugs d = [b] /\ bug_severity b = High)
  /\ (score_formula (get_bugs d)
        (get_complexity d !!! "max_function_complexity")
        (get_functions d) == 100)%Q
  /\ (exists q, d !! "code_quality_score" = Some (VFloat q) /\ (q == 90)%Q)
  /\ quality_score_binary64 d = b64_of_Z 90.
Proof.
  cbv zeta. split; [|split; [|split; [|split; [|split]]]].
  - eexists. split; [vm_compute; reflexivity|].
    repeat split.
  - vm_compute. reflexivity.
  - eexists. split; [vm_compute; reflexivity|reflexivity].
  - vm_compute. reflexivity.
  - eexists. split; [reflexivity|]. vm_compute. reflexivity.
  - vm_compute. reflexivity.
Qed.

(** ** The two variants of the result *)

Section AssemblerClaims.
Context `{Interpreter}.

(** C3. When the file cannot be read, or is read and does not parse,
    the result holds the file path, the message of the error and the
    time and no other key; and every call returns either these three
    keys or the eleven keys of the success variant, never a mix. *)
Theorem failure_variant_only w file_path :
  let d := analyze_file w file_path in
  (forall e, read_file w file_path = Raises e ->
             is_failure file_path e (time_time w) d)
  /\ (forall content e,
        read_file w file_path = Returns content ->
        ast_parse w content = Raises e ->
        is_failure file_path e (time_time w) d)
  /\ (dom d = failure_keys /\ dom d <> success_keys
      \/ dom d = success_keys /\ dom d <> failure_keys).
Proof.
  intros d. subst d. unfold analyze_file. split; [|split].
  - intros e Hr. rewrite Hr. apply failure_is_failure.
  - intros content e Hr Hp. rewrite Hr, Hp. apply failure_is_failure.
  - destruct (read_file w file_path) as [content|e] eqn:Hr.
    + destruct (ast_parse w content) as [tree|e'] eqn:Hp.
      * right.
        assert (D := dom_analyze_file_success w file_path content tree Hr Hp).
        unfold analyze_file in D. rewrite Hr, Hp in D.
        split; [exact D|]. rewrite D. intros E. apply keys_differ. congruence.
      * left. destruct (failure_is_failure file_path e' (time_time w)) as [D _].
        split; [exact D|]. rewrite D. apply keys_differ.
    + left. destruct (failure_is_failure file_path e (time_time w)) as [D _].
      split; [exact D|]. rewrite D. apply keys_differ.
Qed.

Lemma walk_queue_nil fuel : walk_queue fuel [] = [].
Proof. destruct fuel; reflexivity. Qed.

Lemma walk_childless n : iter_child_nodes n = [] -> walk n = [n].
Proof.
  intros Hc. unfold walk. destruct n as [c l a fs]. simpl tree_size.
  simpl walk_queue. rewrite Hc. simpl. rewrite walk_queue_nil. reflexivity.
Qed.

(** C6. The empty file, parsed as a module without statements, gives
    the success variant with no diagnostic, no optimization hint, no
    function, a [max_function_complexity] that reads 0 and the score
    100. *)
Theorem empty_file_analysis w file_path tree :
  read_file w file_path = Returns [] ->
  ast_parse w [] = Returns tree ->
  cls tree = Module ->
  iter_child_nodes tree = [] ->
  let d := analyze_file w file_path in
  dom d = success_keys
  /\ d !! "potential_bugs" = Some (VBugs [])
  /\ d !! "optimization_opportunities" = Some (VOptimizations [])
  /\ d !! "functions" = Some (VFunctions [])
  /\ (exists m, d !! "complexity" = Some (VComplexity m)
                /\ m !!! "max_function_complexity" = 0)
  /\ d !! "code_quality_score" = Some (VFloat 100).
Proof.
  intros Hr Hp Hc Hk d. subst d.
  split; [eapply dom_analyze_file_success; eassumption|].
  rewrite (analyze_file_success _ _ _ _ Hr Hp).
  assert (Hw : walk tree = [tree]) by (apply walk_childless; exact Hk).
  assert (Hf : _analyze_functions tree = []).
  { unfold _analyze_functions. rewrite Hw. simpl.
    unfold function_step, is_FunctionDef. rewrite Hc. reflexivity. }
  assert (Hm : _calculate_complexity tree = ∅).
  { unfold _calculate_complexity. rewrite Hw. simpl.
    unfold complexity_step, is_branch, is_Try, is_ExceptHandler,
      is_FunctionDef, is_AsyncFunctionDef, is_ClassDef, is_comprehension.
    rewrite Hc. reflexivity. }
  assert (Hs : _calculate_quality_score
                 (analysis_of file_path [] tree (time_time w)) = 100%Q).
  { unfold _calculate_quality_score, score_before_clamp.
    change (get_bugs (analysis_of file_path [] tree (time_time w)))
      with (@nil bug).
    change (get_functions (analysis_of file_path [] tree (time_time w)))
      with (_analyze_functions tree).
    change (get_complexity (analysis_of file_path [] tree (time_time w)))
      with (_calculate_complexity tree).
    rewrite Hf, Hm. reflexivity. }
  rewrite Hs. unfold analysis_of. rewrite Hf, Hm.
  split; [reflexivity|]. split; [reflexivity|]. split; [reflexivity|].
  split; [|reflexivity].
  exists ∅. split; reflexivity.
Qed.
End AssemblerClaims.

(** ** Trees and their traversal *)

(** Induction on a tree, with the property known for every child. *)
Lemma node_ind (P : node -> Prop) :
  (forall c l a fs, Forall (fun f => Forall P (snd f)) fs -> P (Node c l a fs)) ->
  forall n, P n.
Proof.
  intros Hnode. fix IH 1. intros [c l a fs]. apply Hnode.
  induction fs as [|f fs IHfs]; constructor; [|exact IHfs].
  destruct f as [k ns]. simpl.
  induction ns as [|x ns IHns]; constructor; [apply IH | exact IHns].
Qed.

Lemma flat_map_flat_map {A B C} (f : B -> list C) (g : A -> list B) l :
  flat_map f (flat_map g l) = flat_map (fun x => flat_map f (g x)) l.
Proof.
  induction l as [|x l IH]; simpl; [reflexivity|].
  rewrite flat_map_app, IH. reflexivity.
Qed.

Lemma subnodes_unfold n :
  subnodes n = n :: flat_map subnodes (iter_child_nodes n).
Proof.
  destruct n as [c l a fs]. unfold iter_child_nodes. simpl.
  rewrite flat_map_flat_map. reflexivity.
Qed.

Lemma list_sum_flat_map {A} (f : A -> list nat) l :
  list_sum (flat_map f l) = list_sum (map (fun x => list_sum (f x)) l).
Proof.
  induction l as [|x l IH]; simpl; [reflexivity|].
  rewrite list_sum_app, IH. reflexivity.
Qed.

Lemma tree_size_unfold n :
  tree_size n = S (forest_size (iter_child_nodes n)).
Proof.
  destruct n as [c l a fs]. unfold iter_child_nodes, forest_size. simpl.
  f_equal. induction fs as [|f fs IH]; simpl; [reflexivity|].
  rewrite map_app, list_sum_app, IH. reflexivity.
Qed.

Lemma forest_size_app l1 l2 :
  forest_size (l1 ++ l2) = forest_size l1 + forest_size l2.
Proof. unfold forest_size. rewrite map_app, list_sum_app. reflexivity. Qed.

(** The queue is emptied before the fuel is: the traversal yields every
    node of the trees in the queue, each once. *)
Lemma walk_queue_visits_all fuel : forall todo,
  forest_size todo <= fuel ->
  Permutation (walk_queue fuel todo) (flat_map subnodes todo).
Proof.
  induction fuel as [|fuel IH]; intros todo Hsize.
  - destruct todo as [|n rest]; [constructor|].
    unfold forest_size in Hsize. simpl in Hsize.
    rewrite tree_size_unfold in Hsize. lia.
  - destruct todo as [|n rest]; [constructor|].
    simpl walk_queue. simpl flat_map. rewrite subnodes_unfold.
    simpl. constructor.
    rewrite (IH (rest ++ iter_child_nodes n)).
    + rewrite flat_map_app. apply Permutation_app_comm.
    + rewrite forest_size_app. unfold forest_size in Hsize |- *.
      simpl in Hsize. rewrite tree_size_unfold in Hsize.
      unfold forest_size in Hsize. lia.
Qed.

Lemma walk_visits_all n : Permutation (walk n) (subnodes n).
Proof.
  unfold walk. rewrite walk_queue_visits_all.
  - simpl. rewrite app_nil_r. reflexivity.
  - unfold forest_size. simpl. lia.
Qed.

Lemma count_if_perm {A} (p : A -> bool) l l' :
  Permutation l l' -> count_if p l = count_if p l'.
Proof.
  unfold count_if.
  induction 1 as [|x l l' _ IH|x y l|l l' l'' _ IH1 _ IH2]; simpl.
  - reflexivity.
  - destruct (p x); simpl; congruence.
  - destruct (p x), (p y); reflexivity.
  - congruence.
Qed.

Lemma count_if_cons {A} (p : A -> bool) x l :
  count_if p (x :: l) = (if p x then 1 else 0) + count_if p l.
Proof. unfold count_if. simpl. destruct (p x); reflexivity. Qed.

Lemma count_if_walk p n : count_if p (walk n) = count_if p (subnodes n).
Proof. apply count_if_perm, walk_visits_all. Qed.

Lemma max_local_complexity_perm l l' :
  Permutation l l' -> max_local_complexity l = max_local_complexity l'.
Proof.
  unfold max_local_complexity.
  induction 1 as [|x l l' _ IH|x y l|l l' l'' _ IH1 _ IH2]; simpl.
  - reflexivity.
  - destruct (is_function x); simpl; congruence.
  - destruct (is_function x), (is_function y); simpl; lia.
  - congruence.
Qed.

(** ** Complexity metrics *)

Ltac read_counter :=
  repeat (rewrite lookup_total_insert_eq
          || (rewrite lookup_total_insert_ne by done)).

(** What one visited node adds to each counter. *)
Lemma complexity_step_reads m n :
  let m' := complexity_step m n in
  m' !!! "cyclomatic" = m !!! "cyclomatic" + (if is_branch n then 1 else 0)
  /\ m' !!! "try_blocks" = m !!! "try_blocks" + (if is_Try n then 1 else 0)
  /\ m' !!! "except_blocks"
     = m !!! "except_blocks" + (if is_ExceptHandler n then 1 else 0)
  /\ m' !!! "functions" = m !!! "functions" + (if is_function n then 1 else 0)
  /\ m' !!! "classes" = m !!! "classes" + (if is_ClassDef n then 1 else 0)
  /\ m' !!! "comprehensions"
     = m !!! "comprehensions" + (if is_comprehension n then 1 else 0)
  /\ m' !!! "max_function_complexity"
     = if is_function n
       then Nat.max (m !!! "max_function_complexity")
                    (count_if is_branch (walk n))
       else m !!! "max_function_complexity".
Proof.
  unfold complexity_step, is_function, is_branch, is_Try, is_ExceptHandler,
    is_FunctionDef, is_AsyncFunctionDef, is_ClassDef, is_comprehension, incr.
  destruct (cls n); simpl; read_counter; repeat split; lia.
Qed.

Lemma max_local_complexity_cons n l :
  max_local_complexity (n :: l) =
  if is_function n
  then Nat.max (local_complexity n) (max_local_complexity l)
  else max_local_complexity l.
Proof.
  unfold max_local_complexity. simpl. destruct (is_function n); reflexivity.
Qed.

(** The counters after the loop over a list of nodes. *)
Lemma fold_complexity_step l : forall m,
  let m' := fold_left complexity_step l m in
  m' !!! "cyclomatic" = m !!! "cyclomatic" + count_if is_branch l
  /\ m' !!! "try_blocks" = m !!! "try_blocks" + count_if is_Try l
  /\ m' !!! "except_blocks"
     = m !!! "except_blocks" + count_if is_ExceptHandler l
  /\ m' !!! "functions" = m !!! "functions" + count_if is_function l
  /\ m' !!! "classes" = m !!! "classes" + count_if is_ClassDef l
  /\ m' !!! "comprehensions"
     = m !!! "comprehensions" + count_if is_comprehension l
  /\ m' !!! "max_function_complexity"
     = Nat.max (m !!! "max_function_complexity") (max_local_complexity l).
Proof.
  induction l as [|n l IH]; intros m.
  - simpl. unfold count_if, max_local_complexity. simpl. repeat split; lia.
  - simpl fold_left. cbv zeta.
    destruct (IH (complexity_step m n)) as (I1 & I2 & I3 & I4 & I5 & I6 & I7).
    destruct (complexity_step_reads m n) as (S1 & S2 & S3 & S4 & S5 & S6 & S7).
    rewrite I1, I2, I3, I4, I5, I6, I7, S1, S2, S3, S4, S5, S6, S7.
    rewrite !count_if_cons, max_local_complexity_cons.
    unfold local_complexity. rewrite <- (count_if_walk is_branch n).
    repeat split; try lia.
    destruct (is_function n); lia.
Qed.

Lemma max_local_complexity_bound f l :
  In f l -> is_function f = true ->
  local_complexity f <= max_local_complexity l.
Proof.
  intros Hin Hf. induction l as [|x l IH]; [contradiction|].
  rewrite max_local_complexity_cons. destruct Hin as [->|Hin].
  - rewrite Hf. lia.
  - specialize (IH Hin). destruct (is_function x); lia.
Qed.

(** The counters after the traversal of a tree, over the nodes in the
    order of the traversal. *)
Lemma calculate_complexity_walk tree :
  let c := _calculate_complexity tree in
  c !!! "functions" = count_if is_function (walk tree)
  /\ c !!! "max_function_complexity" = max_local_complexity (walk tree).
Proof.
  intros c. subst c. unfold _calculate_complexity.
  destruct (fold_complexity_step (walk tree) ∅)
    as (_ & _ & _ & I4 & _ & _ & I7).
  rewrite I4, I7, !lookup_total_empty.
  change (@inhabitant nat _) with 0. split; reflexivity.
Qed.

(** C4. The traversal of a parsed tree leaves in the metrics: under
    [cyclomatic] the number of [If], [For] and [While] nodes of the
    tree; under [try_blocks], [except_blocks], [functions], [classes]
    and [comprehensions] the number of [Try] nodes, of handlers, of
    function definitions sync or async, of class definitions and of
    list, dict and set comprehensions; and under
    [max_function_complexity] the largest local complexity among the
    function definitions of the tree, the local complexity of a function
    counting the [If], [For] and [While] nodes anywhere below it, nested
    functions included. *)
Theorem complexity_metrics tree :
  let c := _calculate_complexity tree in
  c !!! "cyclomatic" = count_if is_branch (subnodes tree)
  /\ c !!! "try_blocks" = count_if is_Try (subnodes tree)
  /\ c !!! "except_blocks" = count_if is_ExceptHandler (subnodes tree)
  /\ c !!! "functions" = count_if is_function (subnodes tree)
  /\ c !!! "classes" = count_if is_ClassDef (subnodes tree)
  /\ c !!! "comprehensions" = count_if is_comprehension (subnodes tree)
  /\ c !!! "max_function_complexity" = max_local_complexity (subnodes tree)
  /\ (forall f, In f (subnodes tree) -> is_function f = true ->
                local_complexity f <= c !!! "max_function_complexity").
Proof.
  intros c. subst c. unfold _calculate_complexity.
  destruct (fold_complexity_step (walk tree) ∅)
    as (I1 & I2 & I3 & I4 & I5 & I6 & I7).
  rewrite I1, I2, I3, I4, I5, I6, I7, !lookup_total_empty.
  rewrite !count_if_walk.
  rewrite (max_local_complexity_perm _ _ (walk_visits_all tree)).
  change (@inhabitant nat _) with 0. simpl.
  repeat split.
  intros f Hin Hf. apply max_local_complexity_bound; assumption.
Qed.

(** ** Function definitions, sync and async *)

Section FunctionListing.
Context `{Interpreter}.

Lemma function_step_length l :
  length (flat_map function_step l) = count_if is_FunctionDef l.
Proof.
  induction l as [|n l IH]; [reflexivity|].
  simpl flat_map. rewrite length_app, IH, count_if_cons.
  unfold function_step. destruct (is_FunctionDef n); reflexivity.
Qed.

Lemma function_step_sync l :
  Forall (fun f => fi_is_async f = false) (flat_map function_step l).
Proof.
  induction l as [|n l IH]; [constructor|].
  simpl flat_map. apply Forall_app. split; [|exact IH].
  unfold function_step, is_FunctionDef, is_AsyncFunctionDef.
  destruct (cls n); repeat constructor.
Qed.

Lemma pattern_step_functions content l :
  count_if is_FunctionPattern (flat_map (pattern_step content) l)
  = count_if is_FunctionDef l.
Proof.
  induction l as [|n l IH]; [reflexivity|].
  simpl flat_map. unfold count_if in *.
  rewrite List.filter_app, length_app, IH. simpl List.filter.
  unfold pattern_step, is_FunctionDef, is_ClassDef, is_loop.
  destruct (cls n); reflexivity.
Qed.

Lemma count_if_is_function l :
  count_if is_function l
  = count_if is_FunctionDef l + count_if is_AsyncFunctionDef l.
Proof.
  induction l as [|n l IH]; [reflexivity|].
  rewrite !count_if_cons, IH.
  unfold is_function, is_FunctionDef, is_AsyncFunctionDef.
  destruct (cls n); simpl; lia.
Qed.

(** C10. An async function definition adds one to [functions] and its
    local complexity takes part in [max_function_complexity]; it yields
    no pattern and no entry of the function listing, so that function
    patterns and listed functions are as many as the sync definitions
    of the tree, and every listed function has [is_async] false. *)
Theorem async_functions_counted_not_listed tree content :
  let c := _calculate_complexity tree in
  c !!! "functions" = count_if is_FunctionDef (subnodes tree)
                      + count_if is_AsyncFunctionDef (subnodes tree)
  /\ (forall m f, is_AsyncFunctionDef f = true ->
        complexity_step m f !!! "functions" = S (m !!! "functions")
        /\ complexity_step m f !!! "max_function_complexity"
           = Nat.max (m !!! "max_function_complexity") (local_complexity f))
  /\ (forall f, In f (subnodes tree) -> is_AsyncFunctionDef f = true ->
        local_complexity f <= c !!! "max_function_complexity")
  /\ (forall f, is_AsyncFunctionDef f = true ->
        pattern_step content f = [] /\ function_step f = [])
  /\ count_if is_FunctionPattern (_extract_patterns tree content)
     = count_if is_FunctionDef (subnodes tree)
  /\ length (_analyze_functions tree) = count_if is_FunctionDef (subnodes tree)
  /\ Forall (fun f => fi_is_async f = false) (_analyze_functions tree).
Proof.
  intros c.
  destruct (calculate_complexity_walk tree) as (C4 & C7).
  fold c in C4, C7. rewrite count_if_walk in C4.
  rewrite (max_local_complexity_perm _ _ (walk_visits_all tree)) in C7.
  split; [|split; [|split; [|split; [|split; [|split]]]]].
  - rewrite C4. apply count_if_is_function.
  - intros m f Hf.
    destruct (complexity_step_reads m f) as (_ & _ & _ & S4 & _ & _ & S7).
    rewrite S4, S7. unfold is_function. rewrite Hf, orb_true_r.
    unfold local_complexity. rewrite count_if_walk. split; [lia|reflexivity].
  - intros f Hin Hf. rewrite C7.
    apply max_local_complexity_bound; [exact Hin|].
    unfold is_function. rewrite Hf. apply orb_true_r.
  - intros f Hf.
    unfold pattern_step, function_step, is_FunctionDef, is_ClassDef, is_loop,
      is_AsyncFunctionDef in *.
    destruct (cls f); try discriminate; split; reflexivity.
  - unfold _extract_patterns. rewrite pattern_step_functions.
    apply count_if_walk.
  - unfold _analyze_functions. rewrite function_step_length.
    apply count_if_walk.
  - apply function_step_sync.
Qed.
End FunctionListing.

(** ** Imports *)

Lemma fold_import_alias names : forall imports,
  fold_left import_alias names imports =
  {| standard := standard imports
                 ++ List.filter is_standard (map name_of names);
     third_party := third_party imports
                    ++ List.filter (fun x => negb (is_standard x))
                                   (map name_of names);
     relative := relative imports |}.
Proof.
  induction names as [|a names IH]; intros imports.
  - simpl. rewrite !app_nil_r. destruct imports; reflexivity.
  - simpl fold_left. rewrite IH. unfold import_alias, is_standard.
    simpl map. simpl List.filter.
    destruct (in_stdlib (first_segment (name_of a))); simpl;
      rewrite <- ?app_assoc; reflexivity.
Qed.

Lemma import_step_lists imports n :
  import_step imports n =
  {| standard := standard imports ++ standard_of n;
     third_party := third_party imports ++ third_party_of n;
     relative := relative imports ++ relative_of n |}.
Proof.
  unfold import_step, standard_of, third_party_of, relative_of, absolute_names.
  destruct (cls n) as [| | | | | | | | | | | | |module level| | | | | | | | | | |];
    try (rewrite !app_nil_r; destruct imports; reflexivity).
  - rewrite fold_import_alias, app_nil_r. reflexivity.
  - destruct level as [|level]; simpl Nat.ltb; cbv iota.
    + unfold is_standard. simpl List.filter.
      assert (E : (if truthy module then first_segment (or_empty module) else [])
                  = first_segment (or_empty module))
        by (destruct module as [[|c s]|]; reflexivity).
      rewrite E.
      destruct (in_stdlib (first_segment (or_empty module))); simpl;
        rewrite !app_nil_r; reflexivity.
    + assert (E : (if truthy module then py "." ++ or_empty module else py ".")
                  = py "." ++ or_empty module)
        by (destruct module as [[|c s]|]; reflexivity).
      rewrite E, !app_nil_r. reflexivity.
Qed.

Lemma fold_import_step l : forall imports,
  fold_left import_step l imports =
  {| standard := standard imports ++ flat_map standard_of l;
     third_party := third_party imports ++ flat_map third_party_of l;
     relative := relative imports ++ flat_map relative_of l |}.
Proof.
  induction l as [|n l IH]; intros imports.
  - simpl. rewrite !app_nil_r. destruct imports; reflexivity.
  - simpl fold_left. rewrite IH, import_step_lists. simpl.
    rewrite <- !app_assoc. reflexivity.
Qed.

(** C7, as amended.  The three lists collect, in traversal order: under
    [relative], for every from-import of nonzero level and whatever its
    module name, the module name after exactly one dot, which is the
    single dot when there is no module name; under [standard] and
    [third_party], the names of the plain imports and the modules of the
    from-imports of level zero, according to whether the first dotted
    segment of the name is in the fixed set of standard modules. *)
Theorem import_classification tree :
  let imports := _analyze_imports tree in
  relative imports = flat_map relative_of (walk tree)
  /\ standard imports = flat_map standard_of (walk tree)
  /\ third_party imports = flat_map third_party_of (walk tree)
  /\ (forall n module level,
        In n (subnodes tree) -> cls n = ImportFrom module (S level) ->
        In (py "." ++ or_empty module) (relative imports)
        /\ standard_of n = [] /\ third_party_of n = [])
  /\ (forall n a,
        In n (subnodes tree) -> cls n = Import -> In a (field "names" n) ->
        if in_stdlib (first_segment (name_of a))
        then In (name_of a) (standard imports)
        else In (name_of a) (third_party imports)).
Proof.
  intros imports. subst imports. unfold _analyze_imports.
  rewrite fold_import_step. simpl.
  split; [reflexivity|]. split; [reflexivity|]. split; [reflexivity|].
  split.
  - intros n module level Hin Hc.
    apply (Permutation_in _ (Permutation_sym (walk_visits_all tree))) in Hin.
    unfold standard_of, third_party_of, absolute_names. rewrite Hc.
    split; [|split; reflexivity].
    apply in_flat_map. exists n. split; [exact Hin|].
    unfold relative_of. rewrite Hc. left. reflexivity.
  - intros n a Hin Hc Ha.
    apply (Permutation_in _ (Permutation_sym (walk_visits_all tree))) in Hin.
    destruct (in_stdlib (first_segment (name_of a))) eqn:E;
      apply in_flat_map; exists n; (split; [exact Hin|]).
    + unfold standard_of, absolute_names. rewrite Hc.
      apply List.filter_In. split; [apply in_map, Ha | exact E].
    + unfold third_party_of, absolute_names. rewrite Hc.
      apply List.filter_In. split; [apply in_map, Ha|].
      unfold is_standard. rewrite E. reflexivity.
Qed.

(** ** The lexical scan *)

(** A line of [splitlines] holds no line boundary. *)
Lemma splitlines_from_no_linebreak n : forall s cur line,
  length s <= n ->
  Forall (fun c => is_linebreak c = false) cur ->
  In line (splitlines_from cur s) ->
  Forall (fun c => is_linebreak c = false) line.
Proof.
  induction n as [|n IH]; intros s cur line Hlen Hcur Hin.
  - destruct s; [|simpl in Hlen; lia]. simpl in Hin.
    destruct cur; [contradiction|]. destruct Hin as [<-|[]].
    apply Forall_rev. exact Hcur.
  - destruct s as [|c rest].
    + simpl in Hin. destruct cur; [contradiction|]. destruct Hin as [<-|[]].
      apply Forall_rev. exact Hcur.
    + simpl in Hlen. simpl in Hin. destruct (is_linebreak c) eqn:Ec.
      * assert (Hrest : In line (rev cur :: splitlines_from [] rest)
                        \/ exists rest', length rest' <= n
                             /\ In line (rev cur :: splitlines_from [] rest')).
        { destruct rest as [|c' rest']; [left; exact Hin|].
          destruct (N.eqb c CR && N.eqb c' LF)%bool.
          - right. exists rest'. simpl in Hlen. split; [lia | exact Hin].
          - left. exact Hin. }
        destruct Hrest as [[<-|Hin']|(rest' & Hlen' & [<-|Hin'])].
        -- apply Forall_rev. exact Hcur.
        -- apply (IH rest [] line); [lia | constructor | exact Hin'].
        -- apply Forall_rev. exact Hcur.
        -- apply (IH rest' [] line); [lia | constructor | exact Hin'].
      * apply (IH rest (c :: cur) line); [lia | | exact Hin].
        constructor; assumption.
Qed.

Lemma splitlines_no_LF content line :
  In line (splitlines content) -> ~ In LF line.
Proof.
  intros Hin HLF.
  assert (Hall := splitlines_from_no_linebreak (length content) content []
                    line (Nat.le_refl _) ltac:(constructor) Hin).
  rewrite List.Forall_forall in Hall. specialize (Hall LF HLF). discriminate.
Qed.

Section ScannerFacts.
Context `{Interpreter}.

(** A successful repetition hands over to the rest of the pattern. *)
Lemma rounds_continues step k lo hi greedy :
  (forall i caps k', step i caps k' = true -> exists j c, k' j c = true) ->
  forall fuel count i caps,
    rounds step k lo hi greedy fuel count i caps = true ->
    exists j c, k j c = true.
Proof.
  intros Hstep. induction fuel as [|fuel IH]; intros count i caps Hm.
  - discriminate.
  - simpl in Hm.
    assert (Hcases :
      (below count hi = true /\
       step i caps (fun j c => if (Nat.leb lo count && Nat.eqb j i)%bool
                               then false
                               else rounds step k lo hi greedy fuel (S count) j c)
       = true)
      \/ (Nat.leb lo count = true /\ k i caps = true)).
    { destruct greedy; apply orb_true_iff in Hm; destruct Hm as [Hm|Hm].
      - left. destruct (below count hi); [auto | discriminate].
      - right. destruct (Nat.leb lo count); [auto | discriminate].
      - right. destruct (Nat.leb lo count); [auto | discriminate].
      - left. destruct (below count hi); [auto | discriminate]. }
    destruct Hcases as [[_ Hmore]|[_ Hstop]].
    + apply Hstep in Hmore. destruct Hmore as (j & c & Hk).
      destruct (Nat.leb lo count && Nat.eqb j i)%bool; [discriminate|].
      apply (IH _ _ _ Hk).
    + exists i, caps. exact Hstop.
Qed.

(** A successful match hands over to the rest of the pattern. *)
Lemma matches_continues s r : forall i caps k,
  matches s r i caps k = true -> exists j c, k j c = true.
Proof.
  induction r as [| c | | negated items | r1 IH1 r2 IH2 | lo hi greedy r1 IH1
                  | n r1 IH1 | n | | | | r1 IH1 | width r1 IH1];
    intros i caps k Hm; simpl in Hm.
  - eauto.
  - destruct (nth_error s i); [|discriminate].
    destruct (N.eqb c n); [eauto | discriminate].
  - destruct (nth_error s i); [|discriminate].
    destruct (N.eqb n LF); [discriminate | eauto].
  - destruct (nth_error s i); [|discriminate].
    destruct (in_set negated items n); [eauto | discriminate].
  - apply IH1 in Hm. destruct Hm as (j & c & Hm). apply IH2 in Hm. exact Hm.
  - apply (rounds_continues _ _ _ _ _ IH1) in Hm. exact Hm.
  - apply IH1 in Hm. destruct Hm as (j & c & Hm). eauto.
  - destruct (capture_of n caps) as [[a b]|]; [|discriminate].
    destruct (same_text s a b i); [eauto | discriminate].
  - destruct (Nat.eqb i 0); [eauto | discriminate].
  - destruct (at_end s i); [eauto | discriminate].
  - destruct (at_boundary s i); [eauto | discriminate].
  - destruct (matches s r1 i caps (fun _ _ => true)); [discriminate | eauto].
  - destruct (Nat.leb width i && matches s r1 (i - width) caps
                                   (fun j _ => Nat.eqb j i))%bool;
      [discriminate | eauto].
Qed.

(** A pattern that requires a character matches only text that holds it. *)
Lemma matches_requires c s r : forall i caps k,
  requires c r = true -> matches s r i caps k = true -> In c s.
Proof.
  induction r as [| d | | negated items | r1 IH1 r2 IH2 | lo hi greedy r1 IH1
                  | n r1 IH1 | n | | | | r1 IH1 | width r1 IH1];
    intros i caps k Hreq Hm; simpl in Hreq; try discriminate.
  - simpl in Hm. destruct (nth_error s i) as [e|] eqn:Ee; [|discriminate].
    destruct (N.eqb d e) eqn:Ed; [|discriminate].
    apply N.eqb_eq in Hreq, Ed. subst. eapply nth_error_In. exact Ee.
  - simpl in Hm. apply orb_true_iff in Hreq. destruct Hreq as [Hreq|Hreq].
    + apply (IH1 _ _ _ Hreq Hm).
    + apply matches_continues in Hm. destruct Hm as (j & c' & Hm).
      apply (IH2 _ _ _ Hreq Hm).
  - simpl in Hm. apply andb_true_iff in Hreq. destruct Hreq as [Hlo Hreq].
    apply Nat.ltb_lt in Hlo.
    rewrite Nat.add_1_r in Hm. simpl in Hm.
    assert (Elo : Nat.leb lo 0 = false) by (apply Nat.leb_gt; exact Hlo).
    rewrite Elo in Hm. simpl in Hm.
    assert (Hmore :
      matches s r1 i caps
        (fun j c0 => rounds (matches s r1) k lo hi greedy (lo + length s) 1 j c0)
      = true).
    { destruct greedy, (below 0 hi); simpl in Hm;
        rewrite ?orb_false_r in Hm; try discriminate; exact Hm. }
    apply (IH1 _ _ _ Hreq Hmore).
  - simpl in Hm. apply (IH1 _ _ _ Hreq Hm).
Qed.

Lemma re_search_requires c s r :
  requires c r = true -> re_search s r = true -> In c s.
Proof.
  intros Hreq Hs. unfold re_search in Hs.
  apply existsb_exists in Hs. destruct Hs as (i & _ & Hm).
  apply (matches_requires _ _ _ _ _ _ Hreq Hm).
Qed.

Lemma re_search_line_false content line r :
  In line (splitlines content) -> requires LF r = true ->
  re_search line r = false.
Proof.
  intros Hin Hreq. destruct (re_search line r) eqn:E; [|reflexivity].
  exfalso. apply (splitlines_no_LF content line Hin).
  apply (re_search_requires LF line r Hreq E).
Qed.
End ScannerFacts.

(** *** The fuel of a repetition *)

Section Fuel.
Context `{Interpreter}.
Variable s : pystr.

(** A repetition looks at the rest of the pattern only at positions from
    its own on. *)
Lemma rounds_local step k1 k2 lo hi greedy :
  (forall i caps c1 c2,
     i <= length s ->
     (forall j c, i <= j <= length s -> c1 j c = c2 j c) ->
     step i caps c1 = step i caps c2) ->
  forall fuel count i caps,
    i <= length s ->
    (forall j c, i <= j <= length s -> k1 j c = k2 j c) ->
    rounds step k1 lo hi greedy fuel count i caps
    = rounds step k2 lo hi greedy fuel count i caps.
Proof.
  intros Hstep. induction fuel as [|fuel IH]; intros count i caps Hi Hk;
    [reflexivity|].
  simpl. rewrite (Hk i caps) by lia.
  rewrite (Hstep i caps _
             (fun j c => if (Nat.leb lo count && Nat.eqb j i)%bool then false
                         else rounds step k2 lo hi greedy fuel (S count) j c) Hi).
  - reflexivity.
  - intros j c Hj. destruct (Nat.leb lo count && Nat.eqb j i)%bool;
      [reflexivity|].
    apply IH; [lia|]. intros j' c' Hj'. apply Hk. lia.
Qed.

Lemma matches_local r : forall i caps k1 k2,
  i <= length s ->
  (forall j c, i <= j <= length s -> k1 j c = k2 j c) ->
  matches s r i caps k1 = matches s r i caps k2.
Proof.
  induction r as [| c | | negated items | r1 IH1 r2 IH2 | lo hi greedy r1 IH1
                  | n r1 IH1 | n | | | | r1 IH1 | width r1 IH1];
    intros i caps k1 k2 Hi Hk; simpl.
  - apply Hk. lia.
  - destruct (nth_error s i) eqn:E; [|reflexivity].
    assert (i < length s) by (apply nth_error_Some; congruence).
    rewrite Hk by lia. reflexivity.
  - destruct (nth_error s i) eqn:E; [|reflexivity].
    assert (i < length s) by (apply nth_error_Some; congruence).
    rewrite Hk by lia. reflexivity.
  - destruct (nth_error s i) eqn:E; [|reflexivity].
    assert (i < length s) by (apply nth_error_Some; congruence).
    rewrite Hk by lia. reflexivity.
  - apply IH1; [exact Hi|]. intros j c Hj. apply IH2; [lia|].
    intros j' c' Hj'. apply Hk. lia.
  - apply rounds_local; [|exact Hi|exact Hk].
    intros i' caps' c1 c2 Hi' Hc. apply IH1; assumption.
  - apply IH1; [exact Hi|]. intros j c Hj. apply Hk. exact Hj.
  - destruct (capture_of n caps) as [[a b]|]; [|reflexivity].
    destruct (same_text s a b i) eqn:E; [|reflexivity].
    unfold same_text in E. apply andb_true_iff in E. destruct E as [E _].
    apply Nat.leb_le in E. apply Hk. lia.
  - rewrite Hk by lia. reflexivity.
  - rewrite Hk by lia. reflexivity.
  - rewrite Hk by lia. reflexivity.
  - rewrite Hk by lia. reflexivity.
  - rewrite Hk by lia. reflexivity.
Qed.

(** Fuel beyond the rounds still required and the characters still
    unread changes nothing: the fuel of a repetition never runs out. *)
Lemma rounds_fuel_enough r k lo hi greedy : forall fuel fuel' count i caps,
  i <= length s ->
  (lo - count) + (length s - i) < fuel ->
  (lo - count) + (length s - i) < fuel' ->
  rounds (matches s r) k lo hi greedy fuel count i caps
  = rounds (matches s r) k lo hi greedy fuel' count i caps.
Proof.
  induction fuel as [|fuel IH]; intros fuel' count i caps Hi Hf Hf'; [lia|].
  destruct fuel' as [|fuel']; [lia|]. simpl.
  rewrite (matches_local r i caps _
             (fun j c => if (Nat.leb lo count && Nat.eqb j i)%bool then false
                         else rounds (matches s r) k lo hi greedy fuel'
                                (S count) j c) Hi).
  - reflexivity.
  - intros j c Hj.
    destruct (Nat.leb lo count) eqn:El; simpl.
    + apply Nat.leb_le in El. destruct (Nat.eqb j i) eqn:Ej; [reflexivity|].
      apply Nat.eqb_neq in Ej. apply IH; lia.
    + apply Nat.leb_gt in El. apply IH; lia.
Qed.
(** In particular the fuel [matches] gives a repetition is enough. *)
Lemma repeat_fuel_enough r lo hi greedy extra i caps k :
  i <= length s ->
  matches s (Repeat lo hi greedy r) i caps k
  = rounds (matches s r) k lo hi greedy (lo + length s + 1 + extra) 0 i caps.
Proof.
  intros Hi. simpl. apply rounds_fuel_enough; [exact Hi | lia | lia].
Qed.
End Fuel.


Lemma Forall_flat_map_in {A B} (P : B -> Prop) (f : A -> list B) l :
  (forall x, In x l -> Forall P (f x)) -> Forall P (flat_map f l).
Proof.
  induction l as [|x l IH]; intros Hall; simpl; [constructor|].
  apply Forall_app. split.
  - apply Hall. left. reflexivity.
  - apply IH. intros y Hy. apply Hall. right. exact Hy.
Qed.

Lemma enumerate1_line {A} (l : list A) n x :
  In (n, x) (enumerate1 l) -> In x l.
Proof. unfold enumerate1. apply in_combine_r. Qed.

Section ScannerClaims.
Context `{Interpreter}.

Ltac rule_fires_other :=
  match goal with
  | |- Forall _ (if ?b then _ else _) =>
      destruct b; repeat constructor; simpl; try discriminate
  end.

(** C9. For every text, the scan emits no diagnostic of rule
    [duplicate_code] and no hint of rule [list_comprehension] or
    [repeated_calculation]: each of the three patterns requires a LF,
    and no line of [splitlines] holds one. *)
Theorem multi_line_rules_never_fire content :
  (forall text pattern,
     In ("duplicate_code", (text, pattern)) bug_patterns ->
     requires LF pattern = true)
  /\ (forall rule pattern,
        In (rule, pattern) optimization_patterns ->
        rule = "list_comprehension" \/ rule = "repeated_calculation" ->
        requires LF pattern = true)
  /\ (forall line, In line (splitlines content) -> ~ In LF line)
  /\ Forall (fun b => bug_type b <> "duplicate_code")
            (_detect_potential_bugs content)
  /\ Forall (fun o => opt_type o <> "list_comprehension"
                      /\ opt_type o <> "repeated_calculation")
            (_find_optimizations content).
Proof.
  split; [|split; [|split; [|split]]].
  - intros text pattern Hin. unfold bug_patterns in Hin. simpl in Hin.
    repeat (destruct Hin as [Hin|Hin]; [inversion Hin; subst; reflexivity|]).
    contradiction.
  - intros rule pattern Hin Hrule. unfold optimization_patterns in Hin.
    simpl in Hin.
    repeat (destruct Hin as [Hin|Hin];
            [inversion Hin; subst;
             first [reflexivity | destruct Hrule; discriminate]|]).
    contradiction.
  - apply splitlines_no_LF.
  - unfold _detect_potential_bugs. apply Forall_flat_map_in.
    intros [n line] Hin. apply enumerate1_line in Hin.
    unfold bugs_of_line, bug_patterns. simpl flat_map.
    repeat match goal with
           | |- context [re_search line ?r] =>
               rewrite (re_search_line_false content line r Hin eq_refl)
           end.
    repeat (apply Forall_app; split); try rule_fires_other; constructor.
  - unfold _find_optimizations. apply Forall_flat_map_in.
    intros [n line] Hin. apply enumerate1_line in Hin.
    unfold optimizations_of_line, optimization_patterns. simpl flat_map.
    repeat match goal with
           | |- context [re_search line ?r] =>
               rewrite (re_search_line_false content line r Hin eq_refl)
           end.
    repeat (apply Forall_app; split); try rule_fires_other;
      try constructor; split; discriminate.
Qed.
End ScannerClaims.

(** ** Two parses of the same text *)

Lemma erase_cls n : cls (erase n) = cls n.
Proof. destruct n; reflexivity. Qed.

Lemma erase_lineno n : lineno (erase n) = lineno n.
Proof. destruct n; reflexivity. Qed.

Lemma field_of_erase k fs :
  field_of k (map (fun f => (fst f, map erase (snd f))) fs)
  = map erase (field_of k fs).
Proof.
  induction fs as [|[k' ns] fs IH]; simpl; [reflexivity|].
  destruct (String.eqb k' k); [reflexivity | exact IH].
Qed.

Lemma field_erase k n : field k (erase n) = map erase (field k n).
Proof. destruct n as [c l a fs]. unfold field. simpl. apply field_of_erase. Qed.

Lemma iter_child_nodes_erase n :
  iter_child_nodes (erase n) = map erase (iter_child_nodes n).
Proof.
  destruct n as [c l a fs]. unfold iter_child_nodes. simpl.
  induction fs as [|[k ns] fs IH]; simpl; [reflexivity|].
  rewrite map_app, IH. reflexivity.
Qed.

Lemma forest_size_erase l : forest_size (map erase l) = forest_size l.
Proof.
  induction l as [|n l IH]; [reflexivity|].
  unfold forest_size in *. simpl. rewrite IH. f_equal.
  clear IH l. induction n as [c l a fs IH] using node_ind.
  simpl. f_equal. induction IH as [|[k ns] fs Hns _ IHfs]; simpl; [reflexivity|].
  rewrite IHfs. f_equal. simpl in Hns.
  induction Hns as [|x ns Hx _ IHns]; simpl; [reflexivity|].
  rewrite Hx, IHns. reflexivity.
Qed.

Lemma tree_size_erase n : tree_size (erase n) = tree_size n.
Proof.
  assert (E := forest_size_erase [n]). unfold forest_size in E. simpl in E. lia.
Qed.

Lemma walk_queue_erase fuel : forall todo,
  walk_queue fuel (map erase todo) = map erase (walk_queue fuel todo).
Proof.
  induction fuel as [|fuel IH]; intros todo; [destruct todo; reflexivity|].
  destruct todo as [|n rest]; [reflexivity|].
  simpl. f_equal. rewrite iter_child_nodes_erase, <- map_app. apply IH.
Qed.

Lemma walk_erase n : walk (erase n) = map erase (walk n).
Proof.
  unfold walk. rewrite tree_size_erase. apply (walk_queue_erase _ [n]).
Qed.

Lemma blind_agree {A} (f : node -> A) n1 n2 :
  blind f -> erase n1 = erase n2 -> f n1 = f n2.
Proof. intros Hf E. rewrite <- (Hf n1), <- (Hf n2), E. reflexivity. Qed.

Lemma count_if_map {A B} (p : B -> bool) (g : A -> B) l :
  count_if p (map g l) = count_if (fun x => p (g x)) l.
Proof.
  induction l as [|x l IH]; [reflexivity|].
  simpl map. rewrite !count_if_cons, IH. reflexivity.
Qed.

Lemma count_if_ext {A} (p q : A -> bool) l :
  (forall x, In x l -> p x = q x) -> count_if p l = count_if q l.
Proof.
  induction l as [|x l IH]; intros E; [reflexivity|].
  rewrite !count_if_cons, IH, (E x).
  - reflexivity.
  - left. reflexivity.
  - intros y Hy. apply E. right. exact Hy.
Qed.

Lemma count_if_erase p l : blind p -> count_if p (map erase l) = count_if p l.
Proof. intros Hp. rewrite count_if_map. apply count_if_ext. auto. Qed.

Lemma map_erase_blind {A} (f : node -> A) l :
  blind f -> map f (map erase l) = map f l.
Proof. intros Hf. rewrite List.map_map. apply List.map_ext. exact Hf. Qed.

Lemma blind_cls {A} (f : node_class -> A) : blind (fun n => f (cls n)).
Proof. intros n. rewrite erase_cls. reflexivity. Qed.

Lemma blind_count_walk p : blind p -> blind (fun n => count_if p (walk n)).
Proof. intros Hp n. rewrite walk_erase. apply count_if_erase, Hp. Qed.

Lemma blind_line_of : blind line_of.
Proof. intros n. unfold line_of. rewrite erase_lineno. reflexivity. Qed.

Lemma blind_name_of : blind name_of.
Proof. intros n. unfold name_of. rewrite erase_cls. reflexivity. Qed.

Lemma blind_names_of_field k : blind (fun n => map name_of (field k n)).
Proof.
  intros n. rewrite field_erase. apply map_erase_blind, blind_name_of.
Qed.

Lemma flat_map_field_erase k l :
  flat_map (field k) (map erase l) = map erase (flat_map (field k) l).
Proof.
  induction l as [|n l IH]; [reflexivity|].
  simpl. rewrite IH, field_erase, map_app. reflexivity.
Qed.

Lemma blind_arg_names : blind (fun n => map name_of (args_args n)).
Proof.
  intros n. unfold args_args. rewrite field_erase, flat_map_field_erase.
  apply map_erase_blind, blind_name_of.
Qed.

Lemma blind_defaults : blind (fun n => length (args_defaults n)).
Proof.
  intros n. unfold args_defaults.
  rewrite field_erase, flat_map_field_erase. apply length_map.
Qed.

Lemma filter_erase p l :
  blind p -> List.filter p (map erase l) = map erase (List.filter p l).
Proof.
  intros Hp. induction l as [|x l IH]; [reflexivity|].
  simpl. rewrite Hp, IH. destruct (p x); reflexivity.
Qed.

Lemma blind_is_FunctionDef : blind is_FunctionDef.
Proof. intros n. unfold is_FunctionDef. rewrite erase_cls. reflexivity. Qed.

Lemma methods_of_erase n : methods_of (erase n) = map erase (methods_of n).
Proof.
  unfold methods_of. rewrite field_erase.
  apply filter_erase, blind_is_FunctionDef.
Qed.

Lemma blind_methods : blind (fun n => map name_of (methods_of n)).
Proof.
  intros n. rewrite methods_of_erase. apply map_erase_blind, blind_name_of.
Qed.

Lemma omap_lineno_erase l : omap lineno (map erase l) = omap lineno l.
Proof.
  induction l as [|x l IH]; [reflexivity|].
  cbn. rewrite erase_lineno. destruct (lineno x); cbn; [f_equal|]; exact IH.
Qed.

Section Blind.
Context `{Interpreter}.

Lemma blind_get_docstring : blind get_docstring.
Proof.
  intros n. unfold get_docstring. rewrite field_erase.
  destruct (field "body" n) as [|first rest]; [reflexivity|].
  simpl. rewrite erase_cls, field_erase.
  destruct (cls first); try reflexivity.
  destruct (field "value" first) as [|v [|v' vs]]; try reflexivity.
  simpl. rewrite erase_cls. reflexivity.
Qed.

(** Plain names render as their identifier, whatever the object. *)
Lemma id_or_str_names l1 : forall l2,
  map erase l1 = map erase l2 -> forallb is_Name l1 = true ->
  map id_or_str l1 = map id_or_str l2.
Proof.
  induction l1 as [|d1 l1 IH]; intros [|d2 l2] E Hn; try discriminate;
    [reflexivity|].
  simpl in E, Hn. injection E as Ed El.
  apply andb_true_iff in Hn. destruct Hn as [Hd Hl].
  simpl. rewrite (IH l2 El Hl). f_equal.
  assert (Ec : cls d1 = cls d2) by (apply (blind_agree cls); [apply (blind_cls (fun c => c)) | exact Ed]).
  unfold id_or_str, is_Name in *. rewrite <- Ec.
  destruct (cls d1); try discriminate. reflexivity.
Qed.
End Blind.

Lemma node_ind_children (P : node -> Prop) :
  (forall n, Forall P (iter_child_nodes n) -> P n) -> forall n, P n.
Proof.
  intros Hstep. induction n as [c l a fs IH] using node_ind.
  apply Hstep. unfold iter_child_nodes. simpl.
  induction IH as [|[k ns] fs Hns _ IHfs]; simpl; [constructor|].
  apply Forall_app. split; assumption.
Qed.

(** The nodes of a subtree are a segment of the nodes of the tree. *)
Lemma subnodes_segment_forest forest n :
  Forall (fun t => forall n, In n (subnodes t) ->
                   exists l1 l2, subnodes t = l1 ++ subnodes n ++ l2) forest ->
  In n (flat_map subnodes forest) ->
  exists l1 l2, flat_map subnodes forest = l1 ++ subnodes n ++ l2.
Proof.
  induction 1 as [|t forest Ht _ IH]; intros Hin; [contradiction|].
  simpl in Hin. apply in_app_or in Hin. destruct Hin as [Hin|Hin].
  - destruct (Ht n Hin) as (l1 & l2 & E).
    exists l1, (l2 ++ flat_map subnodes forest).
    simpl. rewrite E, <- !app_assoc. reflexivity.
  - destruct (IH Hin) as (l1 & l2 & E).
    exists (subnodes t ++ l1), l2.
    simpl. rewrite E, <- !app_assoc. reflexivity.
Qed.

Lemma subnodes_segment t : forall n,
  In n (subnodes t) -> exists l1 l2, subnodes t = l1 ++ subnodes n ++ l2.
Proof.
  induction t as [t IH] using node_ind_children. intros n Hin.
  rewrite subnodes_unfold in Hin. destruct Hin as [<-|Hin].
  - exists [], []. rewrite app_nil_r. reflexivity.
  - destruct (subnodes_segment_forest _ n IH Hin) as (l1 & l2 & E).
    exists (t :: l1), l2. rewrite subnodes_unfold at 1. rewrite E. reflexivity.
Qed.

Lemma distinct_loops_subtree t n :
  In n (subnodes t) -> distinct_loops t -> distinct_loops n.
Proof.
  unfold distinct_loops. intros Hin Hd.
  destruct (subnodes_segment t n Hin) as (l1 & l2 & E).
  rewrite E, !List.filter_app, !map_app in Hd.
  apply NoDup_app_remove_l in Hd. apply NoDup_app_remove_r in Hd. exact Hd.
Qed.

(** Where loops are distinct objects, the loops found from a loop and
    other than that loop are the loops of its traversal less one. *)
Lemma nested_loops_distinct n :
  is_loop n = true -> distinct_loops n ->
  count_if (fun d => (is_loop d && negb (N.eqb (addr d) (addr n)))%bool) (walk n)
  = count_if is_loop (walk n) - 1.
Proof.
  unfold distinct_loops. intros Hl Hd.
  rewrite !count_if_walk. rewrite subnodes_unfold in *.
  simpl in Hd. rewrite Hl in Hd. simpl in Hd.
  rewrite !count_if_cons, N.eqb_refl, andb_false_r, Hl.
  apply List.NoDup_cons_iff in Hd. destruct Hd as [Hnotin _].
  rewrite (count_if_ext _ is_loop); [lia|].
  intros d Hin. destruct (is_loop d) eqn:Ed; [|reflexivity].
  destruct (N.eqb (addr d) (addr n)) eqn:E; [|reflexivity].
  apply N.eqb_eq in E. exfalso. apply Hnotin. rewrite <- E.
  apply in_map. apply List.filter_In. split; assumption.
Qed.

Lemma blind_is_branch : blind is_branch.
Proof. intros n. unfold is_branch. rewrite erase_cls. reflexivity. Qed.
Lemma blind_is_loop : blind is_loop.
Proof. intros n. unfold is_loop. rewrite erase_cls. reflexivity. Qed.
Lemma blind_is_Return : blind is_Return.
Proof. intros n. unfold is_Return. rewrite erase_cls. reflexivity. Qed.
Lemma blind_is_Raise : blind is_Raise.
Proof. intros n. unfold is_Raise. rewrite erase_cls. reflexivity. Qed.
Lemma blind_is_Break : blind is_Break.
Proof. intros n. unfold is_Break. rewrite erase_cls. reflexivity. Qed.
Lemma blind_is_Continue : blind is_Continue.
Proof. intros n. unfold is_Continue. rewrite erase_cls. reflexivity. Qed.
Lemma blind_is_Name : blind is_Name.
Proof. intros n. unfold is_Name. rewrite erase_cls. reflexivity. Qed.

Lemma count_walk_erase p n :
  blind p -> count_if p (walk (erase n)) = count_if p (walk n).
Proof. intros Hp. rewrite walk_erase. apply count_if_erase, Hp. Qed.

Lemma forallb_erase p l : blind p -> forallb p (map erase l) = forallb p l.
Proof.
  intros Hp. induction l as [|x l IH]; [reflexivity|].
  simpl. rewrite Hp, IH. reflexivity.
Qed.

Lemma existsb_erase p l : blind p -> existsb p (map erase l) = existsb p l.
Proof.
  intros Hp. induction l as [|x l IH]; [reflexivity|].
  simpl. rewrite Hp, IH. reflexivity.
Qed.

Lemma blind_names_only : blind names_only.
Proof.
  intros n. unfold names_only. rewrite erase_cls, !field_erase.
  rewrite !(forallb_erase _ _ blind_is_Name). reflexivity.
Qed.

Section Agreement.
Context `{Interpreter}.

Lemma id_or_str_erase l :
  forallb is_Name l = true -> map id_or_str (map erase l) = map id_or_str l.
Proof.
  intros Hn. symmetry. apply id_or_str_names; [|exact Hn].
  rewrite List.map_map. apply List.map_ext_in. intros d _.
  clear. induction d as [c l a fs IH] using node_ind. simpl. f_equal.
  induction IH as [|[k ns] fs Hns _ IHfs]; simpl; [reflexivity|].
  rewrite <- IHfs. f_equal. f_equal. simpl in Hns.
  induction Hns as [|x ns Hx _ IHns]; simpl; [reflexivity|].
  rewrite <- Hx, <- IHns. reflexivity.
Qed.

Lemma function_step_erase n :
  names_only n = true -> function_step (erase n) = function_step n.
Proof.
  intros Hn. unfold function_step.
  rewrite blind_is_FunctionDef. destruct (is_FunctionDef n) eqn:Ef; [|reflexivity].
  unfold names_only, is_FunctionDef in *.
  destruct (cls n) eqn:Ec; try discriminate.
  rewrite blind_name_of, blind_line_of, blind_arg_names, blind_defaults,
    !count_walk_erase, blind_get_docstring, field_erase, id_or_str_erase
    by (try exact Hn; auto using blind_is_Return, blind_is_Raise).
  unfold is_AsyncFunctionDef. rewrite erase_cls. reflexivity.
Qed.

Lemma class_step_erase n :
  names_only n = true -> class_step (erase n) = class_step n.
Proof.
  intros Hn. unfold class_step.
  unfold is_ClassDef. rewrite erase_cls.
  unfold names_only in Hn.
  destruct (cls n) eqn:Ec; try reflexivity.
  apply andb_true_iff in Hn. destruct Hn as [Hb Hd].
  rewrite blind_name_of, blind_line_of, blind_methods, blind_get_docstring,
    !field_erase, !id_or_str_erase by assumption.
  reflexivity.
Qed.

Lemma complexity_step_erase m n :
  complexity_step m (erase n) = complexity_step m n.
Proof.
  unfold complexity_step.
  rewrite (count_walk_erase _ _ blind_is_branch).
  unfold is_branch, is_Try, is_ExceptHandler, is_FunctionDef,
    is_AsyncFunctionDef, is_ClassDef, is_comprehension.
  rewrite erase_cls. reflexivity.
Qed.

Lemma import_step_erase imports n :
  import_step imports (erase n) = import_step imports n.
Proof.
  unfold import_step. rewrite erase_cls, field_erase.
  destruct (cls n); try reflexivity.
  generalize imports. induction (field "names" n) as [|a l IH]; intros i;
    [reflexivity|].
  simpl. rewrite IH. f_equal. unfold import_alias.
  rewrite !(blind_name_of a). reflexivity.
Qed.
End Agreement.

Lemma flat_map_agree {A} (f : node -> list A) l1 : forall l2,
  map erase l1 = map erase l2 ->
  (forall n1 n2, In n1 l1 -> In n2 l2 -> erase n1 = erase n2 -> f n1 = f n2) ->
  flat_map f l1 = flat_map f l2.
Proof.
  induction l1 as [|n1 l1 IH]; intros [|n2 l2] E Hf; try discriminate;
    [reflexivity|].
  simpl in E. injection E as En El. simpl.
  rewrite (Hf n1 n2), (IH l2 El).
  - reflexivity.
  - intros x y Hx Hy. apply Hf; right; assumption.
  - left. reflexivity.
  - left. reflexivity.
  - exact En.
Qed.

Lemma fold_left_agree {A} (step : A -> node -> A) l1 : forall l2 a,
  map erase l1 = map erase l2 ->
  (forall a n1 n2, erase n1 = erase n2 -> step a n1 = step a n2) ->
  fold_left step l1 a = fold_left step l2 a.
Proof.
  induction l1 as [|n1 l1 IH]; intros [|n2 l2] a E Hs; try discriminate;
    [reflexivity|].
  simpl in E. injection E as En El. simpl.
  rewrite (Hs a n1 n2 En). apply IH; assumption.
Qed.

Lemma walk_agree t1 t2 :
  erase t1 = erase t2 -> map erase (walk t1) = map erase (walk t2).
Proof. intros E. rewrite <- !walk_erase, E. reflexivity. Qed.

Section Patterns.
Context `{Interpreter}.

Lemma function_pattern_erase n content :
  _analyze_function_pattern (erase n) content
  = _analyze_function_pattern n content.
Proof.
  unfold _analyze_function_pattern.
  rewrite blind_name_of, blind_arg_names, blind_line_of, walk_erase,
    omap_lineno_erase, blind_get_docstring,
    !count_if_erase by auto using blind_is_Return, blind_is_branch.
  reflexivity.
Qed.

Lemma class_pattern_erase n content :
  forallb is_Name (field "bases" n) = true ->
  _analyze_class_pattern (erase n) content = _analyze_class_pattern n content.
Proof.
  intros Hb. unfold _analyze_class_pattern.
  rewrite blind_name_of, blind_line_of, blind_get_docstring, field_erase,
    id_or_str_erase, methods_of_erase, length_map by assumption.
  rewrite existsb_erase; [reflexivity|].
  intros m. rewrite blind_name_of. reflexivity.
Qed.

Lemma loop_pattern_agree n1 n2 content :
  erase n1 = erase n2 -> is_loop n1 = true ->
  distinct_loops n1 -> distinct_loops n2 ->
  _analyze_loop_pattern n1 content = _analyze_loop_pattern n2 content.
Proof.
  intros E L1 D1 D2.
  assert (L2 : is_loop n2 = true)
    by (rewrite <- (blind_agree is_loop n1 n2 blind_is_loop E); exact L1).
  unfold _analyze_loop_pattern.
  rewrite !nested_loops_distinct by assumption.
  rewrite (blind_agree is_For n1 n2),
    (blind_agree line_of n1 n2),
    (blind_agree (fun n => count_if is_loop (walk n)) n1 n2),
    (blind_agree (fun n => count_if is_Break (walk n)) n1 n2),
    (blind_agree (fun n => count_if is_Continue (walk n)) n1 n2);
    auto using blind_line_of, blind_is_loop, blind_count_walk,
      blind_is_Break, blind_is_Continue.
  intros n. unfold is_For. rewrite erase_cls. reflexivity.
Qed.

Lemma pattern_step_agree content n1 n2 :
  erase n1 = erase n2 -> names_only n1 = true ->
  distinct_loops n1 -> distinct_loops n2 ->
  pattern_step content n1 = pattern_step content n2.
Proof.
  intros E Hn D1 D2.
  assert (Hn2 : names_only n2 = true)
    by (rewrite <- (blind_agree names_only n1 n2 blind_names_only E); exact Hn).
  assert (Ec : cls n1 = cls n2)
    by (apply (blind_agree cls); [intros n; apply erase_cls | exact E]).
  unfold pattern_step, is_FunctionDef, is_ClassDef, is_loop.
  rewrite <- Ec. unfold names_only in Hn, Hn2. rewrite <- Ec in Hn2.
  destruct (cls n1) eqn:Ec1; try reflexivity.
  - rewrite <- (function_pattern_erase n1), <- (function_pattern_erase n2), E.
    reflexivity.
  - apply andb_true_iff in Hn, Hn2. destruct Hn as [Hb _], Hn2 as [Hb2 _].
    rewrite <- (class_pattern_erase n1), <- (class_pattern_erase n2), E
      by assumption.
    reflexivity.
  - rewrite (loop_pattern_agree n1 n2); auto.
    unfold is_loop. rewrite Ec1. reflexivity.
  - rewrite (loop_pattern_agree n1 n2); auto.
    unfold is_loop. rewrite Ec1. reflexivity.
Qed.

Lemma function_step_agree n1 n2 :
  erase n1 = erase n2 -> names_only n1 = true ->
  function_step n1 = function_step n2.
Proof.
  intros E Hn.
  assert (Hn2 : names_only n2 = true)
    by (rewrite <- (blind_agree names_only n1 n2 blind_names_only E); exact Hn).
  rewrite <- (function_step_erase n1 Hn), <- (function_step_erase n2 Hn2), E.
  reflexivity.
Qed.

Lemma class_step_agree n1 n2 :
  erase n1 = erase n2 -> names_only n1 = true ->
  class_step n1 = class_step n2.
Proof.
  intros E Hn.
  assert (Hn2 : names_only n2 = true)
    by (rewrite <- (blind_agree names_only n1 n2 blind_names_only E); exact Hn).
  rewrite <- (class_step_erase n1 Hn), <- (class_step_erase n2 Hn2), E.
  reflexivity.
Qed.

(** The parts of the analysis read from the tree agree on two parses. *)
Lemma tree_analysis_agrees t1 t2 content :
  erase t1 = erase t2 ->
  distinct_loops t1 -> distinct_loops t2 ->
  forallb names_only (subnodes t1) = true ->
  _calculate_complexity t1 = _calculate_complexity t2
  /\ _extract_patterns t1 content = _extract_patterns t2 content
  /\ _analyze_functions t1 = _analyze_functions t2
  /\ _analyze_classes t1 = _analyze_classes t2
  /\ _analyze_imports t1 = _analyze_imports t2.
Proof.
  intros E D1 D2 Hn.
  assert (Ew := walk_agree t1 t2 E).
  assert (Hsub1 : forall n, In n (walk t1) -> In n (subnodes t1))
    by (intros n; apply Permutation_in, walk_visits_all).
  assert (Hsub2 : forall n, In n (walk t2) -> In n (subnodes t2))
    by (intros n; apply Permutation_in, walk_visits_all).
  rewrite forallb_forall in Hn.
  repeat split.
  - apply fold_left_agree; [exact Ew|]. intros m n1 n2 En.
    rewrite <- (complexity_step_erase m n1), <- (complexity_step_erase m n2), En.
    reflexivity.
  - apply flat_map_agree; [exact Ew|]. intros n1 n2 H1 H2 En.
    apply pattern_step_agree; auto.
    + eapply distinct_loops_subtree; eauto.
    + eapply distinct_loops_subtree; eauto.
  - apply flat_map_agree; [exact Ew|]. intros n1 n2 H1 H2 En.
    apply function_step_agree; auto.
  - apply flat_map_agree; [exact Ew|]. intros n1 n2 H1 H2 En.
    apply class_step_agree; auto.
  - apply fold_left_agree; [exact Ew|]. intros m n1 n2 En.
    rewrite <- (import_step_erase m n1), <- (import_step_erase m n2), En.
    reflexivity.
Qed.
End Patterns.

Section RepeatedAnalysis.
Context `{Interpreter}.

Lemma score_ignores_time file_path content tree t t' :
  _calculate_quality_score (analysis_of file_path content tree t)
  = _calculate_quality_score (analysis_of file_path content tree t').
Proof. reflexivity. Qed.

Lemma analysis_without_time w file_path content tree :
  read_file w file_path = Returns content ->
  ast_parse w content = Returns tree ->
  delete "analyzed_at" (analyze_file w file_path)
  = delete "analyzed_at"
      (<["code_quality_score" :=
           VFloat (_calculate_quality_score
                     (analysis_of file_path content tree 0))]>
         (analysis_of file_path content tree 0)).
Proof.
  intros Hr Hp. rewrite (analyze_file_success _ _ _ _ Hr Hp).
  rewrite (score_ignores_time _ _ _ (time_time w) 0).
  rewrite !(delete_insert_ne _ "analyzed_at" "code_quality_score") by done.
  unfold analysis_of. rewrite !delete_insert_eq. reflexivity.
Qed.

(** C8, as amended.  Two runs that read the same text under the same
    path, and whose parses return the same tree up to the identity of
    its nodes, return results equal in every field but [analyzed_at],
    provided every base class and every decorator of a class or sync
    function is a plain name (and the loop nodes of each tree are
    distinct objects, as they are in a parsed tree). *)
Theorem repeated_analysis_agrees w1 w2 file_path content t1 t2 :
  read_file w1 file_path = Returns content ->
  read_file w2 file_path = Returns content ->
  ast_parse w1 content = Returns t1 ->
  ast_parse w2 content = Returns t2 ->
  erase t1 = erase t2 ->
  distinct_loops t1 -> distinct_loops t2 ->
  forallb names_only (subnodes t1) = true ->
  delete "analyzed_at" (analyze_file w1 file_path)
  = delete "analyzed_at" (analyze_file w2 file_path).
Proof.
  intros Hr1 Hr2 Hp1 Hp2 E D1 D2 Hn.
  rewrite (analysis_without_time _ _ _ _ Hr1 Hp1),
    (analysis_without_time _ _ _ _ Hr2 Hp2).
  destruct (tree_analysis_agrees t1 t2 content E D1 D2 Hn)
    as (Ec & Ep & Ef & Ecl & Ei).
  unfold _calculate_quality_score, score_before_clamp, analysis_of.
  change (get_bugs _) with (_detect_potential_bugs content).
  rewrite Ec, Ep, Ef, Ecl, Ei. reflexivity.
Qed.
End RepeatedAnalysis.

(** ** The properties at explicit inputs *)

Lemma quality_score_in_range_witness :
  let d := @analyze_file ascii_interpreter commented_world sample_path in
  dom d = success_keys
  /\ d !! "error" = None
  /\ exists q, d !! "code_quality_score" = Some (VFloat q)
               /\ (0 <= q <= 100)%Q.
Proof.
  exact (@quality_score_in_range ascii_interpreter commented_world
           sample_path commented_content documented_tree eq_refl eq_refl).
Defined.

Lemma failure_variant_only_witness :
  is_failure sample_path
    (py "[Errno 2] No such file or directory: 'sample.py'") sample_time
    (@analyze_file ascii_interpreter (world_without_files sample_time)
       sample_path)
  /\ is_failure sample_path (py "'(' was never closed (<unknown>, line 1)")
       sample_time
       (@analyze_file ascii_interpreter
          (world_of_invalid (py "print(") sample_time) sample_path).
Proof.
  split.
  - apply (proj1 (@failure_variant_only ascii_interpreter
                    (world_without_files sample_time) sample_path)).
    reflexivity.
  - apply (proj1 (proj2 (@failure_variant_only ascii_interpreter
                           (world_of_invalid (py "print(") sample_time)
                           sample_path)) (py "print(")); reflexivity.
Defined.

Lemma empty_file_analysis_witness :
  let d := @analyze_file ascii_interpreter empty_world sample_path in
  dom d = success_keys
  /\ d !! "potential_bugs" = Some (VBugs [])
  /\ d !! "optimization_opportunities" = Some (VOptimizations [])
  /\ d !! "functions" = Some (VFunctions [])
  /\ (exists m, d !! "complexity" = Some (VComplexity m)
                /\ m !!! "max_function_complexity" = 0)
  /\ d !! "code_quality_score" = Some (VFloat 100).
Proof.
  exact (@empty_file_analysis ascii_interpreter empty_world sample_path
           empty_tree eq_refl eq_refl eq_refl eq_refl).
Defined.

Example commented_file_diagnostics :
  @_detect_potential_bugs ascii_interpreter commented_content = [bare_except_bug]
  /\ @_detect_potential_bugs ascii_interpreter documented_content = [].
Proof. split; vm_compute; reflexivity. Qed.



(** In binary64 the score does not go down by exactly 10 either when
    nothing is clamped: with one of three functions documented, three
    and four high-severity diagnostics score 73.33333333333333 and
    63.333333333333336. *)
Example high_severity_lowers_by_less_than_10 :
  let d0 := @analyze_file ascii_interpreter (three_functions_world 3)
              sample_path in
  let d1 := @analyze_file ascii_interpreter (three_functions_world 4)
              sample_path in
  let s0 := quality_score_binary64 d0 in
  let s1 := quality_score_binary64 d1 in
  (exists b, bug_severity b = High /\ get_bugs d1 = get_bugs d0 ++ [b])
  /\ get_complexity d1 = get_complexity d0
  /\ get_functions d1 = get_functions d0
  /\ s0 = S754_finite false 5160374573028693 (-46)
  /\ s1 = S754_finite false 8913374262504107 (-47)
  /\ (b64_to_Q s0 - b64_to_Q s1 < 10)%Q
  /\ b64_sub s0 s1 <> b64_of_Z 10
  /\ s1 <> b64_sub s0 (b64_of_Z 10).
Proof.
  cbv zeta. split; [|split; [|split; [|split; [|split; [|split; [|split]]]]]].
  - eexists. split; [|vm_compute; reflexivity]. reflexivity.
  - vm_compute. reflexivity.
  - vm_compute. reflexivity.
  - vm_compute. reflexivity.
  - vm_compute. reflexivity.
  - vm_compute. reflexivity.
  - vm_compute. discriminate.
  - vm_compute. discriminate.
Qed.

Lemma complexity_metrics_witness :
  local_complexity documented_function
  <= _calculate_complexity documented_tree !!! "max_function_complexity".
Proof.
  apply (proj2 (proj2 (proj2 (proj2 (proj2 (proj2 (proj2
           (complexity_metrics documented_tree)))))))).
  - vm_compute. right. left. reflexivity.
  - reflexivity.
Defined.

Lemma async_functions_counted_not_listed_witness :
  local_complexity async_function
  <= _calculate_complexity async_tree !!! "max_function_complexity"
  /\ complexity_step ∅ async_function !!! "functions"
     = S ((∅ : gmap string nat) !!! "functions")
  /\ @pattern_step ascii_interpreter [] async_function = []
  /\ @function_step ascii_interpreter async_function = [].
Proof.
  destruct (@async_functions_counted_not_listed ascii_interpreter
              async_tree []) as (_ & Hstep & Hmax & Hnone & _).
  split; [|split].
  - apply Hmax; [|reflexivity]. vm_compute. right. left. reflexivity.
  - apply (proj1 (Hstep ∅ async_function eq_refl)).
  - apply (Hnone async_function eq_refl).
Defined.

Example async_function_counted :
  _calculate_complexity async_tree !!! "functions" = 1
  /\ _calculate_complexity async_tree !!! "max_function_complexity" = 1
  /\ @_extract_patterns ascii_interpreter async_tree [] = []
  /\ @_analyze_functions ascii_interpreter async_tree = [].
Proof. repeat split; vm_compute; reflexivity. Qed.

Lemma import_classification_witness :
  (In (py "." ++ py "pkg") (relative (_analyze_imports relative_tree))
   /\ standard_of relative_import = []
   /\ third_party_of relative_import = [])
  /\ In (py "os.path") (standard (_analyze_imports plain_import_tree))
  /\ In (py "numpy") (third_party (_analyze_imports plain_import_tree)).
Proof.
  split; [|split].
  - apply (proj1 (proj2 (proj2 (proj2 (import_classification relative_tree))))
             relative_import (Some (py "pkg")) 1).
    + vm_compute. right. left. reflexivity.
    + reflexivity.
  - apply (proj2 (proj2 (proj2 (proj2 (import_classification plain_import_tree))))
             plain_import
             (Node (alias (py "os.path")) (Some 1) 139887445557200 [])).
    + vm_compute. right. left. reflexivity.
    + reflexivity.
    + left. reflexivity.
  - apply (proj2 (proj2 (proj2 (proj2 (import_classification plain_import_tree))))
             plain_import
             (Node (alias (py "numpy")) (Some 1) 139887445557392 [])).
    + vm_compute. right. left. reflexivity.
    + reflexivity.
    + right. left. reflexivity.
Defined.

(** C7 as stated fails: the import of level 2 is listed with one dot. *)
Lemma relative_import_one_dot :
  cls relative_import = ImportFrom (Some (py "pkg")) 2
  /\ _analyze_imports relative_tree
     = {| standard := []; third_party := []; relative := [py ".pkg"] |}
  /\ dotted (Some (py "pkg")) 2 = py "..pkg"
  /\ ~ In (dotted (Some (py "pkg")) 2) (relative (_analyze_imports relative_tree)).
Proof.
  split; [reflexivity|]. split; [vm_compute; reflexivity|].
  split; [reflexivity|].
  vm_compute. intros [E|[]]. discriminate E.
Qed.

Lemma repeated_analysis_agrees_witness :
  delete "analyzed_at"
    (@analyze_file ascii_interpreter
       (world_of plain_content (plain_tree 139887445556624) sample_time)
       sample_path)
  = delete "analyzed_at"
      (@analyze_file ascii_interpreter
         (world_of plain_content (plain_tree 140214513201552)
            (sample_time + 60))
         sample_path).
Proof.
  apply (@repeated_analysis_agrees ascii_interpreter _ _ sample_path
           plain_content (plain_tree 139887445556624)
           (plain_tree 140214513201552)); try reflexivity.
  - unfold distinct_loops. vm_compute.
    constructor; [intros [E|[]]; discriminate E|].
    constructor; [intros []|constructor].
  - unfold distinct_loops. vm_compute.
    constructor; [intros [E|[]]; discriminate E|].
    constructor; [intros []|constructor].
Defined.

(** C8 as stated fails: two parses of the same text, the same tree up
    to where its nodes are allocated, and different [base_classes]. *)
Lemma attribute_base_differs :
  let d1 := @analyze_file ascii_interpreter
              (world_of attribute_base_content
                 (attribute_base_tree 139887445556624) sample_time)
              sample_path in
  let d2 := @analyze_file ascii_interpreter
              (world_of attribute_base_content
                 (attribute_base_tree 140214513201552) sample_time)
              sample_path in
  erase (attribute_base_tree 139887445556624)
  = erase (attribute_base_tree 140214513201552)
  /\ (exists c1, d1 !! "classes" = Some (VClasses [c1])
        /\ ci_base_classes c1 = [py "<ast.Attribute object at 0x7f3a15803fd0>"])
  /\ (exists c2, d2 !! "classes" = Some (VClasses [c2])
        /\ ci_base_classes c2 = [py "<ast.Attribute object at 0x7f863c4073d0>"])
  /\ delete "analyzed_at" d1 <> delete "analyzed_at" d2.
Proof.
  intros d1 d2. split; [reflexivity|].
  split; [eexists; split; vm_compute; reflexivity|].
  split; [eexists; split; vm_compute; reflexivity|].
  intros E.
  assert (E' : delete "analyzed_at" d1 !! "classes"
               = delete "analyzed_at" d2 !! "classes") by (rewrite E; reflexivity).
  vm_compute in E'. discriminate E'.
Qed.

(** On text that holds a LF the three multi-line rules do fire. *)
Example multi_line_text_fires :
  @re_search ascii_interpreter
    (py "abcdefghijklmnopqrstuvwx" ++ [LF] ++ py "abcdefghijklmnopqrstuvwx")
    (get_or "duplicate_code" Empty (map (fun r => (fst r, snd (snd r))) bug_patterns))
  = true
  /\ @re_search ascii_interpreter
       (py "for x in xs:" ++ [LF] ++ py "    out.append(x)")
       (get_or "list_comprehension" Empty optimization_patterns) = true
  /\ @re_search ascii_interpreter
       (py "a = f(1)" ++ [LF] ++ py "b = f(1)")
       (get_or "repeated_calculation" Empty optimization_patterns) = true.
Proof. repeat split; vm_compute; reflexivity. Qed.

Lemma multi_line_rules_never_fire_witness :
  ~ In LF (py "# except:")
  /\ requires LF
       (cats [Group 1 (Repeat 20 None true Dot); Lit LF;
              Repeat 0 None false (cats [star Dot; Lit LF]); Backref 1])
     = true.
Proof.
  destruct (@multi_line_rules_never_fire ascii_interpreter commented_content)
    as (Hdup & _ & Hline & _).
  split.
  - apply Hline. vm_compute. right. right. left. reflexivity.
  - apply (Hdup "(.{20,})\n(?:.*\n)*?\1"). right. left. reflexivity.
Defined.

(** * Further properties *)

(** ** The diagnostics and hints of the scan *)

Lemma in_combine_seq {A} (l : list A) : forall start n x,
  In (n, x) (combine (seq start (length l)) l)
  <-> start <= n /\ nth_error l (n - start) = Some x.
Proof.
  induction l as [|y l IH]; intros start n x; simpl.
  - split; [contradiction|]. intros [_ E]. destruct (n - start); discriminate.
  - rewrite IH. split.
    + intros [E|[Hle Hn]].
      * injection E as <- <-. rewrite Nat.sub_diag. split; [lia|reflexivity].
      * split; [lia|]. replace (n - start) with (S (n - S start)) by lia.
        exact Hn.
    + intros [Hle Hn]. destruct (n - start) as [|k] eqn:Ek.
      * left. simpl in Hn. injection Hn as <-. f_equal. lia.
      * right. split; [lia|]. simpl in Hn.
        replace (n - S start) with k by lia. exact Hn.
Qed.

Lemma enumerate1_In {A} (l : list A) n x :
  In (n, x) (enumerate1 l) <-> 1 <= n /\ nth_error l (n - 1) = Some x.
Proof. apply in_combine_seq. Qed.

Lemma bug_rule_known rule text pattern :
  In (rule, (text, pattern)) bug_patterns ->
  _assess_bug_severity rule <> Critical
  /\ In rule ["unused_variable"; "duplicate_code"; "long_line"; "deep_nesting";
              "magic_number"; "bare_except"; "mutable_default";
              "global_variable"].
Proof.
  unfold bug_patterns. simpl. intros Hin.
  repeat (destruct Hin as [Hin|Hin];
          [injection Hin as <- _ _; split; [discriminate | simpl; tauto]|]).
  contradiction.
Qed.

Lemma hint_rule_known rule pattern :
  In (rule, pattern) optimization_patterns ->
  _assess_optimization_impact rule <> LowImpact
  /\ _generate_optimization_suggestion rule [] <> "Consider optimization"
  /\ In rule ["list_comprehension"; "string_concatenation";
              "inefficient_membership"; "repeated_calculation"].
Proof.
  unfold optimization_patterns. simpl. intros Hin.
  repeat (destruct Hin as [Hin|Hin];
          [injection Hin as <- _;
           split; [discriminate | split; [discriminate | simpl; tauto]]|]).
  contradiction.
Qed.

Section ScanShape.
Context `{Interpreter}.

Lemma bugs_of_line_In b n line :
  In b (bugs_of_line (n, line)) <->
  exists rule text pattern,
    In (rule, (text, pattern)) bug_patterns
    /\ re_search line pattern = true
    /\ b = bug_of rule text n line.
Proof.
  unfold bugs_of_line. rewrite in_flat_map. split.
  - intros ([rule [text pattern]] & Hin & Hb).
    destruct (re_search line pattern) eqn:E; [|contradiction].
    destruct Hb as [<-|[]]. exists rule, text, pattern. auto.
  - intros (rule & text & pattern & Hin & E & ->).
    exists (rule, (text, pattern)). split; [exact Hin|].
    rewrite E. left. reflexivity.
Qed.

Lemma detected_bugs_In content b :
  In b (_detect_potential_bugs content) <->
  exists i line rule text pattern,
    nth_error (splitlines content) i = Some line
    /\ In (rule, (text, pattern)) bug_patterns
    /\ re_search line pattern = true
    /\ b = bug_of rule text (S i) line.
Proof.
  unfold _detect_potential_bugs. rewrite in_flat_map. split.
  - intros ([n line] & Hin & Hb). apply enumerate1_In in Hin.
    destruct Hin as [Hn Hline]. apply bugs_of_line_In in Hb.
    destruct Hb as (rule & text & pattern & Hr & E & ->).
    exists (n - 1), line, rule, text, pattern.
    replace (S (n - 1)) with n by lia. auto.
  - intros (i & line & rule & text & pattern & Hline & Hr & E & ->).
    exists (S i, line). split.
    + apply enumerate1_In. simpl. rewrite Nat.sub_0_r. split; [lia|exact Hline].
    + apply bugs_of_line_In. exists rule, text, pattern. auto.
Qed.

Lemma detected_bug_line_bounds content b :
  In b (_detect_potential_bugs content) ->
  1 <= bug_line b <= length (splitlines content).
Proof.
  intros Hin. apply detected_bugs_In in Hin.
  destruct Hin as (i & line & rule & text & pattern & Hline & _ & _ & ->).
  simpl.
  assert (i < length (splitlines content))
    by (apply nth_error_Some; congruence).
  lia.
Qed.

(** X1. A diagnostic is emitted exactly for a line of the text and a
    rule of the table whose pattern is found in that line; it then
    carries the 1-based number of the line, the line without its
    surrounding whitespace, the text of the pattern and the severity the
    table gives the rule, which is never critical. *)
Theorem detected_bugs_characterized content b :
  (In b (_detect_potential_bugs content) <->
   exists i line rule text pattern,
     nth_error (splitlines content) i = Some line
     /\ In (rule, (text, pattern)) bug_patterns
     /\ re_search line pattern = true
     /\ b = bug_of rule text (S i) line)
  /\ (In b (_detect_potential_bugs content) ->
      1 <= bug_line b <= length (splitlines content)
      /\ bug_severity b = _assess_bug_severity (bug_type b)
      /\ bug_severity b <> Critical).
Proof.
  split; [apply detected_bugs_In|].
  intros Hin. apply detected_bugs_In in Hin.
  destruct Hin as (i & line & rule & text & pattern & Hline & Hr & _ & ->).
  simpl. split; [|split; [reflexivity|apply (bug_rule_known _ _ _ Hr)]].
  assert (i < length (splitlines content))
    by (apply nth_error_Some; congruence).
  lia.
Qed.

Lemma optimizations_of_line_In o n line :
  In o (optimizations_of_line (n, line)) <->
  exists rule pattern,
    In (rule, pattern) optimization_patterns
    /\ re_search line pattern = true
    /\ o = hint_of rule n line.
Proof.
  unfold optimizations_of_line. rewrite in_flat_map. split.
  - intros ([rule pattern] & Hin & Ho).
    destruct (re_search line pattern) eqn:E; [|contradiction].
    destruct Ho as [<-|[]]. exists rule, pattern. auto.
  - intros (rule & pattern & Hin & E & ->).
    exists (rule, pattern). split; [exact Hin|].
    rewrite E. left. reflexivity.
Qed.

Lemma found_optimizations_In content o :
  In o (_find_optimizations content) <->
  exists i line rule pattern,
    nth_error (splitlines content) i = Some line
    /\ In (rule, pattern) optimization_patterns
    /\ re_search line pattern = true
    /\ o = hint_of rule (S i) line.
Proof.
  unfold _find_optimizations. rewrite in_flat_map. split.
  - intros ([n line] & Hin & Ho). apply enumerate1_In in Hin.
    destruct Hin as [Hn Hline]. apply optimizations_of_line_In in Ho.
    destruct Ho as (rule & pattern & Hr & E & ->).
    exists (n - 1), line, rule, pattern.
    replace (S (n - 1)) with n by lia. auto.
  - intros (i & line & rule & pattern & Hline & Hr & E & ->).
    exists (S i, line). split.
    + apply enumerate1_In. simpl. rewrite Nat.sub_0_r. split; [lia|exact Hline].
    + apply optimizations_of_line_In. exists rule, pattern. auto.
Qed.

Lemma found_optimization_line_bounds content o :
  In o (_find_optimizations content) ->
  1 <= opt_line o <= length (splitlines content).
Proof.
  intros Hin. apply found_optimizations_In in Hin.
  destruct Hin as (i & line & rule & pattern & Hline & _ & _ & ->).
  simpl.
  assert (i < length (splitlines content))
    by (apply nth_error_Some; congruence).
  lia.
Qed.

(** X2. A hint is emitted exactly for a line of the text and a rule of
    the table whose pattern is found in that line; it carries the
    1-based number of the line, the line without its surrounding
    whitespace, and the suggestion and impact of the rule, which are
    never the fallback suggestion nor the low impact. *)
Theorem found_optimizations_characterized content o :
  (In o (_find_optimizations content) <->
   exists i line rule pattern,
     nth_error (splitlines content) i = Some line
     /\ In (rule, pattern) optimization_patterns
     /\ re_search line pattern = true
     /\ o = hint_of rule (S i) line)
  /\ (In o (_find_optimizations content) ->
      1 <= opt_line o <= length (splitlines content)
      /\ opt_impact o <> LowImpact
      /\ opt_suggestion o <> "Consider optimization").
Proof.
  split; [apply found_optimizations_In|].
  intros Hin. apply found_optimizations_In in Hin.
  destruct Hin as (i & line & rule & pattern & Hline & Hr & _ & ->).
  simpl. destruct (hint_rule_known _ _ Hr) as (Hi & Hs & _).
  split; [|split; [exact Hi | exact Hs]].
  assert (i < length (splitlines content))
    by (apply nth_error_Some; congruence).
  lia.
Qed.
End ScanShape.

(** ** What two of the rules find *)

Section ClassRuns.
Context `{Interpreter}.
Variable s : pystr.

(** An unbounded repetition of a pattern that reads one character of a
    class succeeds exactly when enough characters of the class follow
    and the rest of the pattern accepts after some such run. *)
Lemma rounds_of_class (p : N -> bool) step k lo greedy :
  (forall i caps k',
     step i caps k' = match nth_error s i with
                      | Some d => if p d then k' (S i) caps else false
                      | None => false
                      end) ->
  forall fuel count i caps,
    (lo - count) + (length s - i) < fuel ->
    rounds step k lo None greedy fuel count i caps = true
    <-> exists n, lo <= count + n /\ run_of s p i n /\ k (i + n) caps = true.
Proof.
  intros Hstep. induction fuel as [|fuel IH]; intros count i caps Hf; [lia|].
  simpl. rewrite Hstep.
  assert (Hor : forall a b : bool,
            (if greedy then (a || b)%bool else (b || a)%bool) = true
            <-> a = true \/ b = true).
  { intros a b. destruct greedy, a, b; simpl; tauto. }
  rewrite Hor. clear Hor. split.
  - intros [Hmore|Hstop].
    + destruct (nth_error s i) as [d|] eqn:Ed; [|discriminate].
      destruct (p d) eqn:Ep; [|discriminate].
      assert (Hi : i < length s) by (apply nth_error_Some; congruence).
      replace (Nat.eqb (S i) i) with false in Hmore
        by (symmetry; apply Nat.eqb_neq; lia).
      rewrite andb_false_r in Hmore.
      apply IH in Hmore; [|lia].
      destruct Hmore as (n & Hlo & Hrun & Hk).
      exists (S n). split; [lia|]. split.
      * intros [|m] Hm.
        -- rewrite Nat.add_0_r. eauto.
        -- destruct (Hrun m ltac:(lia)) as (e & He & Hp).
           exists e. replace (i + S m) with (S i + m) by lia. auto.
      * replace (i + S n) with (S i + n) by lia. exact Hk.
    + destruct (Nat.leb lo count) eqn:El; [|discriminate].
      apply Nat.leb_le in El. exists 0. rewrite !Nat.add_0_r.
      split; [lia|]. split; [intros m Hm; lia | exact Hstop].
  - intros (n & Hlo & Hrun & Hk). destruct n as [|n].
    + right. rewrite Nat.add_0_r in Hlo, Hk.
      apply Nat.leb_le in Hlo. rewrite Hlo. exact Hk.
    + left. destruct (Hrun 0 ltac:(lia)) as (d & Hd & Hp).
      rewrite Nat.add_0_r in Hd. rewrite Hd, Hp.
      assert (Hi : i < length s) by (apply nth_error_Some; congruence).
      replace (Nat.eqb (S i) i) with false
        by (symmetry; apply Nat.eqb_neq; lia).
      rewrite andb_false_r. apply IH; [lia|].
      exists n. split; [lia|]. split.
      * intros m Hm. destruct (Hrun (S m) ltac:(lia)) as (e & He & Hpe).
        exists e. replace (S i + m) with (i + S m) by lia. auto.
      * replace (S i + n) with (i + S n) by lia. exact Hk.
Qed.
End ClassRuns.

Lemma run_of_firstn p : forall n s,
  run_of s p 0 n <-> n <= length s /\ forallb p (firstn n s) = true.
Proof.
  unfold run_of. induction n as [|n IH]; intros s.
  - simpl. split; [intros _; split; [lia|reflexivity] | intros _ m Hm; lia].
  - destruct s as [|c s].
    + split.
      * intros Hrun. destruct (Hrun 0 ltac:(lia)) as (d & Hd & _). discriminate.
      * simpl. intros [Hle _]. lia.
    + simpl. rewrite andb_true_iff. split.
      * intros Hrun. destruct (Hrun 0 ltac:(lia)) as (d & Hd & Hp).
        simpl in Hd. injection Hd as ->.
        assert (Hrest : n <= length s /\ forallb p (firstn n s) = true).
        { apply (proj1 (IH s)). intros m Hm. destruct (Hrun (S m) ltac:(lia)) as (e & He & Hpe).
          exists e. auto. }
        destruct Hrest. split; [lia|]. auto.
      * intros [Hle [Hp Hall]] [|m] Hm.
        -- exists c. auto.
        -- assert (Hrest : n <= length s /\ forallb p (firstn n s) = true)
             by (split; [lia|exact Hall]).
           apply (proj2 (IH s) Hrest m). lia.
Qed.

Section Rules.
Context `{Interpreter}.

Lemma re_search_from_start line r :
  re_search line (Cat Bol r) = matches line r 0 [] (fun _ _ => true).
Proof.
  unfold re_search. rewrite <- cons_seq. cbn [existsb].
  assert (E : existsb (fun i => matches line (Cat Bol r) i [] (fun _ _ => true))
                      (seq 1 (length line)) = false).
  { apply not_true_is_false. intros Hex. apply existsb_exists in Hex.
    destruct Hex as (i & Hin & Hm). apply in_seq in Hin. simpl in Hm.
    destruct i; [lia|]. discriminate. }
  rewrite E, orb_false_r. reflexivity.
Qed.

Lemma matches_Cat line r1 r2 i caps k :
  matches line (Cat r1 r2) i caps k
  = matches line r1 i caps (fun j c => matches line r2 j c k).
Proof. reflexivity. Qed.

Lemma matches_Repeat line lo hi greedy r i caps k :
  matches line (Repeat lo hi greedy r) i caps k
  = rounds (matches line r) k lo hi greedy (lo + length line + 1) 0 i caps.
Proof. reflexivity. Qed.

Lemma matches_Group line n r i caps k :
  matches line (Group n r) i caps k
  = matches line r i caps (fun j c => k j ((n, (i, j)) :: c)).
Proof. reflexivity. Qed.

Lemma long_line_matches line :
  ~ In LF line ->
  re_search line long_line_pattern = true <-> 120 <= length line.
Proof.
  intros Hlf. unfold long_line_pattern, cats. simpl fold_right.
  rewrite re_search_from_start, matches_Cat, matches_Repeat.
  rewrite (rounds_of_class line (fun d => negb (N.eqb d LF)));
    [| intros i caps k'; simpl; destruct (nth_error line i) as [d|];
       [destruct (N.eqb d LF)|]; reflexivity
     | lia].
  split.
  - intros (n & Hlo & Hrun & _). apply run_of_firstn in Hrun. lia.
  - intros Hlen. exists (length line). split; [lia|]. split.
    + apply run_of_firstn. split; [lia|]. rewrite firstn_all.
      apply forallb_forall. intros d Hd. apply negb_true_iff.
      apply N.eqb_neq. intros ->. apply Hlf, Hd.
    + simpl. unfold at_end. rewrite Nat.eqb_refl. reflexivity.
Qed.

Lemma deep_nesting_matches line :
  re_search line deep_nesting_pattern = true
  <-> 12 <= length line /\ forallb is_space (firstn 12 line) = true.
Proof.
  unfold deep_nesting_pattern, cats. simpl fold_right.
  rewrite re_search_from_start, matches_Cat, matches_Group, matches_Repeat.
  rewrite (rounds_of_class line is_space);
    [| intros i caps k'; simpl; unfold in_set; simpl;
       destruct (nth_error line i) as [d|]; [rewrite orb_false_r|]; reflexivity
     | lia].
  rewrite <- run_of_firstn. split.
  - intros (n & Hlo & Hrun & _). intros m Hm. apply Hrun. lia.
  - intros Hrun. exists 12. split; [lia|]. split; [exact Hrun|reflexivity].
Qed.

Lemma bug_pattern_of_rule rule text pattern :
  In (rule, (text, pattern)) bug_patterns ->
  (rule = "long_line" -> pattern = long_line_pattern)
  /\ (rule = "deep_nesting" -> pattern = deep_nesting_pattern).
Proof.
  unfold bug_patterns. simpl. intros Hin.
  repeat (destruct Hin as [Hin|Hin];
          [injection Hin as <- _ <-;
           split; intros E; first [discriminate E | reflexivity]|]).
  contradiction.
Qed.

(** X4. Line number [i + 1] gets a [long_line] diagnostic exactly when
    the line has at least 120 characters. *)
Theorem long_line_flagged content i line :
  nth_error (splitlines content) i = Some line ->
  (exists b, In b (_detect_potential_bugs content)
             /\ bug_type b = "long_line" /\ bug_line b = S i)
  <-> 120 <= length line.
Proof.
  intros Hline.
  assert (Hlf : ~ In LF line)
    by (apply (splitlines_no_LF content), (nth_error_In _ _ Hline)).
  split.
  - intros (b & Hin & Ht & Hl). apply detected_bugs_In in Hin.
    destruct Hin as (j & line' & rule & text & pattern & Hj & Hr & Hm & ->).
    simpl in Ht, Hl. injection Hl as ->. rewrite Hline in Hj.
    injection Hj as <-.
    rewrite (proj1 (bug_pattern_of_rule _ _ _ Hr) Ht) in Hm.
    apply (long_line_matches line Hlf). exact Hm.
  - intros Hlen. exists (bug_of "long_line" "^.{120,}$" (S i) line).
    split; [|split; reflexivity].
    apply detected_bugs_In.
    exists i, line, "long_line", "^.{120,}$", long_line_pattern.
    split; [exact Hline|]. split; [|split; [|reflexivity]].
    + unfold bug_patterns. simpl. tauto.
    + apply (long_line_matches line Hlf). exact Hlen.
Qed.

(** X5. Line number [i + 1] gets a [deep_nesting] diagnostic exactly
    when the line begins with at least twelve whitespace characters. *)
Theorem deep_nesting_flagged content i line :
  nth_error (splitlines content) i = Some line ->
  (exists b, In b (_detect_potential_bugs content)
             /\ bug_type b = "deep_nesting" /\ bug_line b = S i)
  <-> 12 <= length line /\ forallb is_space (firstn 12 line) = true.
Proof.
  intros Hline. split.
  - intros (b & Hin & Ht & Hl). apply detected_bugs_In in Hin.
    destruct Hin as (j & line' & rule & text & pattern & Hj & Hr & Hm & ->).
    simpl in Ht, Hl. injection Hl as ->. rewrite Hline in Hj.
    injection Hj as <-.
    rewrite (proj2 (bug_pattern_of_rule _ _ _ Hr) Ht) in Hm.
    apply deep_nesting_matches. exact Hm.
  - intros Hdeep. exists (bug_of "deep_nesting" "^(\s{12,})" (S i) line).
    split; [|split; reflexivity].
    apply detected_bugs_In.
    exists i, line, "deep_nesting", "^(\s{12,})", deep_nesting_pattern.
    split; [exact Hline|]. split; [|split; [|reflexivity]].
    + unfold bug_patterns. simpl. tauto.
    + apply deep_nesting_matches. exact Hdeep.
Qed.
End Rules.

(** ** The order of the diagnostics and hints *)

Lemma sublist_flat_map_if {A B C} (test : A -> bool) (mk : A -> B)
      (key : B -> C) (slot : A -> C) l :
  (forall a, key (mk a) = slot a) ->
  map key (flat_map (fun a => if test a then [mk a] else []) l)
  `sublist_of` map slot l.
Proof.
  intros Hkey. induction l as [|a l IH]; simpl; [constructor|].
  destruct (test a); simpl.
  - rewrite Hkey. apply sublist_skip, IH.
  - apply sublist_cons, IH.
Qed.

Lemma sublist_flat_map_lines {A B C} (f : nat * A -> list B) (key : B -> C)
      (slots : nat -> list C) (l : list A) : forall start,
  (forall n x, map key (f (n, x)) `sublist_of` slots n) ->
  map key (flat_map f (combine (seq start (length l)) l))
  `sublist_of` flat_map slots (seq start (length l)).
Proof.
  intros start Hf. revert start.
  induction l as [|x l IH]; intros start; simpl; [constructor|].
  rewrite map_app. apply sublist_app; [apply Hf | apply IH].
Qed.

Lemma rule_slots_In (names : list string) : forall n start i r,
  In (i, r) (flat_map (fun i => map (fun r => (i, r)) names) (seq start n))
  <-> start <= i < start + n /\ In r names.
Proof.
  intros n start i r. rewrite in_flat_map. split.
  - intros (j & Hj & Hin). apply in_seq in Hj. apply in_map_iff in Hin.
    destruct Hin as (r' & E & Hr). injection E as <- <-. auto.
  - intros [Hi Hr]. exists i. split; [apply in_seq; exact Hi|].
    apply in_map_iff. exists r. auto.
Qed.

Lemma rule_slots_sorted (names : list string) : forall n start,
  StronglySorted le
    (map fst (flat_map (fun i => map (fun r : string => (i, r)) names)
                       (seq start n))).
Proof.
  induction n as [|n IH]; intros start; simpl; [constructor|].
  rewrite map_app.
  assert (Hgen : forall l rest,
    StronglySorted le rest -> List.Forall (le start) rest ->
    StronglySorted le (map fst (map (fun r : string => (start, r)) l) ++ rest)).
  { induction l as [|r l IHl]; intros rest Hs Hall; simpl; [exact Hs|].
    constructor; [apply IHl; assumption|].
    apply List.Forall_app. split; [|exact Hall].
    apply List.Forall_forall. intros x Hx.
    rewrite List.map_map in Hx. apply in_map_iff in Hx.
    destruct Hx as (r' & <- & _). simpl. lia. }
  apply Hgen; [apply IH|].
  apply List.Forall_forall. intros x Hx. apply in_map_iff in Hx.
  destruct Hx as ([i r] & <- & Hin). apply rule_slots_In in Hin. simpl. lia.
Qed.

Lemma rule_slots_NoDup (names : list string) : NoDup names -> forall n start,
  NoDup (flat_map (fun i => map (fun r : string => (i, r)) names)
                  (seq start n)).
Proof.
  intros Hnames. induction n as [|n IH]; intros start; simpl; [constructor|].
  apply NoDup_app. split; [|split].
  - apply (NoDup_fmap_2_strong (fun r : string => (start, r)));
      [|exact Hnames].
    intros r r' _ _ E. injection E as ->. reflexivity.
  - intros [i r] Hin Hin'. apply list_elem_of_In in Hin, Hin'.
    apply in_map_iff in Hin. destruct Hin as (r' & E & _). injection E as <- <-.
    apply rule_slots_In in Hin'. lia.
  - apply IH.
Qed.

Lemma rule_slots_length (names : list string) n :
  length (rule_slots names n) = n * length names.
Proof.
  unfold rule_slots. generalize 1.
  induction n as [|n IH]; intros start; simpl; [reflexivity|].
  rewrite length_app, length_map, IH. reflexivity.
Qed.

Lemma sublist_StronglySorted {A} (R : A -> A -> Prop) l1 l2 :
  l1 `sublist_of` l2 -> StronglySorted R l2 -> StronglySorted R l1.
Proof.
  induction 1 as [|x l1 l2 Hsub IH|x l1 l2 Hsub IH]; intros Hs.
  - constructor.
  - apply StronglySorted_inv in Hs. destruct Hs as [Hs Hall].
    constructor; [apply IH, Hs|].
    apply List.Forall_forall. intros y Hy.
    rewrite List.Forall_forall in Hall. apply Hall.
    apply list_elem_of_In. eapply elem_of_sublist; [|exact Hsub].
    apply list_elem_of_In, Hy.
  - apply StronglySorted_inv in Hs. destruct Hs as [Hs _]. apply IH, Hs.
Qed.

Section Order.
Context `{Interpreter}.

Lemma bug_slots_sublist content :
  map bug_slot (_detect_potential_bugs content)
  `sublist_of` rule_slots (map fst bug_patterns) (length (splitlines content)).
Proof.
  unfold _detect_potential_bugs, enumerate1, rule_slots.
  apply sublist_flat_map_lines. intros k line. unfold bugs_of_line.
  rewrite List.map_map.
  apply (sublist_flat_map_if
           (fun rule : string * (string * regex) =>
              re_search line (snd (snd rule)))
           (fun rule => bug_of (fst rule) (fst (snd rule)) k line)
           bug_slot (fun rule => (k, fst rule)) bug_patterns).
  reflexivity.
Qed.

Lemma hint_slots_sublist content :
  map hint_slot (_find_optimizations content)
  `sublist_of` rule_slots (map fst optimization_patterns)
                 (length (splitlines content)).
Proof.
  unfold _find_optimizations, enumerate1, rule_slots.
  apply sublist_flat_map_lines. intros k line. unfold optimizations_of_line.
  rewrite List.map_map.
  apply (sublist_flat_map_if
           (fun rule : string * regex => re_search line (snd rule))
           (fun rule => hint_of (fst rule) k line)
           hint_slot (fun rule => (k, fst rule)) optimization_patterns).
  reflexivity.
Qed.

(** X3. The diagnostics come line by line and, within a line, in the
    order of the table of rules, at most one per line and rule: their
    line numbers never decrease, no two diagnostics share both line and
    rule, and there are at most eight per line.  The same holds for the
    hints, with at most four per line. *)
Theorem scan_output_ordered content :
  let bugs := _detect_potential_bugs content in
  let hints := _find_optimizations content in
  let n := length (splitlines content) in
  (map bug_slot bugs `sublist_of` rule_slots (map fst bug_patterns) n
   /\ StronglySorted le (map bug_line bugs)
   /\ List.NoDup (map bug_slot bugs)
   /\ length bugs <= 8 * n)
  /\ (map hint_slot hints
      `sublist_of` rule_slots (map fst optimization_patterns) n
      /\ StronglySorted le (map opt_line hints)
      /\ List.NoDup (map hint_slot hints)
      /\ length hints <= 4 * n).
Proof.
  intros bugs hints n. split.
  - assert (Hsub := bug_slots_sublist content). fold bugs n in Hsub.
    split; [exact Hsub|]. split; [|split].
    + replace (map bug_line bugs) with (map fst (map bug_slot bugs))
        by (rewrite List.map_map; reflexivity).
      eapply sublist_StronglySorted.
      * apply (fmap_sublist fst), Hsub.
      * apply rule_slots_sorted.
    + apply NoDup_ListNoDup.
      refine (sublist_NoDup _ _ _ Hsub).
      apply rule_slots_NoDup. apply NoDup_ListNoDup.
      unfold bug_patterns. simpl.
      repeat (constructor; [simpl; intuition discriminate|]). constructor.
    + apply sublist_length in Hsub. rewrite length_map in Hsub.
      rewrite rule_slots_length in Hsub. simpl in Hsub. lia.
  - assert (Hsub := hint_slots_sublist content). fold hints n in Hsub.
    split; [exact Hsub|]. split; [|split].
    + replace (map opt_line hints) with (map fst (map hint_slot hints))
        by (rewrite List.map_map; reflexivity).
      eapply sublist_StronglySorted.
      * apply (fmap_sublist fst), Hsub.
      * apply rule_slots_sorted.
    + apply NoDup_ListNoDup.
      refine (sublist_NoDup _ _ _ Hsub).
      apply rule_slots_NoDup. apply NoDup_ListNoDup.
      unfold optimization_patterns. simpl.
      repeat (constructor; [simpl; intuition discriminate|]). constructor.
    + apply sublist_length in Hsub. rewrite length_map in Hsub.
      rewrite rule_slots_length in Hsub. simpl in Hsub. lia.
Qed.
End Order.

(** ** Patterns, listings and metrics *)

Lemma filter_flat_map {A B} (p : B -> bool) (f : A -> list B) l :
  List.filter p (flat_map f l) = flat_map (fun x => List.filter p (f x)) l.
Proof.
  induction l as [|x l IH]; simpl; [reflexivity|].
  rewrite List.filter_app, IH. reflexivity.
Qed.

Lemma flat_map_map_step {A B C} (f : A -> list B) (g : B -> C) l :
  map g (flat_map f l) = flat_map (fun x => map g (f x)) l.
Proof.
  induction l as [|x l IH]; simpl; [reflexivity|].
  rewrite map_app, IH. reflexivity.
Qed.

Lemma existsb_map {A B} (p : B -> bool) (g : A -> B) l :
  existsb p (map g l) = existsb (fun x => p (g x)) l.
Proof. induction l as [|x l IH]; simpl; [|rewrite IH]; reflexivity. Qed.

Section Listings.
Context `{Interpreter}.

Lemma class_pattern_step content n :
  List.filter is_ClassPattern (pattern_step content n)
  = map class_pattern_of (class_step n).
Proof.
  unfold pattern_step, class_step, is_FunctionDef, is_ClassDef, is_loop.
  destruct (cls n); try reflexivity.
  simpl. unfold _analyze_class_pattern, class_pattern_of. simpl.
  rewrite length_map, existsb_map.
  destruct (get_docstring n); reflexivity.
Qed.

(** X6. The class patterns are, in the same order, the patterns of the
    entries of the class listing: same name and line, as many methods
    as the entry lists, the same bases, the docstring flag set when the
    entry has a docstring, and [has_init] set when [__init__] is among
    the listed methods. *)
Theorem class_patterns_match_listing tree content :
  List.filter is_ClassPattern (_extract_patterns tree content)
  = map class_pattern_of (_analyze_classes tree).
Proof.
  unfold _extract_patterns, _analyze_classes.
  rewrite filter_flat_map, flat_map_map_step.
  apply flat_map_ext. intros n. apply class_pattern_step.
Qed.

Lemma function_pattern_step content n :
  Forall2 function_agrees
    (List.filter is_FunctionPattern (pattern_step content n))
    (function_step n).
Proof.
  unfold pattern_step, function_step, is_FunctionDef, is_ClassDef, is_loop.
  destruct (cls n) eqn:Ec; try constructor; [|constructor].
  unfold _analyze_function_pattern, function_agrees. cbn [fi_name fi_args
    fi_line_number fi_returns_count fi_docstring].
  split; [reflexivity|]. split; [reflexivity|]. split; [reflexivity|].
  split; [reflexivity|]. split; [reflexivity|].
  split; [destruct (get_docstring n); reflexivity|].
  destruct (omap lineno (walk n)) as [|l ls]; lia.
Qed.

Lemma pattern_step_complexity content n p :
  In p (pattern_step content n) ->
  pattern_complexity p <= (if is_function n then local_complexity n else 0).
Proof.
  unfold pattern_step, is_function, is_FunctionDef, is_AsyncFunctionDef,
    is_ClassDef, is_loop.
  destruct (cls n); simpl; try contradiction;
    intros [<-|[]]; simpl; try lia.
  unfold local_complexity. rewrite count_if_walk. lia.
Qed.

(** X7. The function patterns and the entries of the function listing
    describe, in the same order, the same functions: same name and
    line, the signature made of the name and the listed arguments,
    [returns] set when the entry counts a return, the docstring flag set
    when the entry has a docstring, and a length of at least one line.
    No pattern records a complexity above [max_function_complexity].
    A function the score counts as documented has the docstring flag,
    and a function has the flag without being counted exactly when its
    docstring is the empty text. *)
Theorem function_patterns_match_listing tree content :
  Forall2 function_agrees
    (List.filter is_FunctionPattern (_extract_patterns tree content))
    (_analyze_functions tree)
  /\ (forall p, In p (_extract_patterns tree content) ->
        pattern_complexity p
        <= _calculate_complexity tree !!! "max_function_complexity")
  /\ (forall f, In f (_analyze_functions tree) ->
        has_docstring f = true -> is_some (fi_docstring f) = true)
  /\ (forall f, In f (_analyze_functions tree) ->
        (is_some (fi_docstring f) = true /\ has_docstring f = false)
        <-> fi_docstring f = Some []).
Proof.
  split; [|split; [|split]].
  - unfold _extract_patterns, _analyze_functions.
    rewrite filter_flat_map.
    induction (walk tree) as [|n l IH]; simpl; [constructor|].
    apply Forall2_app; [apply function_pattern_step | exact IH].
  - intros p Hin. unfold _extract_patterns in Hin.
    apply in_flat_map in Hin. destruct Hin as (n & Hn & Hp).
    apply pattern_step_complexity in Hp.
    destruct (calculate_complexity_walk tree) as (_ & C7). rewrite C7.
    destruct (is_function n) eqn:Ef; [|lia].
    etransitivity; [exact Hp|].
    apply max_local_complexity_bound; assumption.
  - intros f _. unfold has_docstring, truthy.
    destruct (fi_docstring f) as [[|c s]|]; simpl; congruence.
  - intros f _. unfold has_docstring, truthy.
    destruct (fi_docstring f) as [[|c s]|]; simpl; split;
      try (intros [? ?]; congruence); try discriminate; auto.
Qed.
End Listings.

Lemma length_flat_map {A B} (f : A -> list B) l :
  length (flat_map f l) = list_sum (map (fun x => length (f x)) l).
Proof.
  induction l as [|x l IH]; simpl; [reflexivity|].
  rewrite length_app, IH. reflexivity.
Qed.

Lemma list_sum_perm l l' : Permutation l l' -> list_sum l = list_sum l'.
Proof.
  induction 1 as [|x l l' _ IH|x y l|l l' l'' _ IH1 _ IH2]; simpl; lia.
Qed.

Lemma filter_partition_length {A} (p : A -> bool) l :
  length (List.filter p l) + length (List.filter (fun x => negb (p x)) l)
  = length l.
Proof.
  induction l as [|x l IH]; simpl; [reflexivity|].
  destruct (p x); simpl; lia.
Qed.

Lemma imported_names_split n :
  length (standard_of n) + length (third_party_of n) + length (relative_of n)
  = imported_names n.
Proof.
  unfold standard_of, third_party_of, relative_of, absolute_names,
    imported_names.
  destruct (cls n) as [| | | | | | | | | | | | |module level| | | | | | | | | | |];
    try reflexivity.
  - rewrite filter_partition_length, length_map. simpl. lia.
  - destruct level; [|reflexivity].
    rewrite filter_partition_length. reflexivity.
Qed.

(** X8. Every imported name lands in exactly one of the three lists:
    together they have one entry per name of every plain import and one
    per from-import.  The first dotted segment of every entry of
    [standard] is a standard module, that of no entry of [third_party]
    is, and every entry of [relative] begins with a dot. *)
Theorem imports_partition tree :
  let imports := _analyze_imports tree in
  length (standard imports) + length (third_party imports)
  + length (relative imports)
  = list_sum (map imported_names (subnodes tree))
  /\ List.Forall (fun x => in_stdlib (first_segment x) = true)
                 (standard imports)
  /\ List.Forall (fun x => in_stdlib (first_segment x) = false)
                 (third_party imports)
  /\ List.Forall (fun x => exists rest, x = 46%N :: rest) (relative imports).
Proof.
  intros imports. subst imports. unfold _analyze_imports.
  rewrite fold_import_step. simpl.
  split; [|split; [|split]].
  - rewrite <- (list_sum_perm _ _ (Permutation_map imported_names
                                       (walk_visits_all tree))).
    induction (walk tree) as [|n l IH]; [reflexivity|].
    simpl. rewrite !length_app, <- IH, <- imported_names_split. lia.
  - apply List.Forall_forall. intros x Hx. apply in_flat_map in Hx.
    destruct Hx as (n & _ & Hx). unfold standard_of in Hx.
    apply List.filter_In in Hx. apply Hx.
  - apply List.Forall_forall. intros x Hx. apply in_flat_map in Hx.
    destruct Hx as (n & _ & Hx). unfold third_party_of in Hx.
    apply List.filter_In in Hx. destruct Hx as [_ Hx].
    apply negb_true_iff in Hx. exact Hx.
  - apply List.Forall_forall. intros x Hx. apply in_flat_map in Hx.
    destruct Hx as (n & _ & Hx). unfold relative_of in Hx.
    destruct (cls n); try contradiction.
    destruct level; [contradiction|]. destruct Hx as [<-|[]].
    eexists. reflexivity.
Qed.

Section Consistency.
Context `{Interpreter}.

Lemma class_step_length l :
  length (flat_map class_step l) = count_if is_ClassDef l.
Proof.
  induction l as [|n l IH]; [reflexivity|].
  simpl flat_map. rewrite length_app, IH, count_if_cons.
  unfold class_step. destruct (is_ClassDef n); reflexivity.
Qed.

Lemma pattern_step_classes content l :
  count_if is_ClassPattern (flat_map (pattern_step content) l)
  = count_if is_ClassDef l.
Proof.
  induction l as [|n l IH]; [reflexivity|].
  simpl flat_map. unfold count_if in *.
  rewrite List.filter_app, length_app, IH. simpl List.filter.
  unfold pattern_step, is_FunctionDef, is_ClassDef, is_loop.
  destruct (cls n); reflexivity.
Qed.

Lemma pattern_step_loops content l :
  count_if is_LoopPattern (flat_map (pattern_step content) l)
  = count_if is_loop l.
Proof.
  induction l as [|n l IH]; [reflexivity|].
  simpl flat_map. unfold count_if in *.
  rewrite List.filter_app, length_app, IH. simpl List.filter.
  unfold pattern_step, is_FunctionDef, is_ClassDef, is_loop.
  destruct (cls n); reflexivity.
Qed.

Lemma pattern_step_total content l :
  length (flat_map (pattern_step content) l)
  = count_if is_FunctionDef l + count_if is_ClassDef l + count_if is_loop l.
Proof.
  induction l as [|n l IH]; [reflexivity|].
  simpl flat_map. rewrite length_app, IH, !count_if_cons.
  unfold pattern_step, is_FunctionDef, is_ClassDef, is_loop.
  destruct (cls n); simpl; lia.
Qed.

Lemma count_loops_le_branches l : count_if is_loop l <= count_if is_branch l.
Proof.
  induction l as [|n l IH]; [reflexivity|].
  rewrite !count_if_cons. unfold is_loop, is_branch in *.
  destruct (cls n); simpl; lia.
Qed.

(** X9. In the result of a successful analysis the fields agree with
    each other: [lines_of_code] is the number of lines of the text and
    every diagnostic and hint points at one of them; the class listing
    is as long as the [classes] metric says and the function listing at
    most as long as the [functions] metric; the patterns are one per
    listed function, one per listed class and one per loop, the loops
    being at most [cyclomatic] many. *)
Theorem analysis_fields_consistent w file_path content tree :
  read_file w file_path = Returns content ->
  ast_parse w content = Returns tree ->
  let d := analyze_file w file_path in
  let lines := get_lines_of_code d in
  let metrics := get_complexity d in
  lines = length (splitlines content)
  /\ List.Forall (fun b => 1 <= bug_line b <= lines) (get_bugs d)
  /\ List.Forall (fun o => 1 <= opt_line o <= lines) (get_optimizations d)
  /\ length (get_classes d) = metrics !!! "classes"
  /\ length (get_functions d) <= metrics !!! "functions"
  /\ count_if is_FunctionPattern (get_patterns d) = length (get_functions d)
  /\ count_if is_ClassPattern (get_patterns d) = length (get_classes d)
  /\ count_if is_LoopPattern (get_patterns d) <= metrics !!! "cyclomatic"
  /\ length (get_patterns d)
     = count_if is_FunctionPattern (get_patterns d)
       + count_if is_ClassPattern (get_patterns d)
       + count_if is_LoopPattern (get_patterns d).
Proof.
  intros Hr Hp d lines metrics. subst d lines metrics.
  rewrite (analyze_file_success _ _ _ _ Hr Hp).
  change (get_lines_of_code _) with (length (splitlines content)).
  change (get_bugs _) with (_detect_potential_bugs content).
  change (get_optimizations _) with (_find_optimizations content).
  change (get_classes _) with (_analyze_classes tree).
  change (get_functions _) with (_analyze_functions tree).
  change (get_patterns _) with (_extract_patterns tree content).
  change (get_complexity _) with (_calculate_complexity tree).
  unfold _calculate_complexity.
  destruct (fold_complexity_step (walk tree) ∅)
    as (I1 & _ & _ & I4 & I5 & _ & _).
  rewrite I1, I4, I5, !lookup_total_empty.
  change (@inhabitant nat _) with 0. simpl Nat.add.
  unfold _analyze_classes, _analyze_functions, _extract_patterns.
  rewrite class_step_length, function_step_length, pattern_step_functions,
    pattern_step_classes, pattern_step_loops, pattern_step_total.
  split; [reflexivity|]. split; [|split].
  - apply List.Forall_forall. intros b Hb.
    apply (detected_bug_line_bounds content b Hb).
  - apply List.Forall_forall. intros o Ho.
    apply (found_optimization_line_bounds content o Ho).
  - split; [reflexivity|]. split.
    + rewrite count_if_is_function. lia.
    + split; [reflexivity|]. split; [reflexivity|].
      split; [apply count_loops_le_branches | reflexivity].
Qed.
End Consistency.

(** ** Bounds of the score *)

Lemma float_of_le a b : a <= b -> (float_of a <= float_of b)%Q.
Proof. intros Hle. unfold float_of. rewrite <- Zle_Qle. lia. Qed.

Lemma float_of_pos n : 0 < n -> (0 < float_of n)%Q.
Proof.
  intros Hn. unfold float_of. change 0%Q with (inject_Z 0).
  rewrite <- Zlt_Qlt. lia.
Qed.

Lemma count_if_le_length {A} (p : A -> bool) l : count_if p l <= length l.
Proof. unfold count_if. apply List.filter_length_le. Qed.

Lemma docstring_bonus_bounds functions :
  let bonus :=
    match functions with
    | [] => 0%Q
    | _ => (10 * (float_of (count_if has_docstring functions)
                  / float_of (length functions)))%Q
    end in
  (0 <= bonus <= 10)%Q.
Proof.
  destruct functions as [|f fs]; [cbv zeta; lra|]. cbv zeta.
  set (k := count_if has_docstring (f :: fs)).
  set (n := length (f :: fs)).
  assert (Hk : k <= n) by apply count_if_le_length.
  assert (Hn : (0 < float_of n)%Q) by (apply float_of_pos; subst n; simpl; lia).
  assert (H0 : (0 <= float_of k / float_of n)%Q).
  { apply Qle_shift_div_l; [exact Hn|]. rewrite Qmult_0_l.
    apply float_of_nonneg. }
  assert (H1 : (float_of k / float_of n <= 1)%Q).
  { apply Qle_shift_div_r; [exact Hn|]. rewrite Qmult_1_l.
    apply float_of_le, Hk. }
  lra.
Qed.

Lemma penalty_points_nonneg bugs mfc : (0 <= penalty_points bugs mfc)%Q.
Proof.
  unfold penalty_points.
  assert (H1 := float_of_nonneg (count_severity Critical bugs)).
  assert (H2 := float_of_nonneg (count_severity High bugs)).
  assert (H3 := float_of_nonneg (count_severity Medium bugs)).
  assert (H4 := float_of_nonneg (count_severity Low bugs)).
  assert (H5 := float_of_nonneg (mfc - 10)).
  destruct (Nat.ltb 10 mfc); lra.
Qed.

Lemma clamp_le x y : (x <= y)%Q -> (clamp x <= clamp y)%Q.
Proof.
  intros Hle.
  destruct (clamp_cases x) as [[H0 E0]|[[H0 E0]|[H0 E0]]];
    destruct (clamp_cases y) as [[H1 E1]|[[H1 E1]|[H1 E1]]];
    rewrite E0, E1; lra.
Qed.

(** X10. The docstring bonus adds between 0 and 10 points: the score
    lies between the clamped score without bonus and the clamped score
    with the full bonus.  So a result without penalty points scores 100
    whatever its docstrings, one with 110 penalty points or more scores
    0, and one without listed functions scores exactly the clamped
    score without bonus. *)
Theorem score_bonus_bounds analysis :
  let points := penalty_points (get_bugs analysis)
                  (get_complexity analysis !!! "max_function_complexity") in
  let score := _calculate_quality_score analysis in
  (clamp (100 - points) <= score)%Q
  /\ (score <= clamp (110 - points))%Q
  /\ ((points == 0)%Q -> (score == 100)%Q)
  /\ ((110 <= points)%Q -> (score == 0)%Q)
  /\ (get_functions analysis = [] -> (score == clamp (100 - points))%Q).
Proof.
  intros points score. subst points score.
  rewrite calculate_quality_score_clamp.
  assert (E := score_before_clamp_eq analysis).
  assert (B := docstring_bonus_bounds (get_functions analysis)). cbv zeta in B.
  assert (P := penalty_points_nonneg (get_bugs analysis)
                 (get_complexity analysis !!! "max_function_complexity")).
  unfold penalty_points in *.
  set (b := match get_functions analysis with
            | [] => 0%Q
            | _ => (10 * (float_of (count_if has_docstring (get_functions analysis))
                          / float_of (length (get_functions analysis))))%Q
            end) in *.
  set (x := score_before_clamp analysis) in *.
  set (e := if Nat.ltb 10 (get_complexity analysis !!! "max_function_complexity")
            then (float_of (get_complexity analysis !!! "max_function_complexity" - 10) * 3)%Q
            else 0%Q) in *.
  split; [apply clamp_le; lra|]. split; [apply clamp_le; lra|].
  split; [|split].
  - intros Hz. destruct (clamp_cases x) as [[H0 E0]|[[H0 E0]|[H0 E0]]];
      rewrite E0; lra.
  - intros Hz. destruct (clamp_cases x) as [[H0 E0]|[[H0 E0]|[H0 E0]]];
      rewrite E0; lra.
  - intros Hf. subst b. rewrite Hf in E.
    assert (Ex : (x == 100 - (20 * float_of (count_severity Critical (get_bugs analysis)) +
       10 * float_of (count_severity High (get_bugs analysis)) +
       5 * float_of (count_severity Medium (get_bugs analysis)) +
       2 * float_of (count_severity Low (get_bugs analysis)) + e))%Q) by lra.
    unfold clamp. rewrite Ex. reflexivity.
Qed.

Lemma count_severity_perm s l l' :
  Permutation l l' -> count_severity s l = count_severity s l'.
Proof. apply count_if_perm. Qed.

(** X11. The score does not depend on the order of the diagnostics. *)
Theorem score_ignores_order analysis bugs bugs' :
  Permutation bugs bugs' ->
  (_calculate_quality_score (with_bugs analysis bugs)
   == _calculate_quality_score (with_bugs analysis bugs'))%Q.
Proof.
  intros Hp. rewrite !calculate_quality_score_formula.
  rewrite !get_bugs_with_bugs, !get_complexity_with_bugs,
    !get_functions_with_bugs.
  unfold formula_over.
  rewrite !(count_severity_perm _ _ _ Hp). reflexivity.
Qed.
(** ** The object [AdaptiveCodeIntelligence] *)

Lemma bind_run {A B} (m : method A) (k : A -> method B) s :
  bind m k s =
  (result_of (k (result_of m s)) (state_after m s),
   state_after (k (result_of m s)) (state_after m s),
   printed_by m s ++ printed_by (k (result_of m s)) (state_after m s)).
Proof.
  unfold bind, result_of, state_after, printed_by.
  destruct (m s) as [[a s1] out1]. simpl.
  destruct (k a s1) as [[b s2] out2]. reflexivity.
Qed.

Lemma printed_bind {A B} (m : method A) (k : A -> method B) s :
  printed_by (bind m k) s
  = printed_by m s ++ printed_by (k (result_of m s)) (state_after m s).
Proof. unfold printed_by at 1. rewrite bind_run. reflexivity. Qed.

Lemma state_bind {A B} (m : method A) (k : A -> method B) s :
  state_after (bind m k) s
  = state_after (k (result_of m s)) (state_after m s).
Proof. unfold state_after at 1. rewrite bind_run. reflexivity. Qed.

Lemma result_bind {A B} (m : method A) (k : A -> method B) s :
  result_of (bind m k) s
  = result_of (k (result_of m s)) (state_after m s).
Proof. unfold result_of at 1. rewrite bind_run. reflexivity. Qed.

Lemma state_ret {A} (a : A) s : state_after (ret a) s = s.
Proof. reflexivity. Qed.

Lemma result_ret {A} (a : A) s : result_of (ret a) s = a.
Proof. reflexivity. Qed.

Lemma print_each_run {A} (text : A -> pystr) items s :
  print_each text items s = (tt, s, map text items).
Proof.
  induction items as [|x items IH]; [reflexivity|].
  simpl. rewrite bind_run. unfold result_of, state_after, printed_by.
  simpl. rewrite IH. reflexivity.
Qed.

Section Object.
Context `{Interpreter} `{Formatting}.

(** A report changes nothing. *)
Lemma report_state analysis s :
  state_after (_generate_analysis_report analysis) s = s.
Proof.
  unfold _generate_analysis_report, state_after.
  repeat (rewrite bind_run; unfold state_after, result_of; simpl).
  destruct (get_bugs analysis), (get_optimizations analysis);
    repeat (rewrite ?bind_run, ?print_each_run;
            unfold state_after, result_of; simpl); reflexivity.
Qed.

Lemma summary_state results s :
  state_after (_generate_directory_summary results) s = s.
Proof.
  unfold _generate_directory_summary, state_after.
  destruct results as [|r results]; [reflexivity|].
  destruct (List.filter _ (r :: results)); [reflexivity|].
  repeat (rewrite bind_run; unfold state_after, result_of; simpl).
  reflexivity.
Qed.

Lemma aci_analyze_file_run w file_path developer s :
  let m := aci_analyze_file w file_path developer in
  result_of m s = analyze_file w file_path
  /\ storage_path (state_after m s) = storage_path s
  /\ developer_id (state_after m s)
     = (if truthy developer then or_empty developer else developer_id s)
  /\ analysis_history (state_after m s)
     = analysis_history s
       ++ (if has_error (analyze_file w file_path) then []
           else [analyze_file w file_path]).
Proof.
  intros m. subst m. unfold aci_analyze_file.
  set (a := analyze_file w file_path).
  unfold result_of, state_after.
  repeat (rewrite bind_run; unfold state_after, result_of, printed_by).
  destruct (truthy developer), (has_error a); simpl;
    repeat (rewrite ?bind_run; unfold state_after, result_of, printed_by;
            simpl);
    try (change (snd (fst (_generate_analysis_report a ?s)))
         with (state_after (_generate_analysis_report a) s));
    rewrite ?report_state; simpl; rewrite ?app_nil_r; auto.
Qed.

Lemma printed_print text s : printed_by (print text) s = [text].
Proof. reflexivity. Qed.

Lemma printed_print_each {A} (text : A -> pystr) items s :
  printed_by (print_each text items) s = map text items.
Proof. unfold printed_by. rewrite print_each_run. reflexivity. Qed.

(** What a report prints does not depend on the state. *)
Lemma report_printed analysis s s' :
  printed_by (_generate_analysis_report analysis) s
  = printed_by (_generate_analysis_report analysis) s'.
Proof.
  unfold _generate_analysis_report.
  rewrite !printed_bind, !printed_print.
  destruct (get_bugs analysis), (get_optimizations analysis);
    rewrite ?printed_bind, ?printed_print, ?printed_print_each; reflexivity.
Qed.

Lemma aci_analyze_file_printed w file_path developer s :
  let a := analyze_file w file_path in
  printed_by (aci_analyze_file w file_path developer) s
  = [py "Analyzing file: " ++ file_path]
    ++ (if has_error a
        then [[10007%N] ++ py " Analysis failed: " ++ get_error a]
        else [[10003%N] ++ py " Analysis complete. Quality score: "
              ++ format_1f (get_score a) ++ py "/100"]
             ++ printed_by (_generate_analysis_report a) s).
Proof.
  intros a. unfold aci_analyze_file. fold a.
  rewrite !printed_bind.
  destruct (has_error a); cbn [negb].
  - destruct (truthy developer); reflexivity.
  - rewrite !printed_bind.
    rewrite (report_printed a _ s).
    destruct (truthy developer); cbn [printed_by ret print snd app];
      rewrite ?app_nil_r; reflexivity.
Qed.

Lemma analyze_file_variant w file_path :
  let a := analyze_file w file_path in
  (has_error a = true /\ dom a = failure_keys) \/ is_success a.
Proof.
  intros a. subst a. unfold analyze_file.
  destruct (read_file w file_path) as [content|e] eqn:Hr.
  - destruct (ast_parse w content) as [tree|e] eqn:Hp.
    + right. unfold is_success. split; [|split].
      * assert (D := dom_analyze_file_success w file_path content tree Hr Hp).
        unfold analyze_file in D. rewrite Hr, Hp in D. exact D.
      * reflexivity.
      * unfold get_score. rewrite lookup_insert_eq.
        rewrite calculate_quality_score_clamp. apply clamp_bounds.
    + left. split; [reflexivity|]. apply failure_is_failure.
  - left. split; [reflexivity|]. apply failure_is_failure.
Qed.

Lemma analyze_each_run world_at developer files : forall i s,
  let m := analyze_each world_at developer i files in
  let results :=
    map (fun e => analyze_file (world_at (fst e)) (snd e))
        (List.filter (fun e => negb (starts_with_dot (path_name (snd e))))
                     (combine (seq i (length files)) files)) in
  result_of m s = results
  /\ storage_path (state_after m s) = storage_path s
  /\ analysis_history (state_after m s)
     = analysis_history s ++ List.filter (fun r => negb (has_error r)) results
  /\ (developer_id s
      = (if truthy developer then or_empty developer else developer_id s) ->
      developer_id (state_after m s) = developer_id s).
Proof.
  induction files as [|f files IH]; intros i s; cbv zeta.
  - simpl. rewrite app_nil_r. auto.
  - cbn [analyze_each length seq combine List.filter snd fst].
    destruct (starts_with_dot (path_name f)); cbn [negb].
    + apply IH.
    + rewrite !result_bind, !state_bind, result_ret, state_ret.
      destruct (aci_analyze_file_run (world_at i) f developer s)
        as (Hr & Hs & Hd & Hh). cbv zeta in Hr, Hs, Hd, Hh.
      specialize (IH (S i)
                    (state_after (aci_analyze_file (world_at i) f developer) s)).
      cbv zeta in IH. destruct IH as (Ir & Is & Ih & Id).
      cbn [map fst snd].
      rewrite Ir, Hr, Is, Hs, Ih, Hh.
      split; [reflexivity|]. split; [reflexivity|]. split.
      * cbn [List.filter].
        destruct (has_error (analyze_file (world_at i) f)); cbn [negb];
          rewrite <- ?app_assoc; reflexivity.
      * intros Hdev. rewrite Id; rewrite Hd.
        -- rewrite <- Hdev. reflexivity.
        -- destruct (truthy developer); reflexivity.
Qed.

Lemma analyze_directory_run rglob_py world_at directory_path developer s :
  let m := analyze_directory rglob_py world_at directory_path developer in
  let results :=
    map (fun e => analyze_file (world_at (fst e)) (snd e))
        (visible_files (rglob_py directory_path)) in
  result_of m s = results
  /\ storage_path (state_after m s) = storage_path s
  /\ developer_id (state_after m s)
     = (if truthy developer then or_empty developer else developer_id s)
  /\ analysis_history (state_after m s)
     = analysis_history s ++ List.filter (fun r => negb (has_error r)) results
  /\ (exists rest,
        printed_by m s
        = (py "Found " ++ str_of_nat (length (rglob_py directory_path))
           ++ py " Python files to analyze") :: rest).
Proof.
  cbv zeta. unfold analyze_directory.
  rewrite !result_bind, !state_bind, !printed_bind, result_ret, state_ret.
  rewrite summary_state.
  set (s0 := state_after (if truthy developer
                          then set_developer_id (or_empty developer)
                          else ret tt) s).
  assert (Hs0 : storage_path s0 = storage_path s
                /\ analysis_history s0 = analysis_history s
                /\ developer_id s0
                   = (if truthy developer then or_empty developer
                      else developer_id s)).
  { subst s0. destruct (truthy developer); auto. }
  destruct Hs0 as (Hst & Hh & Hd).
  change (state_after (print ?t) s0) with s0.
  destruct (analyze_each_run world_at developer (rglob_py directory_path) 0 s0)
    as (Ir & Is & Ih & Id). cbv zeta in Ir, Is, Ih, Id.
  unfold visible_files.
  rewrite Ir, Is, Ih, Hst, Hh.
  split; [reflexivity|]. split; [reflexivity|]. split; [|split].
  - rewrite Id; [exact Hd|]. rewrite Hd.
    destruct (truthy developer); reflexivity.
  - reflexivity.
  - eexists.
    replace (printed_by (if truthy developer
                         then set_developer_id (or_empty developer)
                         else ret tt) s) with (@nil pystr)
      by (destruct (truthy developer); reflexivity).
    rewrite printed_print. reflexivity.
Qed.

End Object.

Lemma sum_nat_list_sum {A} (f : A -> nat) l :
  sum_nat f l = list_sum (map f l).
Proof.
  unfold sum_nat.
  assert (Hgen : forall acc, fold_left (fun a r => a + f r) l acc
                             = acc + list_sum (map f l)).
  { induction l as [|x l IH]; intros acc; simpl; [lia|]. rewrite IH. lia. }
  apply Hgen.
Qed.

(** [max_by] returns the first item whose key is greatest. *)
Lemma max_by_first_greatest {A} (key : A -> Q) rest : forall first,
  exists before after,
    first :: rest = before ++ max_by key first rest :: after
    /\ (forall r, In r before -> (key r < key (max_by key first rest))%Q)
    /\ (forall r, In r after -> (key r <= key (max_by key first rest))%Q).
Proof.
  unfold max_by.
  assert (Hgen : forall before best after,
    (forall r, In r before -> (key r < key best)%Q) ->
    (forall r, In r after -> (key r <= key best)%Q) ->
    let best' := fold_left (fun b r => if qltb (key b) (key r) then r else b)
                           rest best in
    exists before' after',
      before ++ best :: after ++ rest = before' ++ best' :: after'
      /\ (forall r, In r before' -> (key r < key best')%Q)
      /\ (forall r, In r after' -> (key r <= key best')%Q)).
  { induction rest as [|x rest IH]; intros before best after Hb Ha; cbv zeta.
    - exists before, after. rewrite app_nil_r. auto.
    - simpl fold_left. destruct (qltb (key best) (key x)) eqn:E.
      + apply qltb_true in E.
        destruct (IH (before ++ best :: after) x []) as (b' & a' & Heq & Hb' & Ha').
        * intros r Hr. apply in_app_or in Hr. destruct Hr as [Hr|[<-|Hr]].
          -- specialize (Hb r Hr). lra.
          -- exact E.
          -- specialize (Ha r Hr). lra.
        * intros r [].
        * exists b', a'. split; [|auto].
          rewrite <- Heq. rewrite <- !app_assoc. reflexivity.
      + apply qltb_false in E.
        destruct (IH before best (after ++ [x])) as (b' & a' & Heq & Hb' & Ha').
        * exact Hb.
        * intros r Hr. apply in_app_or in Hr. destruct Hr as [Hr|[<-|[]]].
          -- apply Ha, Hr.
          -- exact E.
        * exists b', a'. split; [|auto].
          rewrite <- Heq. rewrite <- !app_assoc. reflexivity. }
  intros first.
  destruct (Hgen [] first []) as (b' & a' & Heq & Hb' & Ha').
  - intros r [].
  - intros r [].
  - exists b', a'. auto.
Qed.

Lemma sum_float_bounds {A} (f : A -> Q) (lo hi : Q) l :
  List.Forall (fun r => (lo <= f r <= hi)%Q) l ->
  (lo * float_of (length l) <= sum_float f l <= hi * float_of (length l))%Q.
Proof.
  intros Hall. unfold sum_float.
  assert (Hgen : forall acc n,
    (lo * float_of n <= acc <= hi * float_of n)%Q ->
    (lo * float_of (n + length l)
     <= fold_left (fun a r => (a + f r)%Q) l acc
     <= hi * float_of (n + length l))%Q).
  { induction Hall as [|x l Hx _ IH]; intros acc n Hacc.
    - cbn [length fold_left]. rewrite Nat.add_0_r. exact Hacc.
    - cbn [length fold_left].
      replace (n + S (length l)) with (S n + length l) by lia.
      apply IH.
      assert (E : (float_of (S n) == float_of n + 1)%Q).
      { unfold float_of. rewrite Nat2Z.inj_succ, <- Z.add_1_r, inject_Z_plus.
        reflexivity. }
      rewrite E. lra. }
  apply (Hgen 0%Q 0). change (float_of 0) with 0%Q. lra.
Qed.

Lemma average_bounds {A} (f : A -> Q) (lo hi : Q) l :
  l <> [] ->
  List.Forall (fun r => (lo <= f r <= hi)%Q) l ->
  (lo <= sum_float f l / float_of (length l) <= hi)%Q.
Proof.
  intros Hne Hall. pose proof (sum_float_bounds f lo hi l Hall) as [Hlo Hhi].
  assert (Hpos : (0 < float_of (length l))%Q).
  { apply float_of_pos. destruct l; [contradiction|cbn; lia]. }
  split.
  - apply Qle_shift_div_l; assumption.
  - apply Qle_shift_div_r; assumption.
Qed.

Section Summary.
Context `{Interpreter} `{Formatting}.

(** X16. Given results of the analyzer, the directory summary leaves
    the object as it was.  It prints nothing for no results, one text
    when every result is a failure, and otherwise eight texts over the
    results without error: their number, the sum of their lines, their
    average score, which lies between 0 and 100, the sums of their
    diagnostics and hints, and as best file the first of those with
    the greatest score.  Scores are exact rationals here, as everywhere
    in this development. *)
Theorem directory_summary_report results s :
  List.Forall analyzed results ->
  let valid := List.filter (fun r => negb (has_error r)) results in
  let out := printed_by (_generate_directory_summary results) s in
  state_after (_generate_directory_summary results) s = s
  /\ (results = [] -> out = [])
  /\ (results <> [] -> valid = [] ->
      out = [py "No valid analyses to summarize"])
  /\ (valid <> [] ->
      (0 <= sum_float get_score valid / float_of (length valid) <= 100)%Q
      /\ exists before best after,
        valid = before ++ best :: after
        /\ (forall r, In r before -> (get_score r < get_score best)%Q)
        /\ (forall r, In r after -> (get_score r <= get_score best)%Q)
        /\ out =
           [ [LF] ++ py "=== Directory Analysis Summary ===";
             py "Files Analyzed: " ++ str_of_nat (length valid);
             py "Total Lines of Code: "
             ++ str_of_nat (list_sum (map get_lines_of_code valid));
             py "Average Quality Score: "
             ++ format_1f (sum_float get_score valid
                           / float_of (length valid))
             ++ py "/100";
             py "Total Potential Issues: "
             ++ str_of_nat (list_sum (map (fun r => length (get_bugs r)) valid));
             py "Total Optimization Opportunities: "
             ++ str_of_nat
                  (list_sum (map (fun r => length (get_optimizations r)) valid));
             py "Highest Quality File: " ++ path_name (get_file_path best)
             ++ py " (" ++ format_1f (get_score best) ++ py "/100)";
             [] ]).
Proof.
  intros Hall. cbv zeta. split; [apply summary_state|].
  unfold _generate_directory_summary.
  split; [intros ->; reflexivity|]. split.
  - intros Hne Hvalid. destruct results as [|r results]; [contradiction|].
    rewrite Hvalid. reflexivity.
  - intros Hvalid. split.
    { apply average_bounds; [exact Hvalid|].
      apply List.Forall_forall. intros r Hr.
      apply List.filter_In in Hr. destruct Hr as [Hr Hok].
      rewrite List.Forall_forall in Hall.
      destruct (Hall r Hr) as (w & file_path & ->).
      destruct (analyze_file_variant w file_path) as [[He _]|Hs];
        cbv zeta in *.
      - rewrite He in Hok. discriminate.
      - apply Hs. }
    destruct results as [|r results]; [contradiction|].
    destruct (List.filter (fun r0 => negb (has_error r0)) (r :: results))
      as [|first rest] eqn:Ev; [contradiction|].
    destruct (max_by_first_greatest get_score rest first)
      as (before & after & Heq & Hb & Ha).
    exists before, (max_by get_score first rest), after.
    split; [exact Heq|]. split; [exact Hb|]. split; [exact Ha|].
    rewrite !printed_bind, !printed_print, !sum_nat_list_sum. reflexivity.
Qed.
End Summary.


Section More.
Context `{Interpreter} `{Formatting}.

(** What the analysis of a file prints depends neither on the state
    nor on the developer. *)
Lemma aci_analyze_file_printed_any w file_path developer developer' s s' :
  printed_by (aci_analyze_file w file_path developer) s
  = printed_by (aci_analyze_file w file_path developer') s'.
Proof.
  rewrite !aci_analyze_file_printed. cbv zeta.
  rewrite (report_printed _ s s'). reflexivity.
Qed.

Lemma analyze_each_printed world_at developer files : forall i s,
  printed_by (analyze_each world_at developer i files) s
  = flat_map (fun e => printed_by (aci_analyze_file (world_at (fst e)) (snd e)
                                     None) (aci_init []))
      (List.filter (fun e => negb (starts_with_dot (path_name (snd e))))
                   (combine (seq i (length files)) files)).
Proof.
  induction files as [|f files IH]; intros i s; [reflexivity|].
  cbn [analyze_each length seq combine List.filter snd fst].
  destruct (starts_with_dot (path_name f)); cbn [negb].
  - apply IH.
  - rewrite !printed_bind. cbn [flat_map fst snd].
    rewrite IH.
    rewrite (aci_analyze_file_printed_any _ _ developer None s (aci_init [])).
    change (printed_by (ret ?x) ?s) with (@nil pystr).
    rewrite app_nil_r. reflexivity.
Qed.

Lemma summary_printed results s s' :
  printed_by (_generate_directory_summary results) s
  = printed_by (_generate_directory_summary results) s'.
Proof.
  unfold _generate_directory_summary.
  destruct results as [|r results]; [reflexivity|].
  destruct (List.filter _ (r :: results)); [reflexivity|].
  rewrite !printed_bind, !printed_print. reflexivity.
Qed.

(** X12. [AdaptiveCodeIntelligence.analyze_file] returns what the
    analyzer returns.  A result without error is appended to the
    history, so that [files_analyzed] goes up by one, and a failure
    leaves the history as it was; the storage path never changes.  The
    developer id changes only when a non-empty one is passed.  A
    failure prints two texts, the announcement and the error; a
    success prints the announcement, the score and the report. *)
Theorem file_analysis_recorded w file_path developer s :
  let m := aci_analyze_file w file_path developer in
  let a := analyze_file w file_path in
  let s' := state_after m s in
  result_of m s = a
  /\ analysis_history s'
     = analysis_history s ++ (if has_error a then [] else [a])
  /\ get_system_stats s'
     = (fst (get_system_stats s) + (if has_error a then 0 else 1),
        snd (get_system_stats s))
  /\ developer_id s'
     = match developer with
       | Some (c :: id) => c :: id
       | _ => developer_id s
       end
  /\ (has_error a = true ->
      printed_by m s
      = [py "Analyzing file: " ++ file_path;
         [10007%N] ++ py " Analysis failed: " ++ get_error a])
  /\ (has_error a = false ->
      printed_by m s
      = [py "Analyzing file: " ++ file_path;
         [10003%N] ++ py " Analysis complete. Quality score: "
         ++ format_1f (get_score a) ++ py "/100"]
        ++ printed_by (_generate_analysis_report a) s).
Proof.
  cbv zeta.
  destruct (aci_analyze_file_run w file_path developer s)
    as (Hr & Hs & Hd & Hh). cbv zeta in Hr, Hs, Hd, Hh.
  split; [exact Hr|]. split; [exact Hh|]. split; [|split; [|split]].
  - unfold get_system_stats. rewrite Hh, Hs, length_app. cbn [fst snd].
    destruct (has_error (analyze_file w file_path)); reflexivity.
  - rewrite Hd. destruct developer as [[|c id]|]; reflexivity.
  - intros He. rewrite aci_analyze_file_printed. cbv zeta. rewrite He.
    reflexivity.
  - intros He. rewrite aci_analyze_file_printed. cbv zeta. rewrite He.
    reflexivity.
Qed.

(** X13. The report of a successful analysis leaves the object as it
    was.  It prints eight fixed texts, then, when there are
    diagnostics, their number and at most three of them, the same for
    the hints, and an empty text at the end: between 9 and 17 texts.
    The number it announces is that of all diagnostics (hints), not of
    those shown. *)
Theorem report_shows_three analysis s :
  analyzed analysis -> has_error analysis = false ->
  let bugs := get_bugs analysis in
  let hints := get_optimizations analysis in
  let out := printed_by (_generate_analysis_report analysis) s in
  state_after (_generate_analysis_report analysis) s = s
  /\ length out = 9 + shown (length bugs) + shown (length hints)
  /\ 9 <= length out <= 17
  /\ (bugs <> [] ->
      In ([LF] ++ py "Potential Issues Found: " ++ str_of_nat (length bugs))
         out)
  /\ (hints <> [] ->
      In ([LF] ++ py "Optimization Opportunities: "
          ++ str_of_nat (length hints)) out)
  /\ last out = Some [].
Proof.
  intros _ _. cbv zeta. split; [apply report_state|].
  unfold _generate_analysis_report.
  rewrite !printed_bind, !printed_print.
  set (issues := printed_by match get_bugs analysis with
                            | [] => ret tt | _ :: _ => _ end _).
  set (opps := printed_by match get_optimizations analysis with
                          | [] => ret tt | _ :: _ => _ end _).
  assert (Hi : length issues = shown (length (get_bugs analysis))
               /\ (get_bugs analysis <> [] ->
                   In ([LF] ++ py "Potential Issues Found: "
                       ++ str_of_nat (length (get_bugs analysis))) issues)).
  { subst issues. destruct (get_bugs analysis) as [|b bugs] eqn:Eb.
    - split; [reflexivity|]. intros E; contradiction.
    - rewrite printed_bind, printed_print, printed_print_each.
      split; [|intros _; left; reflexivity].
      cbn [length app shown]. rewrite length_map, length_firstn.
      cbn [length]. lia. }
  assert (Ho : length opps = shown (length (get_optimizations analysis))
               /\ (get_optimizations analysis <> [] ->
                   In ([LF] ++ py "Optimization Opportunities: "
                       ++ str_of_nat (length (get_optimizations analysis)))
                      opps)).
  { subst opps. destruct (get_optimizations analysis) as [|o opts] eqn:Eo.
    - split; [reflexivity|]. intros E; contradiction.
    - rewrite printed_bind, printed_print, printed_print_each.
      split; [|intros _; left; reflexivity].
      cbn [length app shown]. rewrite length_map, length_firstn.
      cbn [length]. lia. }
  destruct Hi as (Li & Ii), Ho as (Lo & Io).
  clearbody issues opps.
  assert (Hshown : forall n, shown n <= 4).
  { intros [|n]; cbn [shown]; lia. }
  assert (Hlen : length ([[LF] ++ py "=== Code Analysis Report ==="] ++
     [py "File: " ++ get_file_path analysis] ++
     [py "Lines of Code: " ++ str_of_nat (get_lines_of_code analysis)] ++
     [py "Quality Score: " ++ format_1f (get_score analysis) ++ py "/100"] ++
     [[LF] ++ py "Complexity Metrics:"] ++
     [py "  Functions: "
      ++ str_of_nat (metric (get_complexity analysis) "functions")] ++
     [py "  Classes: "
      ++ str_of_nat (metric (get_complexity analysis) "classes")] ++
     [py "  Max Function Complexity: "
      ++ str_of_nat (metric (get_complexity analysis)
                       "max_function_complexity")] ++
     issues ++ opps ++ [[]])
     = 9 + shown (length (get_bugs analysis))
       + shown (length (get_optimizations analysis))).
  { cbn [length app]. rewrite !length_app, Li, Lo. cbn [length]. lia. }
  split; [exact Hlen|]. split.
  - rewrite Hlen.
    pose proof (Hshown (length (get_bugs analysis))).
    pose proof (Hshown (length (get_optimizations analysis))). lia.
  - split; [|split].
    + intros Hb. cbn [app]. do 8 right. apply in_or_app. left. auto.
    + intros Hb. cbn [app]. do 8 right. apply in_or_app. right.
      apply in_or_app. left. auto.
    + rewrite !app_assoc. apply last_snoc.
Qed.

(** X14. [analyze_directory] returns, in the order of the listing, the
    analyses of the files whose name does not begin with a dot, each
    made in the world of its position; the history grows by those
    without error, in that order, and [files_analyzed] by their number.
    It prints the number of all files found, hidden ones included,
    then what the analysis of each visible file prints, then the
    summary of the results. *)
Theorem directory_analysis_results rglob_py world_at directory_path
        developer s :
  let m := analyze_directory rglob_py world_at directory_path developer in
  let listing := rglob_py directory_path in
  let results :=
    map (fun e => analyze_file (world_at (fst e)) (snd e))
        (visible_files listing) in
  let recorded := List.filter (fun r => negb (has_error r)) results in
  result_of m s = results
  /\ length results <= length listing
  /\ analysis_history (state_after m s) = analysis_history s ++ recorded
  /\ get_system_stats (state_after m s)
     = (fst (get_system_stats s) + length recorded, snd (get_system_stats s))
  /\ printed_by m s
     = [py "Found " ++ str_of_nat (length listing)
        ++ py " Python files to analyze"]
       ++ flat_map (fun e => printed_by
                               (aci_analyze_file (world_at (fst e)) (snd e)
                                  None) (aci_init []))
                   (visible_files listing)
       ++ printed_by (_generate_directory_summary results) (aci_init []).
Proof.
  cbv zeta.
  destruct (analyze_directory_run rglob_py world_at directory_path developer s)
    as (Hr & Hs & _ & Hh & _). cbv zeta in Hr, Hs, Hh.
  split; [exact Hr|]. split; [|split; [exact Hh|split]].
  - rewrite length_map. unfold visible_files.
    etransitivity; [apply List.filter_length_le|].
    rewrite length_combine, length_seq. lia.
  - unfold get_system_stats. rewrite Hh, Hs, length_app. reflexivity.
  - unfold analyze_directory.
    rewrite !printed_bind, printed_print.
    rewrite analyze_each_printed.
    replace (printed_by (if truthy developer
                         then set_developer_id (or_empty developer)
                         else ret tt) s) with (@nil pystr)
      by (destruct (truthy developer); reflexivity).
    change (printed_by (ret ?x) ?st) with (@nil pystr).
    rewrite app_nil_r. cbn [app]. f_equal. f_equal.
    match goal with
    | |- printed_by (_generate_directory_summary ?r) ?st = _ =>
        rewrite (summary_printed r st (aci_init []))
    end.
    f_equal. f_equal.
    match goal with
    | |- result_of (analyze_each _ _ _ _) ?st = _ =>
        destruct (analyze_each_run world_at developer
                    (rglob_py directory_path) 0 st) as (Ir & _)
    end.
    cbv zeta in Ir. exact Ir.
Qed.

Lemma developer_kept (developer : option pystr) (id : pystr) :
  id <> [] ->
  (if truthy developer then or_empty developer else id) <> [].
Proof.
  intros Hid. destruct developer as [[|c d]|]; cbn; try exact Hid.
  discriminate.
Qed.

(** X15. Whatever calls were made on an object, its history holds only
    results of the success variant, with the keys of a success, no
    [error] key and a score between 0 and 100, and its developer id is
    not empty. *)
Theorem history_holds_successes s :
  reachable s ->
  List.Forall is_success (analysis_history s)
  /\ developer_id s <> [].
Proof.
  intros Hreach.
  induction Hreach as [storage | s w file_path developer _ [IH ID]
                       | s rglob_py world_at directory_path developer _ [IH ID]].
  - split; [constructor|discriminate].
  - destruct (aci_analyze_file_run w file_path developer s)
      as (_ & _ & Hd & Hh). cbv zeta in Hh, Hd. rewrite Hh, Hd.
    split; [|apply developer_kept, ID].
    apply List.Forall_app. split; [exact IH|].
    destruct (analyze_file_variant w file_path) as [[He _]|Hs];
      cbv zeta in *.
    + rewrite He. constructor.
    + destruct (has_error (analyze_file w file_path));
        [constructor | constructor; [exact Hs | constructor]].
  - destruct (analyze_directory_run rglob_py world_at directory_path
                developer s) as (_ & _ & Hd & Hh & _).
    cbv zeta in Hh, Hd. rewrite Hh, Hd.
    split; [|apply developer_kept, ID].
    apply List.Forall_app. split; [exact IH|].
    apply List.Forall_forall. intros r Hr.
    apply List.filter_In in Hr. destruct Hr as [Hr Hok].
    apply in_map_iff in Hr. destruct Hr as ([i f] & <- & _).
    destruct (analyze_file_variant (world_at i) f) as [[He _]|Hs];
      cbv zeta in *; simpl in *.
    + rewrite He in Hok. discriminate.
    + exact Hs.
Qed.
End More.

(** ** Loop patterns *)

Lemma count_if_exists {A} (p : A -> bool) l :
  negb (Nat.eqb (count_if p l) 0) = true <-> exists x, In x l /\ p x = true.
Proof.
  induction l as [|x l IH].
  - split; [discriminate|intros (x & [] & _)].
  - rewrite count_if_cons. destruct (p x) eqn:E.
    + split; [|reflexivity]. intros _. exists x. split; [left; reflexivity|exact E].
    + cbn [Nat.add]. rewrite IH. split.
      * intros (y & Hy & Py). exists y. split; [right; exact Hy|exact Py].
      * intros (y & [<-|Hy] & Py); [congruence|]. exists y. auto.
Qed.

Lemma count_if_split {A} (p q : A -> bool) l :
  count_if p l
  = count_if (fun x => p x && negb (q x))%bool l
    + count_if (fun x => p x && q x)%bool l.
Proof.
  induction l as [|x l IH]; [reflexivity|].
  rewrite !count_if_cons, IH. destruct (p x), (q x); cbn; lia.
Qed.

Lemma count_if_one {A} (f : A -> N) (p : A -> bool) x l :
  List.NoDup (map f (List.filter p l)) -> In x l -> p x = true ->
  count_if (fun d => p d && N.eqb (f d) (f x))%bool l = 1.
Proof.
  induction l as [|y l IH]; intros Hnd Hin Px; [destruct Hin|].
  rewrite count_if_cons. cbn [List.filter] in Hnd.
  destruct (p y) eqn:Py; cbn [andb].
  - cbn [map] in Hnd. apply List.NoDup_cons_iff in Hnd.
    destruct Hnd as [Hnot Hnd].
    destruct (N.eqb (f y) (f x)) eqn:E.
    + apply N.eqb_eq in E.
      assert (Hz : count_if (fun d => p d && N.eqb (f d) (f x))%bool l = 0).
      { unfold count_if.
        destruct (List.filter (fun d => p d && N.eqb (f d) (f x))%bool l)
          as [|z zs] eqn:Ez; [reflexivity|].
        exfalso. apply Hnot.
        assert (Hz : In z (List.filter
                             (fun d => p d && N.eqb (f d) (f x))%bool l))
          by (rewrite Ez; left; reflexivity).
        apply List.filter_In in Hz. destruct Hz as [Hz Hpz].
        apply andb_true_iff in Hpz. destruct Hpz as [Pz Fz].
        apply N.eqb_eq in Fz. rewrite E, <- Fz.
        apply in_map. apply List.filter_In. auto. }
      rewrite Hz. reflexivity.
    + destruct Hin as [->|Hin]; [rewrite N.eqb_refl in E; discriminate|].
      cbn [Nat.add]. apply IH; assumption.
  - destruct Hin as [->|Hin]; [congruence|].
    cbn [Nat.add]. apply IH; assumption.
Qed.

(** X17. The pattern of a loop reads the whole subtree of the loop: it
    is a [for] pattern for a [For] node and a [while] pattern for a
    [While] node, at the line of the node; [nested_loops] counts the
    loops of the subtree other than the loop itself, at any depth, so
    it is one less than the number of loops of the subtree when these
    are distinct objects; [has_break] and [has_continue] are set
    exactly when the subtree holds such a statement, be it that of an
    inner loop. *)
Theorem loop_pattern_reads_subtree n content :
  is_loop n = true ->
  exists loop_type nested has_break has_continue,
    _analyze_loop_pattern n content
    = LoopPattern loop_type (line_of n) nested has_break has_continue
    /\ (loop_type = "for" /\ cls n = For
        \/ loop_type = "while" /\ cls n = While)
    /\ nested < count_if is_loop (subnodes n)
    /\ (List.NoDup (map addr (List.filter is_loop (subnodes n))) ->
        S nested = count_if is_loop (subnodes n))
    /\ (has_break = true <->
        exists d, In d (subnodes n) /\ is_Break d = true)
    /\ (has_continue = true <->
        exists d, In d (subnodes n) /\ is_Continue d = true).
Proof.
  intros Hloop. unfold _analyze_loop_pattern.
  do 4 eexists. split; [reflexivity|].
  assert (Hself : In n (subnodes n))
    by (rewrite subnodes_unfold; left; reflexivity).
  pose proof (count_if_split is_loop (fun d => N.eqb (addr d) (addr n))
                (subnodes n)) as Hsplit.
  split; [|split; [|split; [|split]]].
  - unfold is_loop, is_For in *. destruct (cls n); try discriminate; auto.
  - rewrite count_if_walk, Hsplit.
    assert (Hpos : 1 <= count_if
              (fun d => (is_loop d && N.eqb (addr d) (addr n))%bool)
              (subnodes n)).
    { rewrite subnodes_unfold, count_if_cons, Hloop, N.eqb_refl. cbn. lia. }
    lia.
  - intros Hnd. rewrite count_if_walk, Hsplit.
    rewrite (count_if_one addr is_loop n (subnodes n) Hnd Hself Hloop). lia.
  - rewrite count_if_walk. apply count_if_exists.
  - rewrite count_if_walk. apply count_if_exists.
Qed.

(** ** The further properties at explicit inputs *)

Lemma detected_bugs_characterized_witness :
  1 <= bug_line bare_except_bug <= length (splitlines commented_content)
  /\ bug_severity bare_except_bug
     = _assess_bug_severity (bug_type bare_except_bug)
  /\ bug_severity bare_except_bug <> Critical.
Proof.
  apply (proj2 (@detected_bugs_characterized ascii_interpreter
                  commented_content bare_except_bug)).
  vm_compute. left. reflexivity.
Defined.

Lemma found_optimizations_characterized_witness :
  In (@hint_of ascii_interpreter "inefficient_membership" 1
        (py "if x in [1, 2]:"))
     (@_find_optimizations ascii_interpreter membership_content).
Proof.
  apply (proj2 (proj1 (@found_optimizations_characterized ascii_interpreter
                         membership_content _))).
  exists 0, (py "if x in [1, 2]:"), "inefficient_membership".
  eexists. split; [reflexivity|]. split.
  - right. right. left. reflexivity.
  - split; [vm_compute; reflexivity|reflexivity].
Defined.

Lemma scan_output_ordered_witness :
  StronglySorted le
    (map bug_line (@_detect_potential_bugs ascii_interpreter commented_content))
  /\ length (@_detect_potential_bugs ascii_interpreter commented_content)
     <= 8 * length (splitlines commented_content).
Proof.
  destruct (@scan_output_ordered ascii_interpreter commented_content)
    as ((_ & Hsorted & _ & Hlen) & _).
  split; [exact Hsorted|exact Hlen].
Defined.

Lemma long_line_flagged_witness :
  exists b, In b (@_detect_potential_bugs ascii_interpreter long_content)
            /\ bug_type b = "long_line" /\ bug_line b = 1.
Proof.
  apply (proj2 (@long_line_flagged ascii_interpreter long_content 0
                  long_content eq_refl)).
  apply Nat.leb_le. vm_compute. reflexivity.
Defined.

Lemma deep_nesting_flagged_witness :
  exists b, In b (@_detect_potential_bugs ascii_interpreter nested_content)
            /\ bug_type b = "deep_nesting" /\ bug_line b = 1.
Proof.
  apply (proj2 (@deep_nesting_flagged ascii_interpreter nested_content 0
                  nested_content eq_refl)).
  split; [|reflexivity].
  apply Nat.leb_le. vm_compute. reflexivity.
Defined.

Lemma class_patterns_match_listing_witness :
  List.filter is_ClassPattern
    (@_extract_patterns ascii_interpreter (plain_tree 139887445556624)
       plain_content)
  = map class_pattern_of
      (@_analyze_classes ascii_interpreter (plain_tree 139887445556624)).
Proof.
  exact (@class_patterns_match_listing ascii_interpreter
           (plain_tree 139887445556624) plain_content).
Defined.

Lemma function_patterns_match_listing_witness :
  Forall2 function_agrees
    (List.filter is_FunctionPattern
       (@_extract_patterns ascii_interpreter documented_tree
          documented_content))
    (@_analyze_functions ascii_interpreter documented_tree).
Proof.
  exact (proj1 (@function_patterns_match_listing ascii_interpreter
                  documented_tree documented_content)).
Defined.

Lemma imports_partition_witness :
  let imports := _analyze_imports plain_import_tree in
  length (standard imports) + length (third_party imports)
  + length (relative imports) = 2.
Proof.
  exact (proj1 (imports_partition plain_import_tree)).
Defined.

Lemma analysis_fields_consistent_witness :
  let d := @analyze_file ascii_interpreter commented_world sample_path in
  get_lines_of_code d = 3
  /\ List.Forall (fun b => 1 <= bug_line b <= get_lines_of_code d) (get_bugs d).
Proof.
  destruct (@analysis_fields_consistent ascii_interpreter commented_world
              sample_path commented_content documented_tree eq_refl eq_refl)
    as (Hlines & Hbugs & _).
  split; [exact Hlines|exact Hbugs].
Defined.

Lemma score_bonus_bounds_witness :
  (_calculate_quality_score
     (@analyze_file ascii_interpreter documented_world sample_path) == 100)%Q.
Proof.
  apply (proj1 (proj2 (proj2 (score_bonus_bounds
           (@analyze_file ascii_interpreter documented_world sample_path))))).
  vm_compute. reflexivity.
Defined.

Lemma score_ignores_order_witness :
  let a := @analyze_file ascii_interpreter documented_world sample_path in
  let other := {| bug_type := "long_line"; bug_line := 1;
                  bug_content := []; bug_severity := Low;
                  bug_pattern := "^.{120,}$" |} in
  (_calculate_quality_score (with_bugs a [bare_except_bug; other])
   == _calculate_quality_score (with_bugs a [other; bare_except_bug]))%Q.
Proof.
  intros a other.
  apply (score_ignores_order a [bare_except_bug; other]
           [other; bare_except_bug]).
  apply perm_swap.
Defined.

Lemma file_analysis_recorded_witness :
  let m := @aci_analyze_file ascii_interpreter posix_formatting
             (world_without_files sample_time) sample_path None in
  printed_by m (aci_init [])
  = [py "Analyzing file: sample.py";
     [10007%N] ++ py " Analysis failed: "
     ++ py "[Errno 2] No such file or directory: 'sample.py'"]
  /\ analysis_history (state_after m (aci_init [])) = [].
Proof.
  destruct (@file_analysis_recorded ascii_interpreter posix_formatting
              (world_without_files sample_time) sample_path None (aci_init []))
    as (_ & Hh & _ & _ & Hp & _).
  split; [apply Hp; reflexivity|exact Hh].
Defined.

Lemma report_shows_three_witness :
  let a := @analyze_file ascii_interpreter commented_world sample_path in
  In ([LF] ++ py "Potential Issues Found: 1")
     (printed_by (@_generate_analysis_report posix_formatting a) (aci_init [])).
Proof.
  intros a.
  destruct (@report_shows_three ascii_interpreter posix_formatting a
              (aci_init []))
    as (_ & _ & _ & Hb & _).
  - exists commented_world, sample_path. reflexivity.
  - reflexivity.
  - apply Hb. vm_compute. intros E. discriminate E.
Defined.

Lemma directory_analysis_results_witness :
  let m := @analyze_directory ascii_interpreter posix_formatting sample_rglob
             sample_world_at (py "pkg") None in
  result_of m (aci_init [])
  = [@analyze_file ascii_interpreter documented_world (py "pkg/a.py");
     @analyze_file ascii_interpreter (world_without_files sample_time)
       (py "pkg/b.py")]
  /\ fst (get_system_stats (state_after m (aci_init []))) = 1.
Proof.
  destruct (@directory_analysis_results ascii_interpreter posix_formatting
              sample_rglob sample_world_at (py "pkg") None (aci_init []))
    as (Hr & _ & _ & Hs & _).
  split; [exact Hr|]. rewrite Hs. reflexivity.
Defined.

Lemma history_holds_successes_witness :
  let s := state_after
             (@aci_analyze_file ascii_interpreter posix_formatting
                documented_world sample_path (Some (py "ada")))
             (aci_init []) in
  List.Forall is_success (analysis_history s) /\ developer_id s <> [].
Proof.
  apply (@history_holds_successes ascii_interpreter posix_formatting).
  apply reachable_file. apply reachable_init.
Defined.

Lemma directory_summary_report_witness :
  printed_by
    (@_generate_directory_summary posix_formatting
       [@analyze_file ascii_interpreter (world_without_files sample_time)
          sample_path])
    (aci_init [])
  = [py "No valid analyses to summarize"].
Proof.
  destruct (@directory_summary_report ascii_interpreter posix_formatting
              [@analyze_file ascii_interpreter
                 (world_without_files sample_time) sample_path]
              (aci_init []))
    as (_ & _ & Hnone & _).
  - constructor; [|constructor].
    exists (world_without_files sample_time), sample_path. reflexivity.
  - apply Hnone; [discriminate|reflexivity].
Defined.

Lemma loop_pattern_reads_subtree_witness :
  exists nested has_break has_continue,
    _analyze_loop_pattern plain_loop plain_content
    = LoopPattern "for" 3 nested has_break has_continue
    /\ S nested = 2.
Proof.
  destruct (loop_pattern_reads_subtree plain_loop plain_content eq_refl)
    as (loop_type & nested & has_break & has_continue & E & T & _ & N & _).
  exists nested, has_break, has_continue. split.
  - rewrite E. f_equal. destruct T as [[-> _]|[_ C]]; [reflexivity|].
    discriminate C.
  - apply N. vm_compute.
    constructor; [intros [E'|[]]; discriminate E'|].
    constructor; [intros []|constructor].
Defined.
